(** * AFQMC driver loops and UHF trial wavefunction: a shallow embedding

    This development embeds the control logic of

    - [afqmcpy/qmc.py]             ([do_qmc], the older CPMC driver),
    - [pauxy/qmc/afqmc.py]         ([AFQMC.run], [AFQMC.determine_dtype]),
    - [pauxy/trial_wavefunction.py] ([UHF.__init__], [UHF.find_uhf_wfn])

    and proves properties of the walker guard, the constant reweighting
    factor, the history-buffer indexing, the energy-shift cadence, the
    loop bounds and the error paths of the UHF search.

    Conventions.  Python floats and complex numbers are idealised as real
    numbers ([R]) and pairs of reals: rounding, overflow, infinities and
    NaN are not modelled.  Python integers are [Z].  Numerical kernels that live
    outside the listed sources (propagators, estimators, linear algebra,
    population control) are fields of an environment class; they act on an
    abstract [World] (random-number state and estimator accumulators).
    Every call to such a collaborator is recorded in a trace of events, so
    that "the propagator is invoked on walker i" is an observable fact. *)

From Stdlib Require Import ZArith List Reals Lra Lia String Bool.
From stdpp Require Import base option list gmap strings.

Open Scope Z_scope.

(** ** Python prelude: exceptions, a state-and-exception monad, [%],
    [range] and slices *)

Module Py.

Inductive exn : Set :=
| ZeroDivisionError
| IndexError
| TypeError
| UnboundLocalError
| NameError
| ValueError
| SystemExit.

(** A computation either returns a value or raises; in both cases the
    mutations performed so far are kept (Python objects are mutated in
    place, an exception does not roll them back). *)
Inductive outcome (S A : Type) : Type :=
| Return (a : A) (s : S)
| Raise (e : exn) (s : S).
Arguments Return {S A} a s.
Arguments Raise {S A} e s.

Definition M (S A : Type) : Type := S -> outcome S A.

Definition ret {S A} (a : A) : M S A := fun s => Return a s.

Definition bind {S A B} (m : M S A) (k : A -> M S B) : M S B :=
  fun s => match m s with
           | Return a s' => k a s'
           | Raise e s' => Raise e s'
           end.

Definition raise {S A} (e : exn) : M S A := fun s => Raise e s.
Definition get {S} : M S S := fun s => Return s s.
Definition gets {S A} (f : S -> A) : M S A := fun s => Return (f s) s.
Definition modify {S} (f : S -> S) : M S unit := fun s => Return tt (f s).

(** State reached by a computation, whether it returned or raised. *)
Definition final {S A} (o : outcome S A) : S :=
  match o with Return _ s => s | Raise _ s => s end.

Definition raised {S A} (o : outcome S A) : option exn :=
  match o with Return _ _ => None | Raise e _ => Some e end.

(** [a % b] on Python ints: floor remainder, [ZeroDivisionError] for a
    zero divisor.  [Z.modulo] has the sign of the divisor, as Python. *)
Definition py_mod {S} (a b : Z) : M S Z :=
  if b =? 0 then raise ZeroDivisionError else ret (a mod b).

(** [range(lo, hi)]. *)
Definition py_range (lo hi : Z) : list Z :=
  map (fun k => lo + Z.of_nat k) (seq 0 (Z.to_nat (hi - lo))).

(** [for x in l: body x]. *)
Fixpoint for_each {S A} (l : list A) (body : A -> M S unit) : M S unit :=
  match l with
  | [] => ret tt
  | x :: l' => bind (body x) (fun _ => for_each l' body)
  end.

(** Bound of a slice [a[lo:hi]] on a sequence of length [len]: negative
    bounds count from the end, and every bound is clamped to [0, len]. *)
Definition slice_bound (len i : Z) : Z :=
  if i <? 0 then Z.max (i + len) 0 else Z.min i len.

(** Positions selected by [a[lo:hi]]. *)
Definition py_slice (len : nat) (lo hi : Z) : list nat :=
  let l := slice_bound (Z.of_nat len) lo in
  let h := slice_bound (Z.of_nat len) hi in
  seq (Z.to_nat l) (Z.to_nat (h - l)).

(** Position selected by [a[i]]: negative indices count from the end,
    anything outside [-len, len) is an [IndexError]. *)
Definition py_index {S} (len : nat) (i : Z) : M S nat :=
  if (0 <=? i) && (i <? Z.of_nat len) then ret (Z.to_nat i)
  else if (- Z.of_nat len <=? i) && (i <? 0) then ret (Z.to_nat (i + Z.of_nat len))
  else raise IndexError.

End Py.

Export Py.

(** The monad is registered with stdpp's [MRet]/[MBind] classes, so that
    the embedded code is written [x ← m; k] and [m;; k]. *)
#[global] Instance M_ret {S} : MRet (M S) := fun A a => Py.ret a.
#[global] Instance M_bind {S} : MBind (M S) := fun A B k m => Py.bind m k.

(** [if b: m] with no [else] branch. *)
Definition when {S} (b : bool) (m : M S unit) : M S unit :=
  if b then m else Py.ret tt.

(** ** Numbers: complex scalars over the reals *)

Module Num.

Record C : Type := mkC { re : R; im : R }.

Definition Cabs (z : C) : R := sqrt (re z * re z + im z * im z).
(** [z * x] for a real [x]. *)
Definition Cscale (z : C) (x : R) : C := mkC (re z * x) (im z * x).
Definition Cmul (a b : C) : C :=
  mkC (re a * re b - im a * im b) (re a * im b + im a * re b).
Definition of_real (x : R) : C := mkC x 0.

(** The comparison [abs(w.weight) > 1e-8]. *)
Definition above_threshold (z : C) : bool :=
  if Rgt_dec (Cabs z) 1e-8 then true else false.

End Num.

Export Num.

(** ** Walkers

    A walker carries a complex weight, the [alive] flag of the newer
    driver, and its determinants and cached Green's functions, which the
    drivers never inspect ([phi], abstract). *)

Record Walker (Phi : Type) : Type :=
  mkWalker { weight : C; alive : bool; phi : Phi }.
Arguments mkWalker {Phi} weight alive phi.
Arguments weight {Phi} w.
Arguments alive {Phi} w.
Arguments phi {Phi} w.

(** [w.weight = x]. *)
Definition set_weight {Phi} (w : Walker Phi) (x : C) : Walker Phi :=
  mkWalker x (alive w) (phi w).

(** ** [afqmcpy/qmc.py]: the older driver [do_qmc]

    Names are resolved as Python resolves them.
    - [psi_hist] is a local of [do_qmc]: it is assigned at lines 27 and 96
      and nowhere else, so the subscript assignment of line 25, which
      needs its value, raises [UnboundLocalError] whenever
      [state.back_propagation] is true.
    - [estimates] (lines 69, 82, 84) is bound nowhere in the module (the
      module imports [afqmcpy.estimators]): looking the callee up raises
      [NameError] before any argument of the call is read.
    - The statements of lines 73-79, whose indentation does not agree,
      come after the call of line 69 and are never reached.
    The fields of [state] are read only: the model takes them as
    constants of a run. *)

Module Afqmcpy.

(** Calls to collaborators, as recorded in the trace. Indices are
    positions in [psi] and resolved slots of [psi_hist]. *)
Inductive event (Phi : Type) : Type :=
| Propagate (i : nat)
| EstimatorsUpdate (i : nat) (w : Walker Phi)
| Reortho (i : nat)
| HistWrite (slot : nat) (snapshot : list (Walker Phi))
| BackPropagate (slots : list nat)
| Eproj (E : C)
| PrintStep (step : Z)
| Comb.
Arguments Propagate {Phi} i.
Arguments EstimatorsUpdate {Phi} i w.
Arguments Reortho {Phi} i.
Arguments HistWrite {Phi} slot snapshot.
Arguments BackPropagate {Phi} slots.
Arguments Eproj {Phi} E.
Arguments PrintStep {Phi} step.
Arguments Comb {Phi}.

(** The collaborators of [do_qmc]. [observe] is the effect on the world of
    the calls whose result the driver does not use. *)
Class Env : Type := mkEnv {
  Phi : Type;
  World : Type;
  PsiLeft : Type;
  propagate_walker : Walker Phi -> World -> Walker Phi * World;
  reortho : Walker Phi -> C * Walker Phi;
  local_energy : Walker Phi -> C;
  back_propagate : list (list (Walker Phi)) -> World -> PsiLeft * World;
  eproj : World -> C;
  comb : list (Walker Phi) -> Z -> option (list (list (Walker Phi))) -> World ->
         list (Walker Phi) * option (list (list (Walker Phi))) * World;
  observe : event Phi -> World -> World
}.

(** The fields of the [state] object that [do_qmc] reads.  [itcf] is read
    at line 73 only, which is not reached, and [itcf_stable] at line 81,
    where both branches of the test behave alike. *)
Record State : Type := mkState {
  nsteps : Z;
  dt : R;
  nstblz : Z;
  nmeasure : Z;
  nequilibrate : Z;
  npop_control : Z;
  nwalkers : Z;
  nprop_tot : Z;
  calc_itcf : bool;
  back_propagation : bool;
  nback_prop : Z;
  itcf : bool;
  itcf_stable : bool;
  importance_sampling : bool
}.

(** What [do_qmc] mutates: its locals, the attribute
    [state.mean_local_energy], the world behind the collaborators, the
    trace, and (ghost) the steps whose body was entered.  [psi_hist] is
    the value of the local once it is bound: [None], or an array whose
    slots are the columns [psi_hist[:,k]], snapshots of the population;
    it is not read before line 27 has bound it. *)
Record store `{Env} : Type := mkStore {
  psi : list (Walker Phi);
  psi_hist : option (list (list (Walker Phi)));
  psi_left : option PsiLeft;
  E_T : C;
  mean_local_energy : option C;
  qmc_mean_local_energy : option R;
  world : World;
  trace : list (event Phi);
  steps : list Z
}.
Arguments mkStore {_} psi psi_hist psi_left E_T mean_local_energy qmc_mean_local_energy
  world trace steps.

Section Model.
Context `{Env}.

Definition set_psi (x : list (Walker Phi)) (s : store) : store :=
  mkStore x (psi_hist s) (psi_left s) (E_T s) (mean_local_energy s) (qmc_mean_local_energy s) (world s) (trace s) (steps s).
Definition set_psi_hist (x : option (list (list (Walker Phi)))) (s : store) : store :=
  mkStore (psi s) x (psi_left s) (E_T s) (mean_local_energy s) (qmc_mean_local_energy s) (world s) (trace s) (steps s).
Definition set_psi_left (x : option PsiLeft) (s : store) : store :=
  mkStore (psi s) (psi_hist s) x (E_T s) (mean_local_energy s) (qmc_mean_local_energy s) (world s) (trace s) (steps s).
Definition set_E_T (x : C) (s : store) : store :=
  mkStore (psi s) (psi_hist s) (psi_left s) x (mean_local_energy s) (qmc_mean_local_energy s) (world s) (trace s) (steps s).
Definition set_mean_local_energy (x : option C) (s : store) : store :=
  mkStore (psi s) (psi_hist s) (psi_left s) (E_T s) x (qmc_mean_local_energy s) (world s) (trace s) (steps s).
Definition set_qmc_mean_local_energy (x : option R) (s : store) : store :=
  mkStore (psi s) (psi_hist s) (psi_left s) (E_T s) (mean_local_energy s) x (world s) (trace s) (steps s).
Definition set_world (x : World) (s : store) : store :=
  mkStore (psi s) (psi_hist s) (psi_left s) (E_T s) (mean_local_energy s) (qmc_mean_local_energy s) x (trace s) (steps s).
Definition log (ev : event Phi) (s : store) : store :=
  mkStore (psi s) (psi_hist s) (psi_left s) (E_T s) (mean_local_energy s) (qmc_mean_local_energy s) (world s) (trace s ++ [ev]) (steps s).
Definition enter_step (step : Z) (s : store) : store :=
  mkStore (psi s) (psi_hist s) (psi_left s) (E_T s) (mean_local_energy s) (qmc_mean_local_energy s) (world s) (trace s) (steps s ++ [step]).

(** A call whose result is not used: logged, and the world moves on. *)
Definition call (ev : event Phi) : M store unit :=
  Py.modify (fun s => log ev (set_world (observe ev (world s)) s)).

(** [state.propagators.propagate_walker(w, state)], on the walker at
    position [i]. *)
Definition call_propagate_walker (i : nat) (w : Walker Phi) : M store (Walker Phi) :=
  fun s => let '(w', wd) := propagate_walker w (world s) in
           Return w' (log (Propagate i) (set_world wd s)).

(** [detR = w.reortho(state.system.nup)]. *)
Definition call_reortho (i : nat) (w : Walker Phi) : M store (C * Walker Phi) :=
  fun s => Return (reortho w) (log (Reortho i) s).

(** Lines 43-52: the body of [for w in psi], for the walker at position
    [i]. *)
Definition walker_body (st : State) (step : Z) (i : nat) (w : Walker Phi)
  : M store (Walker Phi) :=
  E ← Py.gets E_T;
  w ← (if above_threshold (weight w) then call_propagate_walker i w else mret w);
  let w := set_weight w (Cscale (weight w) (exp (dt st * re E))) in
  call (EstimatorsUpdate i w);;
  r ← py_mod step (nstblz st);
  if r =? 0 then
    '(detR, w) ← call_reortho i w;
    if negb (importance_sampling st)
    then mret (set_weight w (Cmul detR (weight w)))
    else mret w
  else mret w.

(** [for w in psi: ...]: the walkers are visited in order and mutated in
    place; the population is stored back when the loop is over (a pass
    that raises leaves the stored population as it was on entry: nothing
    below reads the population of a failed pass). *)
Fixpoint for_walkers (body : nat -> Walker Phi -> M store (Walker Phi))
         (i : nat) (l : list (Walker Phi)) : M store (list (Walker Phi)) :=
  match l with
  | [] => mret []
  | w :: l' =>
      w' ← body i w;
      l'' ← for_walkers body (S i) l';
      mret (w' :: l'')
  end.

Definition walkers_phase (st : State) (step : Z) : M store unit :=
  l ← Py.gets psi;
  l' ← for_walkers (walker_body st step) 0%nat l;
  Py.modify (set_psi l').

(** [psi_hist[:,slot] = copy.deepcopy(psi)].  Subscripting [None] is a
    [TypeError]; the slot is resolved as a Python index.  The copy is
    deep, so the snapshot is the value of the population at that time. *)
Definition hist_write (slot : Z) : M store unit :=
  s ← Py.get;
  match psi_hist s with
  | None => Py.raise TypeError
  | Some h =>
      k ← py_index (length h) slot;
      Py.modify (fun s => log (HistWrite k (psi s)) (set_psi_hist (Some (<[k := psi s]> h)) s))
  end.

(** The columns [h[:, lo:hi]]. *)
Definition hist_slice (h : list (list (Walker Phi))) (lo hi : Z) : list (list (Walker Phi)) :=
  let l := slice_bound (Z.of_nat (length h)) lo in
  let u := slice_bound (Z.of_nat (length h)) hi in
  take (Z.to_nat (u - l)) (drop (Z.to_nat l) h).

(** [psi_left = afqmcpy.propagation.back_propagate(state, psi_hist[:,lo:hi])]. *)
Definition call_back_propagate (lo hi : Z) : M store unit :=
  s ← Py.get;
  match psi_hist s with
  | None => Py.raise TypeError
  | Some h =>
      let '(pl, wd) := back_propagate (hist_slice h lo hi) (world s) in
      Py.modify (fun s => log (BackPropagate (py_slice (length h) lo hi))
                              (set_psi_left (Some pl) (set_world wd s)))
  end.

(** Lines 53-79.  After the call of line 67 the statement of line 69
    looks up [estimates], which is not bound: [NameError].  The reset of
    slot 0 at line 79 is not reached. *)
Definition back_propagation_phase (st : State) (step : Z) : M store unit :=
  bp_step ← py_mod (step - 1) (nprop_tot st);
  when (back_propagation st) (
    hist_write (bp_step + 1);;
    r ← py_mod step (nback_prop st);
    when (r =? 0) (
      let s := bp_step - nback_prop st + 1 in
      let e := bp_step + 1 in
      call_back_propagate (s + 1) (e + 1);;
      Py.raise NameError)).

(** Lines 80-86. [and] evaluates its right operand only when the left
    one is true.  Both branches of the test of [state.itcf_stable] start
    by looking up [estimates]: [NameError], before [psi_hist] and
    [psi_left] are read; the reset of slot 0 at line 86 is not reached. *)
Definition itcf_phase (st : State) (step : Z) : M store unit :=
  fire ← (if calc_itcf st
          then r ← py_mod step (nprop_tot st); mret (r =? 0)
          else mret false);
  when fire (Py.raise NameError).

(** Lines 87-91. *)
Definition measure_phase (st : State) (step : Z) : M store unit :=
  r ← py_mod step (nmeasure st);
  when (r =? 0) (
    E ← Py.gets (fun s => eproj (world s));
    Py.modify (fun s => log (Eproj E) (set_E_T E s));;
    call (PrintStep step)).

(** Lines 92-94. *)
Definition equilibration_phase (st : State) (step : Z) : M store unit :=
  when (step <? nequilibrate st) (
    Py.modify (fun s => set_mean_local_energy (Some (E_T s)) s)).

(** Lines 95-96. *)
Definition pop_control_phase (st : State) (step : Z) : M store unit :=
  r ← py_mod step (npop_control st);
  when (r =? 0) (
    Py.modify (fun s =>
      let '(l, h, wd) := comb (psi s) (nwalkers st) (psi_hist s) (world s) in
      log Comb (set_world wd (set_psi_hist h (set_psi l s))))).

(** The body of [for step in range(1, state.qmc.nsteps)]. *)
Definition do_qmc_step (st : State) (step : Z) : M store unit :=
  Py.modify (enter_step step);;
  walkers_phase st step;;
  back_propagation_phase st step;;
  itcf_phase st step;;
  measure_phase st step;;
  equilibration_phase st step;;
  pop_control_phase st step.

(** Lines 22-36.  At line 25 the local [psi_hist] has no value yet:
    [UnboundLocalError]. *)
Definition prologue (st : State) : M store unit :=
  (if back_propagation st then Py.raise UnboundLocalError
   else Py.modify (set_psi_hist None));;
  l ← Py.gets psi;
  match l with
  | [] => Py.raise IndexError
  | w0 :: _ =>
      let E := local_energy w0 in
      Py.modify (fun s => set_qmc_mean_local_energy (Some (re E)) (set_E_T E s));;
      for_each (imap (fun i w => (i, w)) l) (fun iw => call (EstimatorsUpdate (fst iw) (snd iw)));;
      call (PrintStep 0)
  end.

(** [do_qmc(state, psi, comm)]. *)
Definition do_qmc (st : State) : M store unit :=
  prologue st;;
  for_each (py_range 1 (nsteps st)) (do_qmc_step st).

(** [w] after the guarded call of the propagator in world [wd]. *)
Definition propagated (w : Walker Phi) (wd : World) : Walker Phi :=
  if above_threshold (weight w) then (propagate_walker w wd).1 else w.

(** [w] after [w.weight = w.weight * exp(dt * E.real)]. *)
Definition reweighted (st : State) (E : C) (w : Walker Phi) : Walker Phi :=
  set_weight w (Cscale (weight w) (exp (dt st * re E))).

(** [w] after lines 50-52. *)
Definition stabilised (st : State) (w : Walker Phi) : Walker Phi :=
  let '(detR, w') := reortho w in
  if negb (importance_sampling st) then set_weight w' (Cmul detR (weight w')) else w'.

(** The pass over the walkers changes the world and the trace only (the
    population is stored back after it). *)
Definition same_frame (s s' : store) : Prop :=
  psi s' = psi s /\ psi_hist s' = psi_hist s /\ psi_left s' = psi_left s /\
  E_T s' = E_T s /\ mean_local_energy s' = mean_local_energy s /\
  qmc_mean_local_energy s' = qmc_mean_local_energy s /\ steps s' = steps s.

(** The events of the pass over the walkers. *)
Definition walker_event (ev : event Phi) : bool :=
  match ev with
  | Propagate _ | EstimatorsUpdate _ _ | Reortho _ => true
  | _ => false
  end.

(** The events that touch the history buffer. *)
Definition history_event (ev : event Phi) : bool :=
  match ev with
  | HistWrite _ _ | BackPropagate _ => true
  | _ => false
  end.

(** A reset of slot 0 of the history buffer, and their number in a list
    of events. *)
Definition is_reset (ev : event Phi) : bool :=
  match ev with
  | HistWrite O _ => true
  | _ => false
  end.

Definition resets (evs : list (event Phi)) : nat := length (List.filter is_reset evs).

(** Whether the back-propagation path (lines 56-79) and the ITCF path
    (lines 80-86) fire at a step. *)
Definition bp_fires (st : State) (step : Z) : bool :=
  back_propagation st && (step mod nback_prop st =? 0).

Definition itcf_fires (st : State) (step : Z) : bool :=
  calc_itcf st && (step mod nprop_tot st =? 0).

(** The events of lines 53-79 in a step that returns, for a population
    [l], when the write of line 55 resolves to the slot [k]; and the
    events of lines 87-91 and 95-96. *)
Definition bp_events (st : State) (l : list (Walker Phi)) (k : nat) : list (event Phi) :=
  if back_propagation st then [HistWrite k l] else [].

Definition measure_events (st : State) (step : Z) (E : C) : list (event Phi) :=
  if step mod nmeasure st =? 0 then [Eproj E; PrintStep step] else [].

Definition pop_control_events (st : State) (step : Z) : list (event Phi) :=
  if step mod npop_control st =? 0 then [Comb] else [].

(** What the phases after the pass over the walkers leave alone, up to
    population control: the population, the energy shift, the local
    energy bound and the ghost record of steps. *)
Definition same_locals (s s' : store) : Prop :=
  psi s' = psi s /\ E_T s' = E_T s /\ mean_local_energy s' = mean_local_energy s /\
  steps s' = steps s.

(** What no part of [do_qmc] after line 30 touches, in a run without
    back-propagation: the attribute [state.qmc.mean_local_energy], and
    the history buffer (no event of the trace writes or reads it). *)
Definition undisturbed (s s' : store) : Prop :=
  qmc_mean_local_energy s' = qmc_mean_local_energy s /\
  exists evs, trace s' = trace s ++ evs /\
              Forall (fun ev => history_event ev = false) evs.

(** The store on entry: the population; no local is bound yet. *)
Definition entry (l : list (Walker Phi)) (wd : World) : store :=
  mkStore l None None (mkC 0 0) None None wd [] [].

End Model.
End Afqmcpy.

(** ** [pauxy/qmc/afqmc.py]: the driver [AFQMC.run] and
    [AFQMC.determine_dtype] *)

Module Pauxy.

Inductive event : Type :=
| Propagate (i : nat)
| MixedUpdate (step : Z)
| MixedPrintStep (step : Z)
| EstimatorsUpdate (step : Z)
| Orthogonalise (free_projection : bool)
| ProjectedEnergy (E : C)
| PrintStep (step : Z)
| PopControl.

(** The collaborators of [AFQMC.run].  [orthogonalise] and [pop_control]
    are the methods of the walker handler, which mutate the population. *)
Class Env : Type := mkEnv {
  Phi : Type;
  World : Type;
  propagate_walker : Walker Phi -> World -> Walker Phi * World;
  local_energy : Walker Phi -> C;
  orthogonalise : bool -> list (Walker Phi) -> list (Walker Phi);
  projected_energy : World -> C;
  pop_control : list (Walker Phi) -> World -> list (Walker Phi) * World;
  observe : event -> World -> World
}.

(** [self.qmc], and the other attributes of the driver that [run] reads. *)
Record QMCOpts : Type := mkQMCOpts {
  nsteps : Z;
  dt : R;
  nstblz : Z;
  nupdate_shift : Z;
  nmeasure : Z;
  nequilibrate : Z;
  npop_control : Z
}.

Record AFQMC : Type := mkAFQMC {
  qmc : QMCOpts;
  free_projection : bool;
  root : bool
}.

(** What [run] mutates: [self.psi.walkers], the local [E_T],
    [self.propagators.mean_local_energy], the world, the trace and
    (ghost) the steps whose body was entered. *)
Record store `{Env} : Type := mkStore {
  walkers : list (Walker Phi);
  E_T : C;
  mean_local_energy : option C;
  world : World;
  trace : list event;
  steps : list Z
}.
Arguments mkStore {_} walkers E_T mean_local_energy world trace steps.

Section Model.
Context `{Env}.

Definition set_walkers (x : list (Walker Phi)) (s : store) : store :=
  mkStore x (E_T s) (mean_local_energy s) (world s) (trace s) (steps s).
Definition set_E_T (x : C) (s : store) : store :=
  mkStore (walkers s) x (mean_local_energy s) (world s) (trace s) (steps s).
Definition set_mean_local_energy (x : option C) (s : store) : store :=
  mkStore (walkers s) (E_T s) x (world s) (trace s) (steps s).
Definition set_world (x : World) (s : store) : store :=
  mkStore (walkers s) (E_T s) (mean_local_energy s) x (trace s) (steps s).
Definition log (ev : event) (s : store) : store :=
  mkStore (walkers s) (E_T s) (mean_local_energy s) (world s) (trace s ++ [ev]) (steps s).
Definition enter_step (step : Z) (s : store) : store :=
  mkStore (walkers s) (E_T s) (mean_local_energy s) (world s) (trace s) (steps s ++ [step]).

Definition call (ev : event) : M store unit :=
  Py.modify (fun s => log ev (set_world (observe ev (world s)) s)).

(** [self.propagators.propagate_walker(w, self.system, self.trial)]. *)
Definition call_propagate_walker (i : nat) (w : Walker Phi) : M store (Walker Phi) :=
  fun s => let '(w', wd) := propagate_walker w (world s) in
           Return w' (log (Propagate i) (set_world wd s)).

(** Lines 150-154: the body of [for w in self.psi.walkers]. *)
Definition walker_body (self : AFQMC) (i : nat) (w : Walker Phi) : M store (Walker Phi) :=
  E ← Py.gets E_T;
  w ← (if above_threshold (weight w) && alive w
       then call_propagate_walker i w else mret w);
  mret (set_weight w (Cscale (weight w) (exp (dt (qmc self) * re E)))).

Fixpoint for_walkers (body : nat -> Walker Phi -> M store (Walker Phi))
         (i : nat) (l : list (Walker Phi)) : M store (list (Walker Phi)) :=
  match l with
  | [] => mret []
  | w :: l' =>
      w' ← body i w;
      l'' ← for_walkers body (S i) l';
      mret (w' :: l'')
  end.

Definition walkers_phase (self : AFQMC) : M store unit :=
  l ← Py.gets walkers;
  l' ← for_walkers (walker_body self) 0%nat l;
  Py.modify (set_walkers l').

(** Lines 146-171: the body of [for step in range(1, self.qmc.nsteps + 1)]. *)
Definition run_step (self : AFQMC) (step : Z) : M store unit :=
  Py.modify (enter_step step);;
  walkers_phase self;;
  call (EstimatorsUpdate step);;
  r ← py_mod step (nstblz (qmc self));
  when (r =? 0) (
    Py.modify (fun s =>
      log (Orthogonalise (free_projection self))
          (set_walkers (orthogonalise (free_projection self) (walkers s)) s)));;
  r ← py_mod step (nupdate_shift (qmc self));
  when (r =? 0) (
    Py.modify (fun s => let E := projected_energy (world s) in
                        log (ProjectedEnergy E) (set_E_T E s)));;
  r ← py_mod step (nmeasure (qmc self));
  when (r =? 0) (call (PrintStep step));;
  when (step <? nequilibrate (qmc self)) (
    Py.modify (fun s => set_mean_local_energy (Some (E_T s)) s));;
  r ← py_mod step (npop_control (qmc self));
  when (r =? 0) (
    Py.modify (fun s => let '(l, wd) := pop_control (walkers s) (world s) in
                        log PopControl (set_world wd (set_walkers l s)))).

(** [AFQMC.run(self, psi=None, comm=None, verbose=True)]. *)
Definition run (self : AFQMC) (psi : option (list (Walker Phi))) (verbose : bool)
  : M store unit :=
  match psi with
  | Some l => Py.modify (set_walkers l)
  | None => mret tt
  end;;
  l ← Py.gets walkers;
  match l with
  | [] => Py.raise IndexError
  | w0 :: _ =>
      let E := local_energy w0 in
      Py.modify (fun s => set_mean_local_energy (Some (of_real (re E))) (set_E_T E s));;
      call (MixedUpdate 0);;
      when (verbose && root self) (call (MixedPrintStep 0));;
      for_each (py_range 1 (nsteps (qmc self) + 1)) (run_step self)
  end.

(** The guard of line 150. *)
Definition guard (w : Walker Phi) : bool := above_threshold (weight w) && alive w.

(** The calls that a step makes after its pass over the walkers, when the
    energy shift it ends with is [E]. *)
Definition step_calls (self : AFQMC) (step : Z) (E : C) : list event :=
  [EstimatorsUpdate step]
  ++ (if step mod nstblz (qmc self) =? 0 then [Orthogonalise (free_projection self)] else [])
  ++ (if step mod nupdate_shift (qmc self) =? 0 then [ProjectedEnergy E] else [])
  ++ (if step mod nmeasure (qmc self) =? 0 then [PrintStep step] else [])
  ++ (if step mod npop_control (qmc self) =? 0 then [PopControl] else []).

(** The pass over the walkers leaves the locals and attributes other than
    the walkers, the world and the trace as they are. *)
Definition same_frame (s s' : store) : Prop :=
  E_T s' = E_T s /\ mean_local_energy s' = mean_local_energy s /\ steps s' = steps s.

(** The four periodic calls of a step, and the number of calls of a kind
    in a trace. *)
Definition is_orthogonalise (ev : event) : bool :=
  match ev with Orthogonalise _ => true | _ => false end.
Definition is_projected_energy (ev : event) : bool :=
  match ev with ProjectedEnergy _ => true | _ => false end.
Definition is_print_step (ev : event) : bool :=
  match ev with PrintStep _ => true | _ => false end.
Definition is_pop_control (ev : event) : bool :=
  match ev with PopControl => true | _ => false end.

Definition calls (kind : event -> bool) (t : list event) : nat :=
  length (List.filter kind t).

(** The calls of the propagator that a pass over the walkers [l], which
    sit at positions [i, i+1, ...], is expected to make. *)
Fixpoint propagations (i : nat) (l : list (Walker Phi)) : list event :=
  match l with
  | [] => []
  | w :: l' => (if guard w then [Propagate i] else []) ++ propagations (S i) l'
  end.

(** A kind of call that a step makes exactly when [step mod c = 0]. *)
Definition periodic (self : AFQMC) (kind : event -> bool) (c : Z) : Prop :=
  (forall k, kind (Propagate k) = false) /\ (forall k, kind (MixedUpdate k) = false) /\
  (forall k, kind (MixedPrintStep k) = false) /\
  forall step E, calls kind (step_calls self step E) = if step mod c =? 0 then 1%nat else 0%nat.

End Model.

(** *** [determine_dtype]

    [system.ktwist] is a numpy array.  The system classes build it with
    [numpy.array] from the input options, so it is an array of floats when
    a twist is given and an array of dtype [object] holding [None] when
    none is.  [ndarray.all()] is modelled as in NumPy before 2.0: a
    [numpy.bool_] for a numeric array, and for an [object] array the
    reduction by Python's [and], which yields one of the elements. *)

Inductive pyobj : Type :=
| PyNone
| PyFloat (x : R)
| NpBool (b : bool).

Inductive ndarray : Type :=
| FloatArray (l : list R)
| ObjectArray (l : list pyobj).

Definition truthy (o : pyobj) : bool :=
  match o with
  | PyNone => false
  | PyFloat x => if Req_dec_T x 0 then false else true
  | NpBool b => b
  end.

(** [a and b] on objects. *)
Definition py_and (a b : pyobj) : pyobj := if truthy a then b else a.

Definition ndarray_all (a : ndarray) : pyobj :=
  match a with
  | FloatArray l => NpBool (forallb (fun x => if Req_dec_T x 0 then false else true) l)
  | ObjectArray [] => NpBool true
  | ObjectArray (o :: l) => fold_left py_and l o
  end.

(** [o is not None]. *)
Definition is_not_None (o : pyobj) : bool :=
  match o with PyNone => false | _ => true end.

Record System : Type := mkSystem { ktwist : ndarray }.

(** ['continuous' in hs_type], on strings. *)
Definition contains (needle hay : string) : bool :=
  match String.index 0 needle hay with Some _ => true | None => false end.

Definition determine_dtype (propagator : gmap string string) (system : System) : bool :=
  let hs_type := default "discrete"%string (propagator !! "hubbard_stratonovich"%string) in
  let continuous := contains "continuous" hs_type in
  let twist := is_not_None (ndarray_all (ktwist system)) in
  continuous || twist.

End Pauxy.

(** ** [pauxy/trial_wavefunction.py]: the UHF trial wavefunction

    Matrices, density vectors and eigenvalue arrays are abstract; the
    numpy and LAPACK arithmetic on them ([initialise], [density],
    [diagonalise_mean_field], [mix_density], the mean absolute difference
    inside [self_consistant], the local energy of a determinant) are
    kernels of the environment.  The control flow of [find_uhf_wfn] and of
    [__init__], the bookkeeping of [system.U], the locals that may be
    unbound and the scalar tests are embedded as written. *)

Module TrialWavefunction.

Inductive event : Type :=
| Warn (msg : string).

Class Env : Type := mkEnv {
  Wfn : Type;
  Dens : Type;
  Eigs : Type;
  Rng : Type;
  Sys : Type;
  (** [self.initialise(nbasis, nup, ndown, cplx)]: a random starting point. *)
  initialise : Sys -> bool -> Rng -> Wfn * R * Rng;
  (** [self.density(wfn[:,:nup])] and [self.density(wfn[:,nup:])]. *)
  density_up : Sys -> Wfn -> Dens;
  density_down : Sys -> Wfn -> Dens;
  (** [self.diagonalise_mean_field(system, ueff, niup, nidown)], which
      also overwrites [self.trial]. *)
  diagonalise_mean_field : Sys -> R -> Dens -> Dens -> Wfn -> Dens * Dens * Eigs * Eigs * Wfn;
  (** [local_energy(system, G)[0].real] for the Green's function of a
      determinant; it reads [system.U]. *)
  energy : Sys -> R -> Wfn -> R;
  (** [sum(abs(a - b)) / len(a)]. *)
  mean_abs_diff : Dens -> Dens -> R;
  (** [(1 - alpha) * new + alpha * old]. *)
  mix_density : Dens -> Dens -> R -> Dens;
  (** [numpy.append(e_up, e_down)]. *)
  append : Eigs -> Eigs -> Eigs
}.

(** The mutable objects: [system.U], the random-number state, and the
    trace of warnings. *)
Record store `{Env} : Type := mkStore {
  system_U : R;
  rng : Rng;
  trace : list event
}.
Arguments mkStore {_} system_U rng trace.

(** Options of the [trial] dictionary that [UHF.__init__] unpacks; an
    absent key is [None]. *)
Record TrialOpts : Type := mkTrialOpts {
  opt_ninitial : option Z;
  opt_nconv : option Z;
  opt_ueff : option R;
  opt_deps : option R;
  opt_alpha : option R
}.

Section Model.
Context `{Env}.

Definition set_system_U (x : R) (s : store) : store := mkStore x (rng s) (trace s).
Definition set_rng (x : Rng) (s : store) : store := mkStore (system_U s) x (trace s).
Definition warn (msg : string) : M store unit :=
  Py.modify (fun s => mkStore (system_U s) (rng s) (trace s ++ [Warn msg])).

(** The locals of [find_uhf_wfn] that outlive an SCF cycle; [None] is an
    unbound local. *)
Record locals : Type := mkLocals {
  minima : list R;
  psi_accept : option Wfn;
  e_accept : option Eigs;
  it : option Z;
  enew : option R;
  e_up_down : option (Eigs * Eigs);
  nav : option (Dens * Dens)
}.

(** The variables of one SCF cycle, and [self.trial]. *)
Record scf : Type := mkScf {
  trial : Wfn;
  niup : Dens;
  nidown : Dens;
  niup_old : Dens;
  nidown_old : Dens;
  eold : R
}.

Definition Rltb (x y : R) : bool := if Rlt_dec x y then true else false.

(** Lines 280-291.  [deps**0.5] is the real square root for [deps >= 0];
    for a negative [deps] the first test is false and the others, the
    only users of [depsn], are not evaluated. *)
Definition self_consistant (enew eold : R) (niup niup_old nidown nidown_old : Dens)
           (deps : R) : bool :=
  let depsn := sqrt deps in
  let ediff := Rabs (enew - eold) in
  let nup_diff := mean_abs_diff niup niup_old in
  let ndown_diff := mean_abs_diff nidown nidown_old in
  Rltb ediff deps && Rltb nup_diff depsn && Rltb ndown_diff depsn.

(** [min(minima)]. *)
Definition py_min (l : list R) : M store R :=
  match l with
  | [] => Py.raise ValueError
  | x :: l' => mret (fold_left Rmin l' x)
  end.

(** Lines 226-233: a converged cycle is accepted on the first attempt, or
    when it lies below every minimum found so far by more than [deps]. *)
Definition accept (attempt : Z) (deps e : R) (e_up e_down : Eigs) (t : Wfn) (loc : locals)
  : locals :=
  if (attempt =? 0) || forallb (fun m => Rltb deps (m - e)) (minima loc)
  then mkLocals (minima loc ++ [e]) (Some t) (Some (append e_up e_down))
                (it loc) (enew loc) (e_up_down loc) (nav loc)
  else loc.

(** Lines 211-242: [for it in range(0, nit_max)], with its [break]. *)
Fixpoint scf_cycle (sys : Sys) (ueff alpha deps : R) (attempt : Z) (its : list Z)
         (v : scf) (loc : locals) : M store (scf * locals) :=
  match its with
  | [] => mret (v, loc)
  | i :: its' =>
      let '(up, down, e_up, e_down, t) :=
        diagonalise_mean_field sys ueff (niup v) (nidown v) (trial v) in
      U ← Py.gets system_U;
      let e := energy sys U t in
      let loc := mkLocals (minima loc) (psi_accept loc) (e_accept loc)
                          (Some i) (Some e) (Some (e_up, e_down)) (Some (up, down)) in
      if self_consistant e (eold v) up (niup_old v) down (nidown_old v) deps
      then mret (mkScf t up down (niup_old v) (nidown_old v) (eold v),
                 accept attempt deps e e_up e_down t loc)
      else
        let mixup := mix_density up (niup_old v) alpha in
        let mixdown := mix_density down (nidown_old v) alpha in
        let loc := mkLocals (minima loc) (psi_accept loc) (e_accept loc)
                            (Some i) (Some e) (Some (e_up, e_down)) (Some (mixup, mixdown)) in
        scf_cycle sys ueff alpha deps attempt its' (mkScf t mixup mixdown up down e) loc
  end.

(** Lines 203-244: one iteration of [for attempt in range(0, ninit)].
    The [print] of line 243 reads [it]. *)
Definition attempt_body (sys : Sys) (cplx : bool) (ueff alpha deps : R) (nit_max : Z)
           (attempt : Z) (loc : locals) : M store locals :=
  s ← Py.get;
  let '(t, e0, g) := initialise sys cplx (rng s) in
  Py.modify (set_rng g);;
  let v := mkScf t (density_up sys t) (density_down sys t)
                 (density_up sys t) (density_down sys t) e0 in
  let loc := mkLocals (minima loc) (psi_accept loc) (e_accept loc) (it loc) (enew loc)
                      (e_up_down loc) (Some (niup v, nidown v)) in
  '(_, loc) ← scf_cycle sys ueff alpha deps attempt (py_range 0 nit_max) v loc;
  match it loc with
  | None => Py.raise UnboundLocalError
  | Some _ => mret loc
  end.

Fixpoint attempts (body : Z -> locals -> M store locals) (l : list Z) (loc : locals)
  : M store locals :=
  match l with
  | [] => mret loc
  | a :: l' => loc' ← body a loc; attempts body l' loc'
  end.

(** The value returned by [find_uhf_wfn]:
    [(psi, eigs, emin, error, nav)]. *)
Record result : Type := mkResult {
  r_psi : Wfn;
  r_eigs : Eigs;
  r_emin : option R;
  r_error : bool;
  r_nav : option (Dens * Dens)
}.

(** Lines 195-253. *)
Definition find_uhf_wfn (sys : Sys) (cplx : bool) (ueff : R) (ninit nit_max : Z)
           (alpha deps : R) : M store result :=
  let emin := 0%R in
  uold ← Py.gets system_U;
  Py.modify (set_system_U ueff);;
  loc ← attempts (attempt_body sys cplx ueff alpha deps nit_max) (py_range 0 ninit)
                 (mkLocals [] None None None None None None);
  Py.modify (set_system_U uold);;
  _ ← py_min (minima loc);
  match psi_accept loc, e_accept loc, nav loc with
  | Some p, Some e, Some n =>
      m ← py_min (minima loc);
      mret (mkResult p e (Some m) false (Some n))
  | _, _, _ =>
      (* except UnboundLocalError: *)
      match enew loc with
      | None => Py.raise UnboundLocalError
      | Some e =>
          warn "Warning: No UHF wavefunction found.";;
          (* [trial] is not a name of this scope *)
          Py.raise NameError
      end
  end.

(** Bookkeeping of the search: as soon as a minimum is recorded, the
    accepted wavefunction, its eigenvalues and the densities are bound. *)
Definition accepted_ok (loc : locals) : Prop :=
  minima loc <> [] ->
  is_Some (psi_accept loc) /\ is_Some (e_accept loc) /\ is_Some (nav loc).

(** The accepted wavefunction is the lowest one: the minimum recorded
    last is its energy at [U = ueff], and lies below all the others. *)
Definition lowest_accepted (sys : Sys) (ueff : R) (loc : locals) : Prop :=
  minima loc = [] \/
  exists p l, psi_accept loc = Some p /\ minima loc = l ++ [energy sys ueff p] /\
              Forall (fun m => (energy sys ueff p < m)%R) l.

(** The attributes of the constructed object that depend on the search. *)
Record UHF : Type := mkUHF {
  psi : Wfn;
  eigs : Eigs;
  emin : option R;
  error : bool;
  etrial : R
}.

(** Lines 160-193: [UHF.__init__]. [sys.exit()] raises [SystemExit]. *)
Definition UHF_init (sys : Sys) (cplx : bool) (opts : TrialOpts) (parallel : bool)
  : M store UHF :=
  let ninitial := default 10 (opt_ninitial opts) in
  let nconv := default 5000 (opt_nconv opts) in
  let ueff := default 0.4%R (opt_ueff opts) in
  let deps := default 1e-8%R (opt_deps opts) in
  let alpha := default 0.5%R (opt_alpha opts) in
  r ← find_uhf_wfn sys cplx ueff ninitial nconv alpha deps;
  if r_error r && negb parallel
  then warn "Error in constructing trial wavefunction. Exiting";;
       Py.raise SystemExit
  else
    U ← Py.gets system_U;
    mret (mkUHF (r_psi r) (r_eigs r) (r_emin r) (r_error r) (energy sys U (r_psi r))).

End Model.
End TrialWavefunction.

(** ** [pauxy/trial_wavefunction.py]: the determinants of a
    multi-determinant trial wavefunction

    Lines 358-365 of [MultiDeterminant.__init__] cut the flat array of
    orbital coefficients into one block per determinant.  A determinant is
    kept as its block of [nbasis * ne] coefficients (the reshape in
    Fortran order does not change them); [numpy.zeros] at line 355 has
    already rejected negative sizes, which are therefore naturals here. *)

Module MultiDeterminant.

(** [a[lo:hi]] on a one-dimensional array. *)
Definition slice {A} (a : list A) (lo hi : Z) : list A :=
  let l := slice_bound (Z.of_nat (length a)) lo in
  let u := slice_bound (Z.of_nat (length a)) hi in
  take (Z.to_nat (u - l)) (drop (Z.to_nat l) a).

(** [a.reshape((nbasis, ne), order='F')]: a [ValueError] unless the sizes
    agree. *)
Definition reshape {S A} (a : list A) (nbasis ne : nat) : M S (list A) :=
  if (length a =? nbasis * ne)%nat then mret a else Py.raise ValueError.

(** The body of [for i in range(self.ndets)] for the indices in [is],
    with the locals [start] and [end] and the array [self.psi]. *)
Fixpoint fill {S A} (orbitals : list A) (nbasis ne : nat) (skip : Z) (indices : list nat)
         (first last : Z) (psi : list (list A)) : M S (list (list A)) :=
  match indices with
  | [] => mret psi
  | i :: indices' =>
      d ← reshape (slice orbitals first last) nbasis ne;
      fill orbitals nbasis ne skip indices' last (last + skip) (<[i := d]> psi)
  end.

(** Lines 355-365: [self.psi] starts as zeros and receives the blocks. *)
Definition load_determinants {S A} (zero : A) (orbitals : list A) (ndets nbasis ne : nat)
  : M S (list (list A)) :=
  let psi := replicate ndets (replicate (nbasis * ne) zero) in
  let skip := Z.of_nat nbasis * Z.of_nat ne in
  fill orbitals nbasis ne skip (seq 0 ndets) 0 skip psi.

End MultiDeterminant.

(** ** [tools/reblock.py]: the command line of the analysis script

    [argparse] and [glob] are libraries: the parser is a function from the
    arguments to a namespace (attribute names to values) or to the exit
    status with which [argparse] itself leaves, and [glob.glob] a function
    from a pattern to file names.  The analysis, plotting and printing
    routines are collaborators, recorded as events.  [analysis.extraction]
    is taken to be loaded with [analysis.blocking]. *)

Module Reblock.

Inductive value : Type :=
| VNone
| VBool (b : bool)
| VInt (n : Z)
| VList (l : list string).

(** Truth value of an object in a condition. *)
Definition truthy (v : value) : bool :=
  match v with
  | VNone => false
  | VBool b => b
  | VInt n => negb (n =? 0)
  | VList [] => false
  | VList (_ :: _) => true
  end.

Inductive exn : Type :=
| AttributeError
| UnboundLocalError
| TypeError
| IndexError
| SystemExit (code : Z).

Inductive event : Type :=
| PrintHelp
| Glob (pattern : string)
| AnalyseEstimates (files : list string) (start_time loops : value)
| Subplots
| AverageTau (filenames : value)
| PrintTail
| PrintData
| ExtractDataSets (filenames : value)
| PrintMetadata
| RunBlockingAnalysis (filenames start_iteration : value)
| PrintReblock
| PrintSummary.

Class Env : Type := mkEnv {
  (** [parser.parse_args(args)] for the parser built at lines 38-55. *)
  argparse : list string -> gmap string value + Z;
  (** [glob.glob(pattern)]. *)
  glob : string -> list string
}.

(** A run: the calls made so far, and a value or the exception raised. *)
Definition run (A : Type) : Type := list event -> list event * (A + exn).

Definition ret {A} (a : A) : run A := fun t => (t, inl a).
Definition raise {A} (e : exn) : run A := fun t => (t, inr e).
Definition bind {A B} (m : run A) (k : A -> run B) : run B :=
  fun t => match m t with
           | (t', inl a) => k a t'
           | (t', inr e) => (t', inr e)
           end.
Definition emit (ev : event) : run unit := fun t => (t ++ [ev], inl tt).

#[global] Instance run_ret : MRet run := fun A a => ret a.
#[global] Instance run_bind : MBind run := fun A B k m => bind m k.

(** [options.name]. *)
Definition getattr (options : gmap string value) (name : string) : run value :=
  match options !! name with
  | Some v => mret v
  | None => raise AttributeError
  end.

(** [options.filenames[0]], with the whole list. *)
Definition first_filename (v : value) : run (string * list string) :=
  match v with
  | VList (f :: l) => mret (f, f :: l)
  | VList [] => raise IndexError
  | _ => raise TypeError
  end.

(** ['*' in name]. *)
Definition has_star (name : string) : bool :=
  match String.index 0 "*" name with Some _ => true | None => false end.

Section Model.
Context `{Env}.

(** Lines 18-65. *)
Definition parse_args (args : list string) : run (gmap string value) :=
  match argparse args with
  | inr code => raise (SystemExit code)
  | inl options =>
      fs ← getattr options "filenames";
      if negb (truthy fs)
      then emit PrintHelp;; raise (SystemExit 1)
      else mret options
  end.

(** Lines 68-114. The local [data] is bound in the [loops] branch only. *)
Definition main (args : list string) : run unit :=
  options ← parse_args args;
  estimates ← getattr options "estimates";
  if truthy estimates then
    fs ← getattr options "filenames";
    '(f, l) ← first_filename fs;
    files ← (if has_star f then emit (Glob f);; mret (glob f) else mret l);
    start ← getattr options "start_time";
    loops ← getattr options "loops";
    emit (AnalyseEstimates files start loops);;
    plot ← getattr options "plot";
    if truthy plot then emit Subplots;; raise UnboundLocalError else mret tt
  else
    loops ← getattr options "loops";
    if truthy loops then
      fs ← getattr options "filenames";
      emit (AverageTau fs);;
      tail ← getattr options "tail";
      if truthy tail then emit PrintTail else emit PrintData
    else
      input ← getattr options "input";
      if truthy input then
        fs ← getattr options "filenames";
        emit (ExtractDataSets fs);;
        emit PrintMetadata
      else
        fs ← getattr options "filenames";
        start ← getattr options "start_iteration";
        emit (RunBlockingAnalysis fs start);;
        verbose ← getattr options "verbose";
        if truthy verbose then emit PrintReblock else emit PrintSummary.

(** The namespaces of this parser: one attribute per [dest], the flags
    booleans, [start_time] an integer or [None], [filenames] a non-empty
    list ([nargs='+']) or [None]. *)
Definition dests : list string :=
  ["start_time"; "verbose"; "loops"; "tail"; "input"; "estimates"; "plot"; "filenames"]%string.

Definition is_flag (v : value) : Prop := exists b, v = VBool b.

Definition from_parser (options : gmap string value) : Prop :=
  (forall name, is_Some (options !! name) <-> In name dests) /\
  (forall name v, In name ["verbose"; "loops"; "tail"; "input"; "estimates"; "plot"]%string ->
                  options !! name = Some v -> is_flag v) /\
  (forall v, options !! "start_time"%string = Some v -> v = VNone \/ exists n, v = VInt n) /\
  (forall v, options !! "filenames"%string = Some v ->
             v = VNone \/ exists f l, v = VList (f :: l)).

End Model.
End Reblock.

(** ** Concrete environments and inputs, used to run the model *)

Module Examples.

(** A population of determinants without content, a propagator and a
    population control that do nothing, a reorthogonalisation with
    [detR = 2], and a mixed estimate of the energy that is always [2]. *)
Definition afqmcpy_env : Afqmcpy.Env :=
  Afqmcpy.mkEnv unit unit unit
    (fun w wd => (w, wd))
    (fun w => (mkC 2 0, w))
    (fun _ => mkC 1 0)
    (fun _ wd => (tt, wd))
    (fun _ => mkC 2 0)
    (fun l _ h wd => (l, h, wd))
    (fun _ wd => wd).

Definition pauxy_env : Pauxy.Env :=
  Pauxy.mkEnv unit unit
    (fun w wd => (w, wd))
    (fun _ => mkC 1 0)
    (fun _ l => l)
    (fun _ => mkC 2 0)
    (fun l wd => (l, wd))
    (fun _ wd => wd).

(** A walker of weight [x]. *)
Definition walker (x : R) : Walker unit := mkWalker (mkC x 0) true tt.

(** Two walkers, one above and one below the threshold. *)
Definition population : list (Walker unit) := [walker 1; walker 1e-9].

(** [AFQMC.run]: ten steps, every cadence 5, ten steps of equilibration. *)
Definition afqmc : Pauxy.AFQMC :=
  Pauxy.mkAFQMC (Pauxy.mkQMCOpts 10 0.01 5 5 5 10 5) false true.

(** [AFQMC.run]: four steps, all of them within the equilibration. *)
Definition afqmc_short : Pauxy.AFQMC :=
  Pauxy.mkAFQMC (Pauxy.mkQMCOpts 4 0.01 5 5 5 10 5) false true.

Definition pauxy_store : @Pauxy.store pauxy_env :=
  @Pauxy.mkStore pauxy_env population (mkC 1 0) None tt [] [].

(** [do_qmc] without back-propagation and ITCF, [nsteps = 3]. *)
Definition state_plain : Afqmcpy.State :=
  Afqmcpy.mkState 3 0.01 5 5 10 5 2 4 false false 2 false false true.

(** [do_qmc] with back-propagation of depth 2 on blocks of 4, no ITCF. *)
Definition state_bp_4_2 : Afqmcpy.State :=
  Afqmcpy.mkState 10 0.01 5 5 10 5 2 4 false true 2 false false true.

(** [do_qmc] with ITCF on blocks of 4 and no back-propagation. *)
Definition state_itcf_only : Afqmcpy.State :=
  Afqmcpy.mkState 10 0.01 5 5 10 5 2 4 true false 2 false true true.

(** The store of [do_qmc] on entry. *)
Definition afqmcpy_store : @Afqmcpy.store afqmcpy_env :=
  @Afqmcpy.entry afqmcpy_env population tt.

(** An SCF environment whose energies are all [0]. *)
Definition uhf_env : TrialWavefunction.Env :=
  TrialWavefunction.mkEnv unit unit unit unit unit
    (fun _ _ g => (tt, 0%R, g))
    (fun _ _ => tt)
    (fun _ _ => tt)
    (fun _ _ _ _ t => (tt, tt, tt, tt, t))
    (fun _ _ _ => 0%R)
    (fun _ _ => 0%R)
    (fun _ _ _ => tt)
    (fun _ _ => tt).

(** Options of the UHF search that ask for [deps = 0]. *)
Definition uhf_opts_deps0 : TrialWavefunction.TrialOpts :=
  TrialWavefunction.mkTrialOpts None None None (Some 0%R) None.

(** Options of the UHF search that ask for one attempt of one iteration. *)
Definition uhf_opts_one : TrialWavefunction.TrialOpts :=
  TrialWavefunction.mkTrialOpts (Some 1) (Some 1) None None None.

Definition uhf_store : @TrialWavefunction.store uhf_env :=
  @TrialWavefunction.mkStore uhf_env 4%R tt [].

(** A command line of [reblock.py]: the switches [-e] and [-p], and
    every other word a file name; two files match any pattern. *)
Definition reblock_namespace (estimates plot : bool) (filenames : Reblock.value)
  : gmap string Reblock.value :=
  <["start_time" := Reblock.VNone]>
  (<["verbose" := Reblock.VBool false]>
  (<["loops" := Reblock.VBool false]>
  (<["tail" := Reblock.VBool false]>
  (<["input" := Reblock.VBool false]>
  (<["estimates" := Reblock.VBool estimates]>
  (<["plot" := Reblock.VBool plot]>
  (<["filenames" := filenames]> ∅))))))).

Definition reblock_files (args : list string) : list string :=
  List.filter (fun a => negb (String.prefix "-" a)) args.

Definition reblock_env : Reblock.Env :=
  Reblock.mkEnv
    (fun args =>
       inl (reblock_namespace (existsb (String.eqb "-e") args) (existsb (String.eqb "-p") args)
              (match reblock_files args with
               | [] => Reblock.VNone
               | f :: l => Reblock.VList (f :: l)
               end)))
    (fun _ => ["a.h5"; "b.h5"]%string).

End Examples.

(** * Properties *)

(** ** The monad and the Python prelude *)

Section MonadFacts.
Context {S : Type}.

Lemma bind_Return {A B} (m : M S A) (k : A -> M S B) s b s' :
  (m ≫= k) s = Return b s' ->
  exists a s1, m s = Return a s1 /\ k a s1 = Return b s'.
Proof.
  unfold mbind, M_bind, Py.bind. destruct (m s) as [a s1|e s1]; [eauto | discriminate].
Qed.

Lemma bind_eq {A B} (m : M S A) (k : A -> M S B) s a s1 :
  m s = Return a s1 -> (m ≫= k) s = k a s1.
Proof. intros E. unfold mbind, M_bind, Py.bind. now rewrite E. Qed.

Lemma bind_raise {A B} (m : M S A) (k : A -> M S B) s e s1 :
  m s = Raise e s1 -> (m ≫= k) s = Raise e s1.
Proof. intros E. unfold mbind, M_bind, Py.bind. now rewrite E. Qed.

Lemma bind_modify {B} (f : S -> S) (k : unit -> M S B) s :
  (Py.modify f ≫= k) s = k tt (f s).
Proof. reflexivity. Qed.

Lemma bind_gets {A B} (f : S -> A) (k : A -> M S B) s :
  (Py.gets f ≫= k) s = k (f s) s.
Proof. reflexivity. Qed.

Lemma bind_get {B} (k : S -> M S B) s : (Py.get ≫= k) s = k s s.
Proof. reflexivity. Qed.

Lemma bind_mret {A B} (a : A) (k : A -> M S B) s : (mret a ≫= k) s = k a s.
Proof. reflexivity. Qed.

Lemma bind_py_mod {B} (a b : Z) (k : Z -> M S B) s :
  b <> 0 -> (py_mod a b ≫= k) s = k (a mod b) s.
Proof.
  intros Hb. unfold mbind, M_bind, Py.bind, py_mod.
  destruct (Z.eqb_spec b 0); [contradiction|reflexivity].
Qed.

Lemma bind_when_true {B} (m : M S unit) (k : unit -> M S B) s :
  (when true m ≫= k) s = (m ≫= k) s.
Proof. reflexivity. Qed.

Lemma bind_when_false {B} (m : M S unit) (k : unit -> M S B) s :
  (when false m ≫= k) s = k tt s.
Proof. reflexivity. Qed.

Lemma bind_assoc {A B D} (m : M S A) (k : A -> M S B) (h : B -> M S D) s :
  ((m ≫= k) ≫= h) s = (m ≫= (fun a => k a ≫= h)) s.
Proof. unfold mbind, M_bind, Py.bind. now destruct (m s). Qed.

Lemma py_mod_Return (a b r : Z) (s s' : S) :
  py_mod a b s = Return r s' -> b <> 0 /\ r = a mod b /\ s' = s.
Proof.
  unfold py_mod. destruct (Z.eqb_spec b 0); [discriminate|].
  unfold Py.ret. intros [= <- <-]. auto.
Qed.

Lemma py_index_Return (len : nat) (i : Z) (k : nat) (s s' : S) :
  py_index len i s = Return k s' ->
  s' = s /\ (k < len)%nat /\
  ((0 <= i /\ k = Z.to_nat i) \/ (i < 0 /\ k = Z.to_nat (i + Z.of_nat len))).
Proof.
  unfold py_index.
  destruct (Z.leb_spec 0 i), (Z.ltb_spec i (Z.of_nat len)); cbn [andb].
  all: try (unfold Py.ret; intros [= <- <-]; split; [reflexivity|split; [lia|left; lia]]).
  all: destruct (Z.leb_spec (- Z.of_nat len) i), (Z.ltb_spec i 0); cbn [andb].
  all: try (unfold Py.ret; intros [= <- <-]; split; [reflexivity|split; [lia|right; lia]]).
  all: try discriminate.
  all: lia.
Qed.

Lemma py_index_nonneg (len : nat) (i : Z) (s : S) :
  0 <= i < Z.of_nat len -> py_index len i s = Return (Z.to_nat i) s.
Proof.
  intros Hi. unfold py_index.
  destruct (Z.leb_spec 0 i), (Z.ltb_spec i (Z.of_nat len)); try lia. reflexivity.
Qed.

End MonadFacts.

Lemma py_range_length lo hi : length (py_range lo hi) = Z.to_nat (hi - lo).
Proof. unfold py_range. now rewrite length_map, length_seq. Qed.

Lemma py_range_In lo hi k : In k (py_range lo hi) <-> lo <= k < hi.
Proof.
  unfold py_range. rewrite in_map_iff. split.
  - intros (n & <- & Hn). apply in_seq in Hn. lia.
  - intros Hk. exists (Z.to_nat (k - lo)). split; [lia|]. apply in_seq. lia.
Qed.

Lemma py_range_from_1 n : py_range 1 (n + 1) = map Z.of_nat (seq 1 (Z.to_nat n)).
Proof.
  unfold py_range. replace (n + 1 - 1) with n by lia.
  rewrite <- seq_shift, map_map. apply map_ext. intros k. lia.
Qed.

(** A slice whose bounds lie inside the sequence selects the positions
    from [lo] to [hi - 1]. *)
Lemma py_slice_inner (len : nat) lo hi :
  0 <= lo <= hi -> hi <= Z.of_nat len ->
  py_slice len lo hi = seq (Z.to_nat lo) (Z.to_nat (hi - lo)).
Proof.
  intros Hlo Hhi. unfold py_slice, slice_bound.
  destruct (Z.ltb_spec lo 0), (Z.ltb_spec hi 0); try lia.
  now rewrite !Z.min_l by lia.
Qed.

(** ** Weights and the threshold *)

Lemma Cabs_of_real x : Cabs (mkC x 0) = Rabs x.
Proof.
  unfold Cabs. cbn. replace (x * x + 0 * 0)%R with (Rsqr x) by (unfold Rsqr; ring).
  apply sqrt_Rsqr_abs.
Qed.

Lemma above_threshold_true z : above_threshold z = true <-> (Cabs z > 1e-8)%R.
Proof. unfold above_threshold. destruct (Rgt_dec (Cabs z) 1e-8); split; auto; discriminate. Qed.

Lemma above_threshold_false z : above_threshold z = false <-> (Cabs z <= 1e-8)%R.
Proof.
  unfold above_threshold. destruct (Rgt_dec (Cabs z) 1e-8); split; auto; try discriminate; lra.
Qed.

(** Inversion of a computation that returned, one construct at a time. *)
Ltac minv_step :=
  match goal with
  | H : (_ ≫= _) _ = Return _ _ |- _ =>
      let a := fresh "a" in let s := fresh "s" in let H1 := fresh "H" in
      apply bind_Return in H as (a & s & H1 & H)
  | H : py_mod _ _ _ = Return _ _ |- _ =>
      let Hn := fresh "Hnz" in let Hr := fresh "Hr" in let Hs := fresh "Hs" in
      apply py_mod_Return in H as (Hn & Hr & Hs); subst
  | H : when ?b _ _ = Return _ _ |- _ => unfold when in H; destruct b eqn:?
  | H : Py.modify _ _ = Return _ _ |- _ => unfold Py.modify in H; injection H as H; subst
  | H : Py.gets _ _ = Return _ _ |- _ => unfold Py.gets in H; injection H as H; subst
  | H : Py.get _ = Return _ _ |- _ => unfold Py.get in H; injection H as H; subst
  | H : Py.ret _ _ = Return _ _ |- _ => unfold Py.ret in H; injection H as H; subst
  | H : mret _ _ = Return _ _ |- _ => unfold mret, M_ret, Py.ret in H; injection H as H; subst
  | H : Return _ _ = Return _ _ |- _ => injection H as H; subst
  | H : Raise _ _ = Return _ _ |- _ => discriminate H
  | H : Py.raise _ _ = Return _ _ |- _ => discriminate H
  end.

(** ** Facts about [AFQMC.run] *)

Module PauxyFacts.
Import Pauxy.

Section Facts.
Context `{Env}.

(** A walker that fails the guard is not propagated: only its weight
    changes, by the constant factor. *)
Lemma walker_body_skip (self : AFQMC) i (w : Walker Phi) s :
  guard w = false ->
  walker_body self i w s =
  Return (set_weight w (Cscale (weight w) (exp (dt (qmc self) * re (E_T s))))) s.
Proof.
  intros Hg. unfold walker_body, guard in *.
  unfold mbind, M_bind, Py.bind, Py.gets. now rewrite Hg.
Qed.

(** A walker that passes the guard is propagated, then reweighted. *)
Lemma walker_body_propagate (self : AFQMC) i (w : Walker Phi) s :
  guard w = true ->
  walker_body self i w s =
  Return (set_weight (propagate_walker w (world s)).1
            (Cscale (weight (propagate_walker w (world s)).1)
                    (exp (dt (qmc self) * re (E_T s)))))
         (log (Propagate i) (set_world (propagate_walker w (world s)).2 s)).
Proof.
  intros Hg. unfold walker_body, guard in *.
  unfold mbind, M_bind, Py.bind, Py.gets. rewrite Hg.
  unfold call_propagate_walker. now destruct (propagate_walker w (world s)).
Qed.

Lemma run_walker_body_total (self : AFQMC) i (w : Walker Phi) s :
  exists w' s', walker_body self i w s = Return w' s' /\
    same_frame s s' /\ walkers s' = walkers s /\
    trace s' = trace s ++ (if guard w then [Propagate i] else []).
Proof.
  destruct (guard w) eqn:Hg.
  - rewrite walker_body_propagate by assumption. do 2 eexists. split; [reflexivity|].
    unfold same_frame. cbn. auto.
  - rewrite walker_body_skip by assumption. do 2 eexists. split; [reflexivity|].
    unfold same_frame. cbn. rewrite app_nil_r. auto.
Qed.

Lemma run_for_walkers_total (self : AFQMC) (l : list (Walker Phi)) : forall i s,
  exists l' s', for_walkers (walker_body self) i l s = Return l' s' /\
    same_frame s s' /\ walkers s' = walkers s /\ length l' = length l /\
    trace s' = trace s ++ propagations i l.
Proof.
  induction l as [|w l IH]; intros i s.
  - exists [], s. cbn. rewrite app_nil_r. unfold same_frame. auto.
  - destruct (run_walker_body_total self i w s) as (w' & s1 & E1 & (F1 & F2 & F3) & W1 & T1).
    destruct (IH (Datatypes.S i) s1) as (l' & s2 & E2 & (G1 & G2 & G3) & W2 & L2 & T2).
    exists (w' :: l'), s2. split.
    + cbn [for_walkers]. rewrite (bind_eq _ _ _ _ _ E1), (bind_eq _ _ _ _ _ E2). reflexivity.
    + unfold same_frame. cbn [propagations length].
      rewrite T2, T1, <- app_assoc. repeat split; congruence.
Qed.

Lemma propagations_In (l : list (Walker Phi)) : forall i k,
  In (Propagate k) (propagations i l) <->
  exists w, (i <= k)%nat /\ l !! (k - i)%nat = Some w /\ guard w = true.
Proof.
  induction l as [|w l IH]; intros i k; cbn [propagations].
  - split; [intros []|]. intros (w & _ & E & _). discriminate.
  - rewrite in_app_iff, IH. split.
    + intros [Hin|(w' & Hle & E & Hg)].
      * destruct (guard w) eqn:Hg; [|destruct Hin].
        destruct Hin as [[= ->]|[]]. exists w. rewrite Nat.sub_diag. auto.
      * exists w'. split; [lia|]. split; [|assumption].
        replace (k - i)%nat with (Datatypes.S (k - Datatypes.S i)) by lia. assumption.
    + intros (w' & Hle & E & Hg).
      destruct (Nat.eq_dec k i) as [->|Hne].
      * rewrite Nat.sub_diag in E. cbn in E. injection E as ->. rewrite Hg. left. now left.
      * right. exists w'. split; [lia|]. split; [|assumption].
        replace (k - i)%nat with (Datatypes.S (k - Datatypes.S i)) in E by lia. assumption.
Qed.

Lemma run_walkers_phase_total (self : AFQMC) s :
  exists s', walkers_phase self s = Return tt s' /\
    same_frame s s' /\ length (walkers s') = length (walkers s) /\
    trace s' = trace s ++ propagations 0 (walkers s).
Proof.
  destruct (run_for_walkers_total self (walkers s) 0%nat s) as (l' & s1 & E & (F1 & F2 & F3) & W & L & T).
  exists (set_walkers l' s1). split.
  - unfold walkers_phase. unfold Py.gets at 1.
    unfold mbind at 1, M_bind at 1, Py.bind at 1.
    rewrite (bind_eq _ _ _ _ _ E). reflexivity.
  - unfold same_frame. cbn. auto.
Qed.

Ltac minv := repeat (minv_step || match goal with
  | H : call _ _ = Return _ _ |- _ => unfold call in H
  end).

(** A step that returns: its four cadences are not zero, it has entered
    its body once, and after the pass over the walkers it has made
    exactly the calls [step_calls]. *)
Lemma run_step_Return (self : AFQMC) step s s' :
  run_step self step s = Return tt s' ->
  (nstblz (qmc self) <> 0 /\ nupdate_shift (qmc self) <> 0 /\
   nmeasure (qmc self) <> 0 /\ npop_control (qmc self) <> 0) /\
  steps s' = steps s ++ [step] /\
  (step mod nupdate_shift (qmc self) <> 0 -> E_T s' = E_T s) /\
  mean_local_energy s' = (if step <? nequilibrate (qmc self)
                          then Some (E_T s') else mean_local_energy s) /\
  trace s' = trace s ++ propagations 0 (walkers s) ++ step_calls self step (E_T s').
Proof.
  intros Hrun. unfold run_step in Hrun.
  apply bind_Return in Hrun as ([] & s0 & H0 & Hrun).
  unfold Py.modify in H0. injection H0 as <-.
  apply bind_Return in Hrun as ([] & s1 & H1 & Hrun).
  destruct (run_walkers_phase_total self (enter_step step s)) as (s1' & E1 & (F1 & F2 & F3) & _ & T).
  rewrite E1 in H1. injection H1 as ->.
  cbn in F1, F2, F3, T. unfold step_calls.
  minv.
  all: repeat split; try assumption; cbn.
  all: repeat match goal with
         | |- context [pop_control ?a ?b] => destruct (pop_control a b)
         end; cbn.
  all: try rewrite F1; try rewrite F2; try rewrite F3; try rewrite T; try reflexivity.
  all: try (intros Hz; apply Z.eqb_eq in Heqb2; contradiction).
  all: rewrite <- ?app_assoc; cbn; reflexivity.
Qed.

(** A step whose four cadences are not zero returns. *)
Lemma run_step_total (self : AFQMC) step s :
  nstblz (qmc self) <> 0 -> nupdate_shift (qmc self) <> 0 ->
  nmeasure (qmc self) <> 0 -> npop_control (qmc self) <> 0 ->
  exists s', run_step self step s = Return tt s'.
Proof.
  intros N1 N2 N3 N4. unfold run_step. rewrite bind_modify.
  destruct (run_walkers_phase_total self (enter_step step s)) as (s1 & E1 & _).
  rewrite (bind_eq _ _ _ _ _ E1).
  unfold call. rewrite bind_modify.
  rewrite bind_py_mod by assumption.
  destruct (step mod nstblz (qmc self) =? 0);
    rewrite ?bind_when_true, ?bind_when_false, ?bind_modify.
  all: rewrite bind_py_mod by assumption.
  all: destruct (step mod nupdate_shift (qmc self) =? 0);
    rewrite ?bind_when_true, ?bind_when_false, ?bind_modify.
  all: rewrite bind_py_mod by assumption.
  all: destruct (step mod nmeasure (qmc self) =? 0);
    rewrite ?bind_when_true, ?bind_when_false, ?bind_modify.
  all: destruct (step <? nequilibrate (qmc self));
    rewrite ?bind_when_true, ?bind_when_false, ?bind_modify.
  all: rewrite bind_py_mod by assumption.
  all: destruct (step mod npop_control (qmc self) =? 0); unfold when.
  all: eexists; reflexivity.
Qed.

Lemma for_each_run_step (self : AFQMC) (l : list Z) : forall s s',
  for_each l (run_step self) s = Return tt s' -> steps s' = steps s ++ l.
Proof.
  induction l as [|k l IH]; intros s s' Hrun; cbn [for_each] in Hrun.
  - injection Hrun as <-. now rewrite app_nil_r.
  - change (Py.bind ?m ?k) with (m ≫= k) in Hrun.
    apply bind_Return in Hrun as ([] & s1 & H1 & Hrun).
    apply run_step_Return in H1 as (_ & St & _).
    rewrite (IH _ _ Hrun), St, <- app_assoc. reflexivity.
Qed.

Lemma for_each_run_step_total (self : AFQMC) (l : list Z) :
  nstblz (qmc self) <> 0 -> nupdate_shift (qmc self) <> 0 ->
  nmeasure (qmc self) <> 0 -> npop_control (qmc self) <> 0 ->
  forall s, exists s', for_each l (run_step self) s = Return tt s'.
Proof.
  intros N1 N2 N3 N4. induction l as [|k l IH]; intros s; cbn [for_each].
  - now exists s.
  - destruct (run_step_total self k s N1 N2 N3 N4) as (s1 & E1).
    destruct (IH s1) as (s' & E'). exists s'.
    change (Py.bind ?m ?k) with (m ≫= k). now rewrite (bind_eq _ _ _ _ _ E1).
Qed.

(** The steps whose body [run] enters are those of
    [range(1, nsteps + 1)], in order. *)
Lemma run_Return (self : AFQMC) psi verbose s s' :
  run self psi verbose s = Return tt s' ->
  steps s' = steps s ++ py_range 1 (nsteps (qmc self) + 1).
Proof.
  intros Hrun. unfold run in Hrun.
  apply bind_Return in Hrun as ([] & s0 & H0 & Hrun).
  assert (steps s0 = steps s) as <-.
  { destruct psi; [unfold Py.modify in H0|unfold mret, M_ret, Py.ret in H0];
      injection H0 as <-; reflexivity. }
  rewrite bind_gets in Hrun. destruct (walkers s0) as [|w0 l]; [discriminate|].
  rewrite bind_modify in Hrun. unfold call in Hrun. rewrite bind_modify in Hrun.
  destruct (verbose && root self);
    rewrite ?bind_when_true, ?bind_when_false, ?bind_modify in Hrun.
  all: apply for_each_run_step in Hrun; exact Hrun.
Qed.

(** [run] returns as soon as there is a walker and no cadence is zero. *)
Lemma run_total (self : AFQMC) psi verbose s :
  default (walkers s) psi <> [] ->
  nstblz (qmc self) <> 0 -> nupdate_shift (qmc self) <> 0 ->
  nmeasure (qmc self) <> 0 -> npop_control (qmc self) <> 0 ->
  exists s', run self psi verbose s = Return tt s'.
Proof.
  intros Hne N1 N2 N3 N4. unfold run.
  assert (exists s0, (match psi with
                      | Some l => Py.modify (set_walkers l)
                      | None => mret tt
                      end : M store unit) s = Return tt s0 /\
                     walkers s0 = default (walkers s) psi) as (s0 & E0 & W0).
  { destruct psi; eexists; split; reflexivity. }
  rewrite (bind_eq _ _ _ _ _ E0), bind_gets. rewrite W0.
  destruct (default (walkers s) psi) as [|w0 l]; [contradiction|].
  rewrite bind_modify. unfold call. rewrite bind_modify.
  destruct (verbose && root self); rewrite ?bind_when_true, ?bind_when_false, ?bind_modify.
  all: apply for_each_run_step_total; assumption.
Qed.

End Facts.
End PauxyFacts.

(** ** Facts about [do_qmc] *)

Module AfqmcpyFacts.
Import Afqmcpy.

Section Facts.
Context `{Env}.

Lemma same_frame_refl s : same_frame s s.
Proof. unfold same_frame. auto 10. Qed.

Lemma same_frame_trans s1 s2 s3 : same_frame s1 s2 -> same_frame s2 s3 -> same_frame s1 s3.
Proof. unfold same_frame. intuition congruence. Qed.

(** The body of the walker loop, when it returns. *)
Lemma walker_body_Return (st : State) step i (w : Walker Phi) s w' s' :
  walker_body st step i w s = Return w' s' ->
  nstblz st <> 0 /\ same_frame s s' /\
  let w2 := reweighted st (E_T s) (propagated w (world s)) in
  w' = (if step mod nstblz st =? 0 then stabilised st w2 else w2) /\
  trace s' = trace s ++ (if above_threshold (weight w) then [Propagate i] else [])
                     ++ [EstimatorsUpdate i w2]
                     ++ (if step mod nstblz st =? 0 then [Reortho i] else []).
Proof.
  unfold walker_body, propagated, reweighted, stabilised. intros Hrun.
  rewrite bind_gets in Hrun.
  apply bind_Return in Hrun as (w1 & s1 & H1 & Hrun).
  assert (w1 = (if above_threshold (weight w) then (propagate_walker w (world s)).1 else w)
          /\ same_frame s s1
          /\ trace s1 = trace s ++ (if above_threshold (weight w) then [Propagate i] else []))
    as (-> & F1 & T1).
  { destruct (above_threshold (weight w)).
    - unfold call_propagate_walker in H1. destruct (propagate_walker w (world s)) as [w0 wd].
      injection H1 as <- <-. cbn. unfold same_frame. auto 10.
    - injection H1 as <- <-. rewrite app_nil_r. auto using same_frame_refl. }
  assert (E_T s1 = E_T s) as EE by apply F1.
  unfold call in Hrun. rewrite bind_modify in Hrun.
  apply bind_Return in Hrun as (r & s2 & H2 & Hrun).
  apply py_mod_Return in H2 as (Hnz & -> & ->).
  split; [assumption|].
  destruct (step mod nstblz st =? 0).
  - unfold call_reortho, mbind, M_bind, Py.bind in Hrun.
    destruct (reortho _) as [detR w3].
    split; [|split].
    + destruct (negb (importance_sampling st)); injection Hrun as <- <-;
        unfold same_frame in *; cbn; intuition congruence.
    + destruct (negb (importance_sampling st)); injection Hrun as <- <-; reflexivity.
    + destruct (negb (importance_sampling st)); injection Hrun as <- <-; cbn;
        rewrite T1, <- !app_assoc; reflexivity.
  - injection Hrun as <- <-. split; [|split].
    + unfold same_frame in *; cbn; intuition congruence.
    + reflexivity.
    + cbn. rewrite T1, <- !app_assoc. reflexivity.
Qed.

Lemma walker_body_total (st : State) step i (w : Walker Phi) s :
  nstblz st <> 0 -> exists w' s', walker_body st step i w s = Return w' s'.
Proof.
  intros Hnz. unfold walker_body. rewrite bind_gets.
  assert (exists w1 s1, (if above_threshold (weight w)
                         then call_propagate_walker i w else mret w) s = Return w1 s1)
    as (w1 & s1 & E1).
  { destruct (above_threshold (weight w)).
    - unfold call_propagate_walker. destruct (propagate_walker w (world s)). eauto.
    - eexists _, _. reflexivity. }
  rewrite (bind_eq _ _ _ _ _ E1). unfold call. rewrite bind_modify.
  rewrite bind_py_mod by assumption.
  destruct (step mod nstblz st =? 0); [|eexists _, _; reflexivity].
  unfold call_reortho, mbind, M_bind, Py.bind.
  destruct (reortho _). destruct (negb (importance_sampling st)); eexists _, _; reflexivity.
Qed.

(** The pass over the walkers at positions [i, i+1, ...], when it returns:
    which events it adds, and what each walker has become. *)
Lemma for_walkers_Return (st : State) step (l : list (Walker Phi)) :
  forall i s l' s',
  for_walkers (walker_body st step) i l s = Return l' s' ->
  same_frame s s' /\ length l' = length l /\
  exists evs, trace s' = trace s ++ evs /\
    Forall (fun ev => walker_event ev = true) evs /\
    (forall k, In (Propagate k) evs <->
               exists w, (i <= k)%nat /\ l !! (k - i)%nat = Some w /\
                         above_threshold (weight w) = true) /\
    (forall k, In (Reortho k) evs <->
               (i <= k < i + length l)%nat /\ step mod nstblz st = 0) /\
    (forall k w', l' !! k = Some w' ->
       exists w2, In (EstimatorsUpdate (i + k) w2) evs /\
                  w' = if step mod nstblz st =? 0 then stabilised st w2 else w2).
Proof.
  induction l as [|w l IH]; intros i s l' s' Hrun; cbn [for_walkers] in Hrun.
  - injection Hrun as <- <-. split; [apply same_frame_refl|]. split; [reflexivity|].
    exists []. rewrite app_nil_r. split; [reflexivity|]. split; [constructor|].
    cbn. split; [|split].
    + intros k. split; [intros []|]. intros (w & _ & E & _). discriminate.
    + intros k. split; [intros []|]. intros [? _]. lia.
    + intros k w' E. discriminate.
  - apply bind_Return in Hrun as (w1 & s1 & H1 & Hrun).
    apply bind_Return in Hrun as (l1 & s2 & H2 & Hrun).
    injection Hrun as <- <-.
    apply walker_body_Return in H1 as (Hnz & F1 & Hw & T1). cbn zeta in Hw, T1.
    apply IH in H2 as (F2 & L2 & evs2 & T2 & A2 & P2 & R2 & W2).
    split; [eapply same_frame_trans; eassumption|].
    split; [cbn; congruence|].
    eexists. split; [rewrite T2, T1, <- app_assoc; reflexivity|].
    split; [|split; [|split]].
    + rewrite !Forall_app. repeat split; try assumption.
      * destruct (above_threshold (weight w)); repeat constructor.
      * repeat constructor.
      * destruct (step mod nstblz st =? 0); repeat constructor.
    + intros k. rewrite !in_app_iff, P2. split.
      * intros [[Hin|[Hin|Hin]]|(w0 & Hle & E & Hg)].
        -- destruct (above_threshold (weight w)) eqn:Hg; [|destruct Hin].
           destruct Hin as [[= ->]|[]]. exists w. rewrite Nat.sub_diag. auto.
        -- destruct Hin as [Hin|[]]. discriminate.
        -- destruct (step mod nstblz st =? 0); [destruct Hin as [Hin|[]]; discriminate|destruct Hin].
        -- exists w0. split; [lia|]. split; [|assumption].
           replace (k - i)%nat with (Datatypes.S (k - Datatypes.S i)) by lia. assumption.
      * intros (w0 & Hle & E & Hg). destruct (Nat.eq_dec k i) as [->|Hne].
        -- rewrite Nat.sub_diag in E. injection E as ->. rewrite Hg. left. left. now left.
        -- right. exists w0. split; [lia|]. split; [|assumption].
           replace (k - i)%nat with (Datatypes.S (k - Datatypes.S i)) in E by lia. assumption.
    + intros k. rewrite !in_app_iff, R2. cbn [length]. split.
      * intros [[Hin|[Hin|Hin]]|[Hr Hz]].
        -- destruct (above_threshold (weight w)); [destruct Hin as [Hin|[]]; discriminate|destruct Hin].
        -- destruct Hin as [Hin|[]]. discriminate.
        -- destruct (Z.eqb_spec (step mod nstblz st) 0); [|destruct Hin].
           destruct Hin as [[= ->]|[]]. split; [lia|assumption].
        -- split; [lia|assumption].
      * intros [Hr Hz]. destruct (Nat.eq_dec k i) as [->|Hne].
        -- left. right. right. rewrite Hz. now left.
        -- right. split; [lia|assumption].
    + intros k w' Hk. destruct k as [|k]; cbn in Hk.
      * injection Hk as <-. eexists. split; [|exact Hw].
        rewrite Nat.add_0_r, !in_app_iff. left. right. left. now left.
      * apply W2 in Hk as (w2 & Hin & Hw'). exists w2. split; [|assumption].
        rewrite in_app_iff. right. now replace (i + Datatypes.S k)%nat with (Datatypes.S i + k)%nat by lia.
Qed.

Lemma for_walkers_total (st : State) step (l : list (Walker Phi)) :
  nstblz st <> 0 ->
  forall i s, exists l' s', for_walkers (walker_body st step) i l s = Return l' s'.
Proof.
  intros Hnz. induction l as [|w l IH]; intros i s; cbn [for_walkers].
  - eexists _, _. reflexivity.
  - destruct (walker_body_total st step i w s Hnz) as (w' & s1 & E1).
    destruct (IH (Datatypes.S i) s1) as (l' & s2 & E2).
    rewrite (bind_eq _ _ _ _ _ E1), (bind_eq _ _ _ _ _ E2). eexists _, _. reflexivity.
Qed.

(** The walkers phase of a step. *)
Lemma walkers_phase_Return (st : State) step s s' :
  walkers_phase st step s = Return tt s' ->
  exists l' s1, for_walkers (walker_body st step) 0%nat (psi s) s = Return l' s1 /\
    s' = set_psi l' s1.
Proof.
  unfold walkers_phase. rewrite bind_gets. intros Hrun.
  apply bind_Return in Hrun as (l' & s1 & H1 & Hrun).
  injection Hrun as <-. eauto.
Qed.

Lemma walkers_phase_total (st : State) step s :
  nstblz st <> 0 \/ psi s = [] -> exists s', walkers_phase st step s = Return tt s'.
Proof.
  intros Hnz. unfold walkers_phase. rewrite bind_gets.
  assert (exists l' s1, for_walkers (walker_body st step) 0%nat (psi s) s = Return l' s1)
    as (l' & s1 & E1).
  { destruct Hnz as [Hnz| ->]; [now apply for_walkers_total|]. eexists _, _. reflexivity. }
  rewrite (bind_eq _ _ _ _ _ E1). eexists. reflexivity.
Qed.

Lemma same_locals_refl s : same_locals s s.
Proof. unfold same_locals. auto. Qed.

Lemma hist_write_Return slot s s' :
  hist_write slot s = Return tt s' ->
  exists h k, psi_hist s = Some h /\ (k < length h)%nat /\
    ((0 <= slot /\ k = Z.to_nat slot) \/ (slot < 0 /\ k = Z.to_nat (slot + Z.of_nat (length h)))) /\
    s' = log (HistWrite k (psi s)) (set_psi_hist (Some (<[k := psi s]> h)) s).
Proof.
  unfold hist_write. rewrite bind_get. destruct (psi_hist s) as [h|]; [|discriminate].
  intros Hrun. apply bind_Return in Hrun as (k & s1 & H1 & Hrun).
  apply py_index_Return in H1 as (-> & Hk & Hslot).
  injection Hrun as <-. eauto 10.
Qed.

(** Lines 53-79, when they return: back-propagation is off, or it is on
    and the path of lines 56-79 does not fire. *)
Lemma back_propagation_phase_Return (st : State) step s s' :
  back_propagation_phase st step s = Return tt s' ->
  nprop_tot st <> 0 /\ same_locals s s' /\ bp_fires st step = false /\
  (back_propagation st = false -> s' = s) /\
  exists k, trace s' = trace s ++ bp_events st (psi s) k.
Proof.
  unfold back_propagation_phase, bp_events, bp_fires. intros Hrun.
  apply bind_Return in Hrun as (r & s0 & H0 & Hrun).
  apply py_mod_Return in H0 as (Hnz & -> & ->). split; [assumption|].
  destruct (back_propagation st); unfold when in Hrun at 1; cbn [andb].
  2:{ injection Hrun as <-. split; [apply same_locals_refl|]. split; [reflexivity|].
      split; [reflexivity|]. exists 0%nat. now rewrite app_nil_r. }
  apply bind_Return in Hrun as ([] & s1 & H1 & Hrun).
  apply hist_write_Return in H1 as (h & k & Eh & Hk & Hslot & ->).
  apply bind_Return in Hrun as (r & s2 & H2 & Hrun).
  apply py_mod_Return in H2 as (Hnz' & -> & ->).
  destruct (step mod nback_prop st =? 0); unfold when in Hrun.
  - apply bind_Return in Hrun as ([] & s3 & _ & Hrun). discriminate.
  - injection Hrun as <-. split; [unfold same_locals; cbn; auto|].
    split; [reflexivity|]. split; [discriminate|]. exists k. reflexivity.
Qed.

(** Lines 80-86, when they return: the ITCF path does not fire. *)
Lemma itcf_phase_Return (st : State) step s s' :
  itcf_phase st step s = Return tt s' -> s' = s /\ itcf_fires st step = false.
Proof.
  unfold itcf_phase, itcf_fires. intros Hrun.
  apply bind_Return in Hrun as (fire & s0 & H0 & Hrun).
  assert (s0 = s /\ fire = calc_itcf st && (step mod nprop_tot st =? 0)) as (-> & ->).
  { destruct (calc_itcf st).
    - apply bind_Return in H0 as (r & s1 & H1 & H0).
      apply py_mod_Return in H1 as (_ & -> & ->). injection H0 as <- <-. auto.
    - injection H0 as <- <-. auto. }
  destruct (calc_itcf st && (step mod nprop_tot st =? 0)); unfold when in Hrun.
  - discriminate.
  - injection Hrun as <-. auto.
Qed.

(** Lines 87-91, when they return. *)
Lemma measure_phase_Return (st : State) step s s' :
  measure_phase st step s = Return tt s' ->
  nmeasure st <> 0 /\
  psi s' = psi s /\ mean_local_energy s' = mean_local_energy s /\ steps s' = steps s /\
  E_T s' = (if step mod nmeasure st =? 0 then eproj (world s) else E_T s) /\
  trace s' = trace s ++ measure_events st step (E_T s').
Proof.
  unfold measure_phase, measure_events. intros Hrun.
  apply bind_Return in Hrun as (r & s0 & H0 & Hrun).
  apply py_mod_Return in H0 as (Hnz & -> & ->). split; [assumption|].
  destruct (step mod nmeasure st =? 0); unfold when in Hrun.
  - rewrite bind_gets, bind_modify in Hrun. unfold call in Hrun. injection Hrun as <-.
    cbn. rewrite <- !app_assoc. auto 10.
  - injection Hrun as <-. rewrite app_nil_r. auto 10.
Qed.

(** Lines 92-94. *)
Lemma equilibration_phase_eq (st : State) step s :
  equilibration_phase st step s =
  Return tt (if step <? nequilibrate st then set_mean_local_energy (Some (E_T s)) s else s).
Proof. unfold equilibration_phase. now destruct (step <? nequilibrate st). Qed.

(** Lines 95-96, when they return. *)
Lemma pop_control_phase_Return (st : State) step s s' :
  pop_control_phase st step s = Return tt s' ->
  npop_control st <> 0 /\
  E_T s' = E_T s /\ mean_local_energy s' = mean_local_energy s /\ steps s' = steps s /\
  trace s' = trace s ++ pop_control_events st step.
Proof.
  unfold pop_control_phase, pop_control_events. intros Hrun.
  apply bind_Return in Hrun as (r & s0 & H0 & Hrun).
  apply py_mod_Return in H0 as (Hnz & -> & ->). split; [assumption|].
  destruct (step mod npop_control st =? 0); unfold when in Hrun.
  - injection Hrun as <-. destruct (comb _ _ _ _) as [[l h] wd]. cbn. auto.
  - injection Hrun as <-. rewrite app_nil_r. auto.
Qed.

(** A whole step, when it returns: neither the back-propagation path nor
    the ITCF path has fired; the pass over the walkers is followed by the
    events of the later phases, in order. *)
Lemma do_qmc_step_Return (st : State) step s s' :
  do_qmc_step st step s = Return tt s' ->
  exists l1 s1 k,
    for_walkers (walker_body st step) 0%nat (psi s) (enter_step step s) = Return l1 s1 /\
    trace s' = trace s1 ++ bp_events st l1 k
                        ++ measure_events st step (E_T s') ++ pop_control_events st step /\
    bp_fires st step = false /\ itcf_fires st step = false /\
    steps s' = steps s ++ [step] /\
    (step mod nmeasure st <> 0 -> E_T s' = E_T s) /\
    mean_local_energy s' = (if step <? nequilibrate st
                            then Some (E_T s') else mean_local_energy s) /\
    (nprop_tot st <> 0 /\ nmeasure st <> 0 /\ npop_control st <> 0).
Proof.
  unfold do_qmc_step. rewrite bind_modify. intros Hrun.
  apply bind_Return in Hrun as ([] & s1 & H1 & Hrun).
  apply walkers_phase_Return in H1 as (l1 & s1' & Hw & ->). cbn [psi enter_step] in Hw.
  pose proof (for_walkers_Return _ _ _ _ _ _ _ Hw) as (Fw & _).
  apply bind_Return in Hrun as ([] & s2 & H2 & Hrun).
  apply back_propagation_phase_Return in H2 as (N1 & L2 & B2 & _ & k & T2).
  apply bind_Return in Hrun as ([] & s3 & H3 & Hrun).
  apply itcf_phase_Return in H3 as (-> & I3).
  apply bind_Return in Hrun as ([] & s4 & H4 & Hrun).
  apply measure_phase_Return in H4 as (N2 & P4 & M4 & S4 & E4 & T4).
  apply bind_Return in Hrun as ([] & s5 & H5 & Hrun).
  rewrite equilibration_phase_eq in H5. injection H5 as <-.
  apply pop_control_phase_Return in Hrun as (N3 & E5 & M5 & S5 & T5).
  destruct Fw as (F1 & F2 & F3 & F4 & F5 & F6 & F7).
  destruct L2 as (P2 & E2 & M2 & S2).
  cbn in *.
  assert (E_T s' = E_T s4) as EE by (destruct (step <? nequilibrate st); cbn in E5; assumption).
  exists l1, s1', k. split; [assumption|].
  split.
  { rewrite T5. destruct (step <? nequilibrate st); cbn [trace set_mean_local_energy];
      rewrite T4, T2, EE, <- !app_assoc; reflexivity. }
  split; [assumption|]. split; [assumption|].
  split.
  { rewrite S5. destruct (step <? nequilibrate st); cbn; congruence. }
  split.
  { intros Hm. rewrite EE, E4. apply Z.eqb_neq in Hm. rewrite Hm. congruence. }
  split; [|auto].
  rewrite M5, EE. destruct (step <? nequilibrate st); cbn; [reflexivity|congruence].
Qed.

(** With back-propagation and ITCF switched off, a step whose cadences
    are not zero returns. *)
Lemma do_qmc_step_total (st : State) step s :
  back_propagation st = false -> calc_itcf st = false ->
  nstblz st <> 0 -> nprop_tot st <> 0 -> nmeasure st <> 0 -> npop_control st <> 0 ->
  exists s', do_qmc_step st step s = Return tt s'.
Proof.
  intros B I N1 N2 N3 N4. unfold do_qmc_step. rewrite bind_modify.
  destruct (walkers_phase_total st step (enter_step step s)) as (s1 & E1); [now left|].
  rewrite (bind_eq _ _ _ _ _ E1).
  unfold back_propagation_phase. rewrite bind_assoc, bind_py_mod by assumption.
  rewrite B, bind_when_false.
  unfold itcf_phase. rewrite I. rewrite bind_assoc, bind_mret, bind_when_false.
  unfold measure_phase. rewrite bind_assoc, bind_py_mod by assumption.
  assert (exists s2, when (step mod nmeasure st =? 0)
            (E ← Py.gets (fun s => eproj (world s));
             Py.modify (fun s => log (Eproj E) (set_E_T E s));;
             call (PrintStep step)) s1 = Return tt s2) as (s2 & E2).
  { destruct (step mod nmeasure st =? 0); eexists; reflexivity. }
  rewrite (bind_eq _ _ _ _ _ E2).
  rewrite (bind_eq _ _ _ _ _ (equilibration_phase_eq st step s2)).
  unfold pop_control_phase. rewrite bind_py_mod by assumption.
  destruct (step mod npop_control st =? 0); eexists; reflexivity.
Qed.

Lemma for_each_do_qmc_step (st : State) (l : list Z) : forall s s',
  for_each l (do_qmc_step st) s = Return tt s' ->
  steps s' = steps s ++ l /\
  forall k, In k l -> bp_fires st k = false /\ itcf_fires st k = false.
Proof.
  induction l as [|k l IH]; intros s s' Hrun; cbn [for_each] in Hrun.
  - injection Hrun as <-. rewrite app_nil_r. split; [reflexivity|]. intros k [].
  - change (Py.bind ?m ?k) with (m ≫= k) in Hrun.
    apply bind_Return in Hrun as ([] & s1 & H1 & Hrun).
    apply do_qmc_step_Return in H1 as (? & ? & ? & _ & _ & B & I & St & _).
    destruct (IH _ _ Hrun) as [Hs Hf]. split.
    + rewrite Hs, St, <- app_assoc. reflexivity.
    + intros k' [<-|Hin]; [auto|now apply Hf].
Qed.

Lemma for_each_do_qmc_step_total (st : State) (l : list Z) :
  back_propagation st = false -> calc_itcf st = false ->
  nstblz st <> 0 -> nprop_tot st <> 0 -> nmeasure st <> 0 -> npop_control st <> 0 ->
  forall s, exists s', for_each l (do_qmc_step st) s = Return tt s'.
Proof.
  intros B I N1 N2 N3 N4. induction l as [|k l IH]; intros s; cbn [for_each].
  - now exists s.
  - destruct (do_qmc_step_total st k s B I N1 N2 N3 N4) as (s1 & E1).
    destruct (IH s1) as (s' & E'). exists s'.
    change (Py.bind ?m ?k) with (m ≫= k). now rewrite (bind_eq _ _ _ _ _ E1).
Qed.

Lemma for_each_call_steps {A} (l : list A) (f : A -> event Phi) : forall s,
  exists s', for_each l (fun x => call (f x)) s = Return tt s' /\
    steps s' = steps s /\ psi s' = psi s /\ psi_hist s' = psi_hist s.
Proof.
  induction l as [|x l IH]; intros s; cbn [for_each].
  - exists s. auto.
  - destruct (IH (log (f x) (set_world (observe (f x) (world s)) s))) as (s' & E & S1 & S2 & S3).
    exists s'. split; [|auto]. unfold Py.bind. unfold call at 1. unfold Py.modify. exact E.
Qed.

(** The steps whose body [do_qmc] enters when it returns are those of
    [range(1, nsteps)], in order; back-propagation is off, and in none of
    these steps does the ITCF path fire. *)
Lemma do_qmc_Return_steps (st : State) s s' :
  do_qmc st s = Return tt s' ->
  steps s' = steps s ++ py_range 1 (nsteps st) /\
  back_propagation st = false /\
  forall k, 1 <= k < nsteps st -> itcf_fires st k = false.
Proof.
  unfold do_qmc. intros Hrun.
  apply bind_Return in Hrun as ([] & s1 & H1 & Hrun).
  apply for_each_do_qmc_step in Hrun as [Hs Hf].
  unfold prologue in H1.
  apply bind_Return in H1 as ([] & s0 & H0 & H1).
  destruct (back_propagation st); [discriminate|]. injection H0 as <-.
  rewrite bind_gets in H1. cbn [psi set_psi_hist] in H1.
  destruct (psi s) as [|w0 l]; [discriminate|].
  rewrite bind_modify in H1.
  apply bind_Return in H1 as ([] & s2 & H2 & H1).
  unfold call in H1. injection H1 as <-. cbn [steps log set_world] in Hs.
  match type of H2 with for_each ?l ?f ?s = _ =>
    destruct (for_each_call_steps l (fun iw => EstimatorsUpdate iw.1 iw.2) s) as (s2' & E & S2 & _)
  end.
  rewrite E in H2. injection H2 as <-. cbn in S2.
  split; [rewrite Hs, S2; reflexivity|]. split; [reflexivity|].
  intros k Hk. apply Hf. now apply py_range_In.
Qed.

Lemma do_qmc_Return (st : State) s s' :
  do_qmc st s = Return tt s' -> steps s' = steps s ++ py_range 1 (nsteps st).
Proof. intros Hrun. now apply do_qmc_Return_steps in Hrun. Qed.

(** Without back-propagation and ITCF, [do_qmc] returns as soon as there
    is a walker and no cadence is zero. *)
Lemma do_qmc_total (st : State) s :
  back_propagation st = false -> calc_itcf st = false -> psi s <> [] ->
  nstblz st <> 0 -> nprop_tot st <> 0 -> nmeasure st <> 0 -> npop_control st <> 0 ->
  exists s', do_qmc st s = Return tt s'.
Proof.
  intros B I Hne N1 N2 N3 N4. unfold do_qmc, prologue. rewrite B.
  rewrite !bind_assoc, bind_modify, bind_assoc, bind_gets. cbn [psi set_psi_hist].
  destruct (psi s) as [|w0 l] eqn:Ep; [contradiction|].
  rewrite !bind_assoc, bind_modify, bind_assoc.
  match goal with |- context [for_each ?l ?f ≫= _] =>
    destruct (for_each_call_steps l (fun iw => EstimatorsUpdate iw.1 iw.2)
                (set_qmc_mean_local_energy (Some (re (local_energy w0)))
                   (set_E_T (local_energy w0) (set_psi_hist None s)))) as (s2 & E & _)
  end.
  rewrite (bind_eq _ _ _ _ _ E). unfold call. rewrite bind_modify.
  apply for_each_do_qmc_step_total; assumption.
Qed.

(** *** What every run leaves alone *)

Lemma undisturbed_refl s : undisturbed s s.
Proof. split; [reflexivity|]. exists []. now rewrite app_nil_r. Qed.

Lemma undisturbed_trans s1 s2 s3 :
  undisturbed s1 s2 -> undisturbed s2 s3 -> undisturbed s1 s3.
Proof.
  intros (Q1 & evs1 & T1 & A1) (Q2 & evs2 & T2 & A2). split; [congruence|].
  exists (evs1 ++ evs2). split; [rewrite T2, T1, app_assoc; reflexivity|].
  apply Forall_app. auto.
Qed.

(** A computation that leaves [state.qmc.mean_local_energy] and the
    history buffer alone, whether it returns or raises. *)
Local Notation "'keeps' m" := (forall s, undisturbed s (final (m s)))
  (at level 10, m at level 9).

Lemma keeps_bind {A B} (m : M store A) (k : A -> M store B) :
  keeps m -> (forall a, keeps (k a)) -> keeps (m ≫= k).
Proof.
  intros Hm Hk s. unfold mbind, M_bind, Py.bind. specialize (Hm s).
  destruct (m s) as [a s1|e s1]; cbn [final] in *; [|assumption].
  eapply undisturbed_trans; [exact Hm|apply Hk].
Qed.

Lemma keeps_modify (f : store -> store) :
  (forall s, undisturbed s (f s)) -> keeps (Py.modify f).
Proof. intros Hf s. apply Hf. Qed.

Lemma undisturbed_log ev s s' :
  history_event ev = false ->
  qmc_mean_local_energy s' = qmc_mean_local_energy s -> trace s' = trace s ++ [ev] ->
  undisturbed s s'.
Proof. intros Hev Q T. split; [assumption|]. exists [ev]. split; [assumption|]. now constructor. Qed.

Lemma undisturbed_silent s s' :
  qmc_mean_local_energy s' = qmc_mean_local_energy s -> trace s' = trace s ->
  undisturbed s s'.
Proof. intros Q T. split; [assumption|]. exists []. rewrite app_nil_r. auto. Qed.

Lemma keeps_py_mod a b : keeps (py_mod a b).
Proof. intros s. unfold py_mod. destruct (b =? 0); apply undisturbed_refl. Qed.

Lemma keeps_when b (m : M store unit) : keeps m -> keeps (when b m).
Proof. intros Hm s. destruct b; [apply Hm|apply undisturbed_refl]. Qed.

Lemma keeps_call ev : history_event ev = false -> keeps (call ev).
Proof. intros Hev s. now apply (undisturbed_log ev). Qed.

Lemma keeps_walker_body (st : State) step i w : keeps (walker_body st step i w).
Proof.
  unfold walker_body. intros s. rewrite bind_gets.
  match goal with |- context [(?m ≫= ?k) s] => apply (keeps_bind m k) end.
  - intros s0. destruct (above_threshold (weight w)); [|apply undisturbed_refl].
    unfold call_propagate_walker. destruct (propagate_walker w (world s0)).
    now apply (undisturbed_log (Propagate i)).
  - intros w1. apply keeps_bind; [now apply keeps_call|]. intros _.
    apply keeps_bind; [apply keeps_py_mod|]. intros r s0.
    destruct (r =? 0); [|apply undisturbed_refl].
    unfold call_reortho, mbind, M_bind, Py.bind. destruct (reortho _) as [detR w2].
    destruct (negb (importance_sampling st)); now apply (undisturbed_log (Reortho i)).
Qed.

Lemma keeps_for_walkers (st : State) step (l : list (Walker Phi)) :
  forall i, keeps (for_walkers (walker_body st step) i l).
Proof.
  induction l as [|w l IH]; intros i; cbn [for_walkers]; [intros s; apply undisturbed_refl|].
  apply keeps_bind; [apply keeps_walker_body|]. intros w'.
  apply keeps_bind; [apply IH|]. intros l' s. apply undisturbed_refl.
Qed.

(** A step of a run without back-propagation. *)
Lemma keeps_do_qmc_step (st : State) step :
  back_propagation st = false -> keeps (do_qmc_step st step).
Proof.
  intros B. unfold do_qmc_step.
  apply keeps_bind; [apply keeps_modify; intros s; now apply undisturbed_silent|]. intros _.
  apply keeps_bind.
  { unfold walkers_phase. intros s. rewrite bind_gets.
    match goal with |- context [(?m ≫= ?k) s] => apply (keeps_bind m k) end;
      [apply keeps_for_walkers|]. intros l'.
    apply keeps_modify. intros s0. now apply undisturbed_silent. }
  intros _. apply keeps_bind.
  { unfold back_propagation_phase. apply keeps_bind; [apply keeps_py_mod|]. intros bp_step.
    rewrite B. intros s. apply undisturbed_refl. }
  intros _. apply keeps_bind.
  { unfold itcf_phase. apply keeps_bind.
    - destruct (calc_itcf st); [|intros s; apply undisturbed_refl].
      apply keeps_bind; [apply keeps_py_mod|]. intros r s. apply undisturbed_refl.
    - intros fire. apply keeps_when. intros s. apply undisturbed_refl. }
  intros _. apply keeps_bind.
  { unfold measure_phase. apply keeps_bind; [apply keeps_py_mod|]. intros r.
    apply keeps_when. intros s. rewrite bind_gets.
    match goal with |- context [(?m ≫= ?k) s] => apply (keeps_bind m k) end.
    - apply keeps_modify. intros s0. now apply (undisturbed_log (Eproj (eproj (world s)))).
    - intros _. now apply keeps_call. }
  intros _. apply keeps_bind.
  { unfold equilibration_phase. apply keeps_when, keeps_modify.
    intros s. now apply undisturbed_silent. }
  intros _. unfold pop_control_phase. apply keeps_bind; [apply keeps_py_mod|]. intros r.
  apply keeps_when, keeps_modify. intros s.
  destruct (comb _ _ _ _) as [[l h] wd] eqn:Ec. apply (undisturbed_log Comb); try reflexivity.
Qed.

Lemma keeps_for_each {A} (l : list A) (body : A -> M store unit) :
  (forall a, keeps (body a)) -> keeps (for_each l body).
Proof.
  intros Hb. induction l as [|a l IH]; cbn [for_each]; [intros s; apply undisturbed_refl|].
  change (Py.bind ?m ?k) with (m ≫= k). apply keeps_bind; [apply Hb|]. intros _. apply IH.
Qed.

(** A run without back-propagation and with a walker: everything after
    line 30, up to the end of the run or to the exception that ends it. *)
Lemma do_qmc_after_line_30 (st : State) s w0 l :
  back_propagation st = false -> psi s = w0 :: l ->
  undisturbed
    (set_qmc_mean_local_energy (Some (re (local_energy w0)))
       (set_E_T (local_energy w0) (set_psi_hist None s)))
    (final (do_qmc st s)).
Proof.
  intros B Ep. unfold do_qmc, prologue. rewrite B.
  rewrite !bind_assoc, bind_modify, bind_assoc, bind_gets. cbn [psi set_psi_hist]. rewrite Ep.
  rewrite !bind_assoc, bind_modify.
  match goal with |- undisturbed ?s1 (final ((?m ≫= ?k) ?s1)) => apply (keeps_bind m k) end.
  - apply keeps_bind; [|intros _; now apply keeps_call].
    apply keeps_for_each. intros iw. now apply keeps_call.
  - intros _. apply keeps_for_each. intros step. now apply keeps_do_qmc_step.
Qed.

(** No run of [do_qmc] writes a slot of the history buffer or calls the
    back-propagation. *)
Lemma do_qmc_no_history_events (st : State) s :
  exists evs, trace (final (do_qmc st s)) = trace s ++ evs /\
              Forall (fun ev => history_event ev = false) evs.
Proof.
  destruct (back_propagation st) eqn:B.
  - exists []. unfold do_qmc, prologue. rewrite B. cbn. now rewrite app_nil_r.
  - destruct (psi s) as [|w0 l] eqn:Ep.
    + exists []. unfold do_qmc, prologue. rewrite B.
      rewrite !bind_assoc, bind_modify, bind_assoc, bind_gets. cbn [psi set_psi_hist].
      rewrite Ep. cbn. now rewrite app_nil_r.
    + destruct (do_qmc_after_line_30 st s w0 l B Ep) as (_ & evs & T & A). eauto.
Qed.

(** *** Counting the resets of slot 0 *)

Lemma resets_app (a b : list (event Phi)) : resets (a ++ b) = (resets a + resets b)%nat.
Proof. unfold resets. now rewrite List.filter_app, length_app. Qed.

Lemma resets_no_history (evs : list (event Phi)) :
  Forall (fun ev => history_event ev = false) evs -> resets evs = 0%nat.
Proof.
  unfold resets. induction 1 as [|ev evs Hev _ IH]; [reflexivity|].
  cbn [List.filter]. destruct ev; try discriminate; cbn; exact IH.
Qed.

End Facts.
End AfqmcpyFacts.

(** ** Facts about the UHF search *)

Module TrialWavefunctionFacts.
Import TrialWavefunction.

Section Facts.
Context `{Env}.

Lemma Rltb_true x y : Rltb x y = true <-> (x < y)%R.
Proof. unfold Rltb. destruct (Rlt_dec x y); split; auto; discriminate. Qed.

(** With [deps <= 0] the convergence test cannot succeed. *)
Lemma self_consistant_nonpos_deps enew eold a b c d deps :
  (deps <= 0)%R -> self_consistant enew eold a b c d deps = false.
Proof.
  intros Hd. unfold self_consistant.
  destruct (Rltb (Rabs (enew - eold)) deps) eqn:E; [|reflexivity].
  apply Rltb_true in E. pose proof (Rabs_pos (enew - eold)). lra.
Qed.

Lemma accept_ok attempt deps e e_up e_down t loc :
  is_Some (nav loc) -> accepted_ok loc -> accepted_ok (accept attempt deps e e_up e_down t loc).
Proof.
  intros Hn Hok. unfold accept.
  destruct (_ || _); [|assumption].
  intros _. cbn. eauto.
Qed.

(** An SCF cycle never raises and leaves the store alone. *)
Lemma scf_cycle_Return sys ueff alpha deps attempt (its : list Z) :
  forall v loc s, exists v' loc',
    scf_cycle sys ueff alpha deps attempt its v loc s = Return (v', loc') s /\
    (its <> [] -> is_Some (it loc')) /\
    (is_Some (it loc) -> is_Some (it loc')) /\
    (is_Some (nav loc) -> is_Some (nav loc')) /\
    (is_Some (nav loc) -> accepted_ok loc -> accepted_ok loc') /\
    ((deps <= 0)%R -> minima loc' = minima loc).
Proof.
  induction its as [|i its IH]; intros v loc s; cbn [scf_cycle].
  - exists v, loc. split; [reflexivity|].
    split; [intros Hne; now contradiction Hne|]. auto.
  - destruct (diagonalise_mean_field _ _ _ _ _) as [[[[up down] e_up] e_down] t].
    rewrite bind_gets.
    destruct (self_consistant _ _ _ _ _ _ _) eqn:Esc.
    + eexists _, _. split; [reflexivity|].
      split; [intros _; unfold accept; destruct (_ || _); cbn; eauto|].
      split; [intros _; unfold accept; destruct (_ || _); cbn; eauto|].
      split; [intros _; unfold accept; destruct (_ || _); cbn; eauto|].
      split.
      * intros Hn Hok. apply accept_ok; [cbn; eauto|].
        intros Hm. cbn in *. destruct (Hok Hm) as (? & ? & ?). eauto.
      * intros Hd. rewrite self_consistant_nonpos_deps in Esc by assumption. discriminate.
    + match goal with |- context [scf_cycle _ _ _ _ _ its ?v' ?loc' s] =>
        destruct (IH v' loc' s) as (v2 & loc2 & E2 & I1 & I2 & I3 & I4 & I5)
      end.
      exists v2, loc2. split; [exact E2|].
      split; [intros _; apply I2; cbn; eauto|].
      split; [intros _; apply I2; cbn; eauto|].
      split; [intros _; apply I3; cbn; eauto|].
      split.
      * intros Hn Hok. apply I4; [cbn; eauto|].
        intros Hm. cbn in *. destruct (Hok Hm) as (? & ? & ?). eauto.
      * intros Hd. rewrite (I5 Hd). reflexivity.
Qed.

Lemma py_range_nonempty n : 0 < n -> py_range 0 n <> [].
Proof.
  intros Hn Hnil. apply (f_equal (@length Z)) in Hnil. rewrite py_range_length in Hnil.
  cbn in Hnil. lia.
Qed.

(** One attempt changes only the random-number state; it raises exactly
    when [it] is still unbound at the [print] of line 243. *)
Lemma attempt_body_outcome sys cplx ueff alpha deps nit_max attempt loc s :
  let o := attempt_body sys cplx ueff alpha deps nit_max attempt loc s in
  system_U (final o) = system_U s /\ trace (final o) = trace s /\
  (forall loc' s', o = Return loc' s' ->
     is_Some (it loc') /\ is_Some (nav loc') /\
     (accepted_ok loc -> accepted_ok loc') /\
     ((deps <= 0)%R -> minima loc' = minima loc)) /\
  (forall e s', o = Raise e s' -> e = UnboundLocalError /\ nit_max <= 0) /\
  (0 < nit_max \/ is_Some (it loc) -> exists loc' s', o = Return loc' s').
Proof.
  unfold attempt_body. rewrite bind_get.
  destruct (initialise sys cplx (rng s)) as [[t e0] g].
  rewrite bind_modify.
  match goal with |- context [scf_cycle _ _ _ _ _ ?its ?v ?l] =>
    destruct (scf_cycle_Return sys ueff alpha deps attempt its v l (set_rng g s))
      as (v' & loc' & E & I1 & I2 & I3 & I4 & I5)
  end.
  rewrite (bind_eq _ _ _ _ _ E). cbn zeta. cbn [it minima nav] in *.
  destruct (it loc') as [i|] eqn:Eit.
  - cbn. split; [reflexivity|]. split; [reflexivity|]. split; [|split].
    + intros ? ? [= <- <-]. rewrite Eit. split; [eauto|].
      split; [apply I3; eauto|]. split; [|exact I5].
      intros Hok. apply I4; [eauto|]. intros Hm. cbn in *.
      destruct (Hok Hm) as (? & ? & ?). eauto.
    + intros ? ? [=].
    + intros _. eauto.
  - cbn. split; [reflexivity|]. split; [reflexivity|]. split; [|split].
    + intros ? ? [=].
    + intros ? ? [= <- <-]. split; [reflexivity|].
      destruct (Z.leb_spec nit_max 0) as [|Hpos]; [assumption|]. exfalso.
      destruct (I1 (py_range_nonempty _ Hpos)) as [? [=]].
    + intros [Hpos|Hit]; exfalso.
      * destruct (I1 (py_range_nonempty _ Hpos)) as [? [=]].
      * destruct (I2 Hit) as [? [=]].
Qed.

(** The loop over the attempts. *)
Lemma attempts_outcome sys cplx ueff alpha deps nit_max (l : list Z) :
  forall loc s,
  let o := attempts (attempt_body sys cplx ueff alpha deps nit_max) l loc s in
  system_U (final o) = system_U s /\ trace (final o) = trace s /\
  (forall loc' s', o = Return loc' s' ->
     (accepted_ok loc -> accepted_ok loc') /\
     ((deps <= 0)%R -> minima loc' = minima loc)) /\
  (forall e s', o = Raise e s' -> e = UnboundLocalError /\ nit_max <= 0) /\
  (0 < nit_max -> exists loc' s', o = Return loc' s').
Proof.
  induction l as [|a l IH]; intros loc s; cbn [attempts].
  - cbn. split; [reflexivity|]. split; [reflexivity|]. split; [|split].
    + intros ? ? [= <- <-]. auto.
    + intros ? ? [=].
    + eauto.
  - pose proof (attempt_body_outcome sys cplx ueff alpha deps nit_max a loc s)
      as (U1 & T1 & R1 & X1 & P1). cbn zeta in *.
    destruct (attempt_body sys cplx ueff alpha deps nit_max a loc s) as [loc1 s1|e s1] eqn:E1.
    + rewrite (bind_eq _ _ _ _ _ E1).
      destruct (R1 _ _ eq_refl) as (_ & _ & Hok1 & Hm1).
      specialize (IH loc1 s1) as (U2 & T2 & R2 & X2 & P2). cbn in U1, T1.
      split; [congruence|]. split; [congruence|]. split; [|split].
      * intros loc' s' Ho. destruct (R2 _ _ Ho) as (Hok2 & Hm2). split; [auto|].
        intros Hd. rewrite (Hm2 Hd). auto.
      * exact X2.
      * exact P2.
    + rewrite (bind_raise _ _ _ _ _ E1). cbn in *.
      split; [assumption|]. split; [assumption|]. split; [|split].
      * intros ? ? [=].
      * intros ? ? [= <- <-]. apply (X1 _ _ eq_refl).
      * intros Hpos. destruct (P1 (or_introl Hpos)) as (? & ? & [=]).
Qed.

Lemma py_min_outcome (l : list R) s :
  (l = [] /\ py_min l s = Raise ValueError s) \/
  (l <> [] /\ exists m, py_min l s = Return m s).
Proof.
  destruct l as [|x l]; [left|right]; cbn.
  - auto.
  - split; [discriminate|eauto].
Qed.

(** The shape of every run of [find_uhf_wfn]. *)
Lemma find_uhf_wfn_outcome sys cplx ueff ninit nit_max alpha deps s :
  let o := find_uhf_wfn sys cplx ueff ninit nit_max alpha deps s in
  trace (final o) = trace s /\
  match o with
  | Return r s' => system_U s' = system_U s /\ r_error r = false
  | Raise ValueError s' => system_U s' = system_U s
  | Raise UnboundLocalError s' => system_U s' = ueff /\ nit_max <= 0
  | Raise _ _ => False
  end /\
  ((deps <= 0)%R -> 0 < nit_max -> exists s', o = Raise ValueError s').
Proof.
  unfold find_uhf_wfn. cbn zeta. rewrite bind_gets, bind_modify.
  pose proof (attempts_outcome sys cplx ueff alpha deps nit_max (py_range 0 ninit)
                (mkLocals [] None None None None None None) (set_system_U ueff s))
    as (U1 & T1 & R1 & X1 & P1). cbn zeta in *.
  destruct (attempts _ _ _ _) as [loc s1|e s1] eqn:E1.
  - rewrite (bind_eq _ _ _ _ _ E1). rewrite bind_modify.
    destruct (R1 _ _ eq_refl) as (Hok & Hm). cbn in U1, T1.
    assert (accepted_ok loc) as Hok' by (apply Hok; intros Hne; now cbn in Hne).
    destruct (py_min_outcome (minima loc) (set_system_U (system_U s) s1)) as [[Hnil Emin]|[Hne (m & Emin)]].
    + rewrite (bind_raise _ _ _ _ _ Emin). cbn. split; [assumption|].
      split; [reflexivity|]. eauto.
    + rewrite (bind_eq _ _ _ _ _ Emin).
      destruct (Hok' Hne) as ([p Ep] & [e Ee] & [n En]). rewrite Ep, Ee, En.
      rewrite (bind_eq _ _ _ _ _ Emin). cbn. split; [assumption|].
      split; [auto|]. intros Hd _. rewrite (Hm Hd) in Hne. now contradiction Hne.
  - rewrite (bind_raise _ _ _ _ _ E1). cbn in *.
    destruct (X1 _ _ eq_refl) as (-> & Hle).
    split; [assumption|]. split; [auto|].
    intros _ Hpos. lia.
Qed.

End Facts.
End TrialWavefunctionFacts.

(** * The claims *)

(** ** C1: walkers at or below the threshold *)

(** A weight that is not above the threshold: the guard of [AFQMC.run]
    fails whatever the [alive] flag. *)
Lemma below_threshold_guard `{EP : Pauxy.Env} (w : Walker Pauxy.Phi) :
  (Cabs (weight w) <= 1e-8)%R -> Pauxy.guard w = false.
Proof. intros Hw. unfold Pauxy.guard. now rewrite (proj2 (above_threshold_false _) Hw). Qed.

(** C1, as stated, fails.  In [AFQMC.run], a walker of weight [1e-9],
    below the threshold, is skipped by the propagator, and yet the step
    with [dt = 0.01] and [E_T = 1] changes its weight: the constant factor
    [exp(dt * E_T.real)] is applied outside the guard. *)
Lemma skipped_walker_weight_changes :
  let w := Examples.walker 1e-9 in
  (Cabs (weight w) <= 1e-8)%R /\
  exists w' s', @Pauxy.walker_body Examples.pauxy_env Examples.afqmc 1 w Examples.pauxy_store
                = Return w' s' /\
                Pauxy.trace s' = [] /\ weight w' <> weight w.
Proof.
  cbn zeta.
  assert (Cabs (weight (Examples.walker 1e-9)) <= 1e-8)%R as Hw.
  { unfold Examples.walker. cbn [weight]. rewrite Cabs_of_real, Rabs_pos_eq; lra. }
  split; [exact Hw|].
  eexists _, _. split.
  - apply PauxyFacts.walker_body_skip. now apply below_threshold_guard.
  - split; [reflexivity|]. intros Heq. apply (f_equal re) in Heq.
    unfold Examples.walker, set_weight, Cscale, Examples.afqmc, Examples.pauxy_store in Heq.
    cbn [re im weight Pauxy.dt Pauxy.qmc Pauxy.E_T] in Heq.
    pose proof (exp_ineq1 (0.01 * 1)%R ltac:(lra)) as Hexp. nra.
Qed.

(** C1, amended: a walker whose weight magnitude is at or below [1e-8] at
    the start of a step is not propagated in that step, but its weight is
    still multiplied by [exp(dt * Re(E_T))]; in [do_qmc] the
    reorthogonalisation of lines 49-52 then applies to it as to any other
    walker. In [AFQMC.run] nothing else changes; in [do_qmc] the only calls
    made for the walker are the update of the estimators and that
    reorthogonalisation. *)
Theorem skipped_walker_is_reweighted `{EP : Pauxy.Env} `{EA : Afqmcpy.Env}
    (self : Pauxy.AFQMC) (st : Afqmcpy.State) (step : Z) (i : nat)
    (w : Walker Pauxy.Phi) (s : Pauxy.store)
    (w0 : Walker Afqmcpy.Phi) (s0 : Afqmcpy.store) :
  (Cabs (weight w) <= 1e-8)%R ->
  (Cabs (weight w0) <= 1e-8)%R ->
  Afqmcpy.nstblz st <> 0 ->
  Pauxy.walker_body self i w s =
    Return (set_weight w (Cscale (weight w)
                                 (exp (Pauxy.dt (Pauxy.qmc self) * re (Pauxy.E_T s))))) s
  /\
  let w2 := set_weight w0 (Cscale (weight w0) (exp (Afqmcpy.dt st * re (Afqmcpy.E_T s0)))) in
  exists s0',
    Afqmcpy.walker_body st step i w0 s0 =
      Return (if step mod Afqmcpy.nstblz st =? 0 then Afqmcpy.stabilised st w2 else w2) s0' /\
    Afqmcpy.trace s0' =
      Afqmcpy.trace s0 ++ [Afqmcpy.EstimatorsUpdate i w2]
        ++ (if step mod Afqmcpy.nstblz st =? 0 then [Afqmcpy.Reortho i] else []).
Proof.
  intros Hw Hw0 Hnz. split.
  - apply PauxyFacts.walker_body_skip. now apply below_threshold_guard.
  - cbn zeta.
    destruct (AfqmcpyFacts.walker_body_total st step i w0 s0 Hnz) as (w' & s' & E).
    pose proof (AfqmcpyFacts.walker_body_Return _ _ _ _ _ _ _ E) as (_ & _ & Hres & Htr).
    cbn zeta in Hres, Htr. unfold Afqmcpy.propagated, Afqmcpy.reweighted in Hres, Htr.
    rewrite (proj2 (above_threshold_false _) Hw0) in Hres, Htr.
    exists s'. split; [rewrite E; f_equal; exact Hres|exact Htr].
Qed.

Lemma skipped_walker_is_reweighted_witness :
  let w := Examples.walker 1e-9 in
  @Pauxy.walker_body Examples.pauxy_env Examples.afqmc 1 w Examples.pauxy_store =
    Return (set_weight w (Cscale (weight w) (exp (0.01 * 1)))) Examples.pauxy_store.
Proof.
  cbn zeta.
  assert (Cabs (weight (Examples.walker 1e-9)) <= 1e-8)%R as Hw.
  { unfold Examples.walker. cbn [weight]. rewrite Cabs_of_real, Rabs_pos_eq; lra. }
  refine (proj1 (@skipped_walker_is_reweighted Examples.pauxy_env Examples.afqmcpy_env
            Examples.afqmc Examples.state_plain 1 1%nat
            _ _ (Examples.walker 1e-9) Examples.afqmcpy_store Hw Hw _)).
  cbn. lia.
Defined.

(** ** C7: the guard of the propagator *)

Lemma Propagate_not_in_step_calls `{EP : Pauxy.Env} (self : Pauxy.AFQMC) step E k :
  ~ In (Pauxy.Propagate k) (Pauxy.step_calls self step E).
Proof.
  unfold Pauxy.step_calls. rewrite !in_app_iff.
  repeat match goal with |- context [if ?b then _ else _] => destruct b end.
  all: cbn; intuition discriminate.
Qed.

Lemma Propagate_not_in_later_phases `{EA : Afqmcpy.Env} (st : Afqmcpy.State) step l k0 E k :
  ~ In (Afqmcpy.Propagate k)
       (Afqmcpy.bp_events st l k0
        ++ Afqmcpy.measure_events st step E ++ Afqmcpy.pop_control_events st step).
Proof.
  unfold Afqmcpy.bp_events, Afqmcpy.measure_events, Afqmcpy.pop_control_events.
  rewrite !in_app_iff.
  repeat match goal with |- context [if ?b then _ else _] => destruct b end.
  all: cbn; intuition discriminate.
Qed.

(** C7: a weight of magnitude exactly [1e-8] fails the strict comparison;
    and in a step of either driver the propagator is invoked on the
    walker at position [k] exactly when that walker has a weight of
    magnitude strictly above [1e-8] on entry (and, in [AFQMC.run], is
    alive). *)
Theorem propagator_invoked_iff_above_threshold `{EP : Pauxy.Env} `{EA : Afqmcpy.Env}
    (self : Pauxy.AFQMC) (st : Afqmcpy.State) (step : Z)
    (sP sP' : Pauxy.store) (sA sA' : Afqmcpy.store) :
  Pauxy.run_step self step sP = Return tt sP' ->
  Afqmcpy.do_qmc_step st step sA = Return tt sA' ->
  (forall z, Cabs z = 1e-8%R -> above_threshold z = false) /\
  (exists evs, Pauxy.trace sP' = Pauxy.trace sP ++ evs /\
     forall k, In (Pauxy.Propagate k) evs <->
       exists w, Pauxy.walkers sP !! k = Some w /\
                 (Cabs (weight w) > 1e-8)%R /\ alive w = true) /\
  (exists evs, Afqmcpy.trace sA' = Afqmcpy.trace sA ++ evs /\
     forall k, In (Afqmcpy.Propagate k) evs <->
       exists w, Afqmcpy.psi sA !! k = Some w /\ (Cabs (weight w) > 1e-8)%R).
Proof.
  intros HP HA. split; [|split].
  - intros z Hz. apply above_threshold_false. lra.
  - apply PauxyFacts.run_step_Return in HP as (_ & _ & _ & _ & T).
    eexists. split; [exact T|]. intros k. rewrite in_app_iff, PauxyFacts.propagations_In.
    rewrite Nat.sub_0_r. unfold Pauxy.guard. split.
    + intros [(w & _ & E & Hg)|Hin]; [|now apply Propagate_not_in_step_calls in Hin].
      apply andb_true_iff in Hg as [Ha Hl]. apply above_threshold_true in Ha. eauto.
    + intros (w & E & Ha & Hl). left. exists w. split; [lia|]. split; [assumption|].
      apply andb_true_iff. split; [now apply above_threshold_true|assumption].
  - apply AfqmcpyFacts.do_qmc_step_Return in HA as (l1 & s1 & k0 & Hw & T & _).
    apply AfqmcpyFacts.for_walkers_Return in Hw as (_ & _ & evs & Tw & _ & P & _).
    cbn [Afqmcpy.trace Afqmcpy.enter_step] in Tw.
    eexists. split; [rewrite T, Tw, <- app_assoc; reflexivity|].
    intros k. rewrite in_app_iff, P. rewrite Nat.sub_0_r. split.
    + intros [(w & _ & E & Ha)|Hin]; [|now apply Propagate_not_in_later_phases in Hin].
      apply above_threshold_true in Ha. eauto.
    + intros (w & E & Ha). left. exists w. split; [lia|]. split; [assumption|].
      now apply above_threshold_true.
Qed.

Lemma propagator_invoked_iff_above_threshold_witness :
  above_threshold (mkC 1e-8 0) = false.
Proof.
  destruct (@PauxyFacts.run_step_total Examples.pauxy_env Examples.afqmc 1 Examples.pauxy_store)
    as (sP' & HP); try (cbn; lia).
  destruct (@AfqmcpyFacts.do_qmc_step_total Examples.afqmcpy_env Examples.state_plain 1
              Examples.afqmcpy_store) as (sA' & HA); try reflexivity; try (cbn; lia).
  refine (proj1 (propagator_invoked_iff_above_threshold _ _ _ _ _ _ _ HP HA) (mkC 1e-8 0) _).
  rewrite Cabs_of_real, Rabs_pos_eq; lra.
Defined.

(** ** C6: stabilisation every [nstblz] steps *)





(** ** C5: the bounds of the loop over the steps *)

(** X1: [AFQMC.run] enters the body of its loop for the steps
    [1, 2, ..., nsteps], in this order, and returns as soon as the
    population is not empty and no cadence is zero. *)
Lemma run_enters_steps_1_to_nsteps `{EP : Pauxy.Env}
    (self : Pauxy.AFQMC) psi verbose (s : Pauxy.store) :
  default (Pauxy.walkers s) psi <> [] ->
  Pauxy.nstblz (Pauxy.qmc self) <> 0 -> Pauxy.nupdate_shift (Pauxy.qmc self) <> 0 ->
  Pauxy.nmeasure (Pauxy.qmc self) <> 0 -> Pauxy.npop_control (Pauxy.qmc self) <> 0 ->
  exists s', Pauxy.run self psi verbose s = Return tt s' /\
    Pauxy.steps s' = Pauxy.steps s
                     ++ map Z.of_nat (seq 1 (Z.to_nat (Pauxy.nsteps (Pauxy.qmc self)))).
Proof.
  intros Hne N1 N2 N3 N4.
  destruct (PauxyFacts.run_total self psi verbose s Hne N1 N2 N3 N4) as (s' & E).
  exists s'. split; [assumption|].
  rewrite (PauxyFacts.run_Return _ _ _ _ _ E), py_range_from_1. reflexivity.
Qed.

(** [do_qmc] enters the body of its loop for the steps
    [1, 2, ..., nsteps - 1] only. *)
Lemma do_qmc_enters_steps_below_nsteps `{EA : Afqmcpy.Env} (st : Afqmcpy.State) s s' :
  Afqmcpy.do_qmc st s = Return tt s' ->
  Afqmcpy.steps s' = Afqmcpy.steps s
                     ++ map Z.of_nat (seq 1 (Z.to_nat (Afqmcpy.nsteps st - 1))).
Proof.
  intros E. rewrite (AfqmcpyFacts.do_qmc_Return _ _ _ E).
  replace (Afqmcpy.nsteps st) with (Afqmcpy.nsteps st - 1 + 1) at 1 by lia.
  now rewrite py_range_from_1.
Qed.

(** Whatever [nsteps], the body of the loop of [do_qmc] is not entered
    for the step [nsteps] itself. *)
Lemma do_qmc_never_enters_step_nsteps `{EA : Afqmcpy.Env} (st : Afqmcpy.State) s s' :
  Afqmcpy.do_qmc st s = Return tt s' ->
  Afqmcpy.steps s = [] ->
  ~ In (Afqmcpy.nsteps st) (Afqmcpy.steps s').
Proof.
  intros E Hs. rewrite (AfqmcpyFacts.do_qmc_Return _ _ _ E), Hs. cbn [app].
  rewrite py_range_In. lia.
Qed.

(** C5 at the failing input [nsteps = 3]: [do_qmc] enters the body of its
    loop for the steps 1 and 2 and returns without entering it for step
    3, where [AFQMC.run] goes to step [nsteps] included. *)
Theorem do_qmc_stops_one_step_short `{EA : Afqmcpy.Env} (st : Afqmcpy.State) s s' :
  Afqmcpy.nsteps st = 3 ->
  Afqmcpy.do_qmc st s = Return tt s' ->
  Afqmcpy.steps s' = Afqmcpy.steps s ++ [1; 2].
Proof.
  intros Hn E. rewrite (do_qmc_enters_steps_below_nsteps _ _ _ E), Hn. reflexivity.
Qed.

Lemma do_qmc_stops_one_step_short_witness :
  exists s', @Afqmcpy.do_qmc Examples.afqmcpy_env Examples.state_plain Examples.afqmcpy_store
             = Return tt s' /\
             Afqmcpy.steps s' = [1; 2].
Proof.
  destruct (@AfqmcpyFacts.do_qmc_total Examples.afqmcpy_env Examples.state_plain
              Examples.afqmcpy_store) as (s' & E);
    try reflexivity; try discriminate; try (cbn; lia).
  exists s'. split; [exact E|].
  exact (do_qmc_stops_one_step_short Examples.state_plain _ _ eq_refl E).
Defined.

(** ** C4: the energy shift during equilibration *)

(** C4, as stated, fails.  In [AFQMC.run] with [nupdate_shift = 5] and
    ten steps of equilibration, step 1 leaves [E_T] as it was, although
    the mixed estimate of the energy differs from it: what the
    equilibration branch assigns is [propagators.mean_local_energy]. *)
Lemma energy_shift_not_updated_every_step :
  exists s', @Pauxy.run_step Examples.pauxy_env Examples.afqmc 1 Examples.pauxy_store
             = Return tt s' /\
    1 < Pauxy.nequilibrate (Pauxy.qmc Examples.afqmc) /\
    Pauxy.E_T s' = Pauxy.E_T Examples.pauxy_store /\
    Pauxy.E_T s' <> Pauxy.projected_energy (Pauxy.world s').
Proof.
  destruct (@PauxyFacts.run_step_total Examples.pauxy_env Examples.afqmc 1 Examples.pauxy_store)
    as (s' & E); try (cbn; lia).
  exists s'. split; [exact E|]. split; [cbn; lia|].
  apply PauxyFacts.run_step_Return in E as (_ & _ & HE & _).
  assert (Pauxy.E_T s' = Pauxy.E_T Examples.pauxy_store) as EE
    by (apply HE; vm_compute; discriminate).
  split; [exact EE|]. rewrite EE. cbn. intros Heq. apply (f_equal re) in Heq. cbn in Heq. lra.
Qed.

(** C4, amended: at every step with [step < nequilibrate] the drivers set
    the local energy bound ([propagators.mean_local_energy] in
    [AFQMC.run], [state.mean_local_energy] in [do_qmc]) to the current
    [E_T]; [E_T] itself, the shift of the factor [exp(dt * Re(E_T))],
    changes only at the steps that are multiples of [nupdate_shift]
    ([AFQMC.run]) or of [nmeasure] ([do_qmc]), where it becomes the value
    that the mixed estimator returns in that step. *)
Theorem energy_shift_cadence `{EP : Pauxy.Env} `{EA : Afqmcpy.Env}
    (self : Pauxy.AFQMC) (st : Afqmcpy.State) (step : Z)
    (sP sP' : Pauxy.store) (sA sA' : Afqmcpy.store) :
  Pauxy.run_step self step sP = Return tt sP' ->
  Afqmcpy.do_qmc_step st step sA = Return tt sA' ->
  ((step < Pauxy.nequilibrate (Pauxy.qmc self) ->
      Pauxy.mean_local_energy sP' = Some (Pauxy.E_T sP')) /\
   (step mod Pauxy.nupdate_shift (Pauxy.qmc self) <> 0 -> Pauxy.E_T sP' = Pauxy.E_T sP) /\
   (step mod Pauxy.nupdate_shift (Pauxy.qmc self) = 0 ->
      exists evs, Pauxy.trace sP' = Pauxy.trace sP ++ evs /\
                  In (Pauxy.ProjectedEnergy (Pauxy.E_T sP')) evs)) /\
  ((step < Afqmcpy.nequilibrate st ->
      Afqmcpy.mean_local_energy sA' = Some (Afqmcpy.E_T sA')) /\
   (step mod Afqmcpy.nmeasure st <> 0 -> Afqmcpy.E_T sA' = Afqmcpy.E_T sA) /\
   (step mod Afqmcpy.nmeasure st = 0 ->
      exists evs, Afqmcpy.trace sA' = Afqmcpy.trace sA ++ evs /\
                  In (Afqmcpy.Eproj (Afqmcpy.E_T sA')) evs)).
Proof.
  intros HP HA. split.
  - apply PauxyFacts.run_step_Return in HP as (_ & _ & HE & HM & T).
    split; [|split].
    + intros Hlt. apply Z.ltb_lt in Hlt. now rewrite Hlt in HM.
    + exact HE.
    + intros Hz. eexists. split; [exact T|]. unfold Pauxy.step_calls.
      rewrite Hz. cbn [Z.eqb]. rewrite !in_app_iff. right. right. right. left. now left.
  - apply AfqmcpyFacts.do_qmc_step_Return in HA
      as (l1 & s1 & k & Hw & T & _ & _ & _ & HE & HM & _).
    apply AfqmcpyFacts.for_walkers_Return in Hw as (_ & _ & evs & Tw & _).
    cbn [Afqmcpy.trace Afqmcpy.enter_step] in Tw.
    split; [|split].
    + intros Hlt. apply Z.ltb_lt in Hlt. now rewrite Hlt in HM.
    + exact HE.
    + intros Hz. eexists. split; [rewrite T, Tw, <- app_assoc; reflexivity|].
      unfold Afqmcpy.measure_events. rewrite Hz. cbn [Z.eqb]. rewrite !in_app_iff.
      right. right. left. now left.
Qed.

Lemma energy_shift_cadence_witness :
  exists sP' sA',
    @Pauxy.run_step Examples.pauxy_env Examples.afqmc 1 Examples.pauxy_store = Return tt sP' /\
    @Afqmcpy.do_qmc_step Examples.afqmcpy_env Examples.state_plain 1 Examples.afqmcpy_store
      = Return tt sA' /\
    Pauxy.mean_local_energy sP' = Some (Pauxy.E_T sP') /\
    Pauxy.E_T sP' = mkC 1 0.
Proof.
  destruct (@PauxyFacts.run_step_total Examples.pauxy_env Examples.afqmc 1 Examples.pauxy_store)
    as (sP' & HP); try (cbn; lia).
  destruct (@AfqmcpyFacts.do_qmc_step_total Examples.afqmcpy_env Examples.state_plain 1
              Examples.afqmcpy_store) as (sA' & HA); try reflexivity; try (cbn; lia).
  exists sP', sA'. split; [exact HP|]. split; [exact HA|].
  destruct (energy_shift_cadence _ _ _ _ _ _ _ HP HA) as ((HM & HE & _) & _).
  split; [apply HM; cbn; lia|apply HE; vm_compute; discriminate].
Defined.

(** ** C3: the resets of slot 0 of the history buffer *)

(** C3: the code does not do what the claim says.  Slot 0 of the history
    buffer is never reset: in no run of [do_qmc], whether it returns or
    raises, is slot 0 written; and a run in which the back-propagation
    path or the ITCF path fires at one of its steps does not return.
    With back-propagation enabled the run ends at line 25, before the
    first step; otherwise the first step in which the ITCF path fires
    ends at the lookup of [estimates] (lines 82 and 84), before the reset
    of line 86. *)
Theorem slot0_is_never_reset `{EA : Afqmcpy.Env} (st : Afqmcpy.State) (s : Afqmcpy.store) :
  (exists evs, Afqmcpy.trace (final (Afqmcpy.do_qmc st s)) = Afqmcpy.trace s ++ evs /\
               Afqmcpy.resets evs = 0%nat) /\
  (forall step, 1 <= step < Afqmcpy.nsteps st ->
     Afqmcpy.bp_fires st step = true \/ Afqmcpy.itcf_fires st step = true ->
     exists e s', Afqmcpy.do_qmc st s = Raise e s').
Proof.
  split.
  - destruct (AfqmcpyFacts.do_qmc_no_history_events st s) as (evs & T & A).
    exists evs. split; [exact T|]. now apply AfqmcpyFacts.resets_no_history.
  - intros step Hstep Hfire.
    destruct (Afqmcpy.do_qmc st s) as [[] s'|e s'] eqn:E; [|eauto]. exfalso.
    apply AfqmcpyFacts.do_qmc_Return_steps in E as (_ & B & I).
    destruct Hfire as [Hb|Hi].
    + unfold Afqmcpy.bp_fires in Hb. rewrite B in Hb. discriminate.
    + rewrite (I step Hstep) in Hi. discriminate.
Qed.

Lemma slot0_is_never_reset_witness :
  exists e s',
    @Afqmcpy.do_qmc Examples.afqmcpy_env Examples.state_itcf_only Examples.afqmcpy_store
      = Raise e s' /\
    Afqmcpy.resets (Afqmcpy.trace s') = 0%nat.
Proof.
  destruct (@slot0_is_never_reset Examples.afqmcpy_env Examples.state_itcf_only
              Examples.afqmcpy_store) as ((evs & T & R) & Hraise).
  destruct (Hraise 4) as (e & s' & E); [cbn; lia|right; reflexivity|].
  exists e, s'. split; [exact E|]. rewrite E in T. cbn in T. rewrite T. exact R.
Defined.

(** ** C2: the slots of the history buffer written and consumed *)

(** The body of the loop, were it entered with back-propagation enabled
    and the buffer bound to an array: a step at which the
    back-propagation path fires writes its slot, calls [back_propagate]
    on the columns [s+1, ..., e] of the buffer, and then raises
    [NameError] at the lookup of [estimates] (line 69). *)
Lemma loop_body_back_propagation_raises `{EA : Afqmcpy.Env} (st : Afqmcpy.State) step
    (s : Afqmcpy.store) h :
  Afqmcpy.back_propagation st = true -> Afqmcpy.psi_hist s = Some h ->
  0 < Afqmcpy.nprop_tot st < Z.of_nat (length h) ->
  Afqmcpy.nback_prop st <> 0 -> step mod Afqmcpy.nback_prop st = 0 ->
  Afqmcpy.nstblz st <> 0 ->
  let bp_step := (step - 1) mod Afqmcpy.nprop_tot st in
  exists s1 s',
    Afqmcpy.walkers_phase st step (Afqmcpy.enter_step step s) = Return tt s1 /\
    Afqmcpy.do_qmc_step st step s = Raise NameError s' /\
    Afqmcpy.trace s' =
      Afqmcpy.trace s1
      ++ [Afqmcpy.HistWrite (Z.to_nat (bp_step + 1)) (Afqmcpy.psi s1);
          Afqmcpy.BackPropagate
            (py_slice (length h) (bp_step - Afqmcpy.nback_prop st + 1 + 1) (bp_step + 1 + 1))].
Proof.
  intros B Eh Hp Hnb Hz N1. cbn zeta. unfold Afqmcpy.do_qmc_step. rewrite bind_modify.
  destruct (AfqmcpyFacts.walkers_phase_total st step (Afqmcpy.enter_step step s))
    as (s1 & E1); [now left|].
  exists s1. rewrite (bind_eq _ _ _ _ _ E1).
  assert (Afqmcpy.psi_hist s1 = Some h) as Eh1.
  { apply AfqmcpyFacts.walkers_phase_Return in E1 as (l1 & s1' & Hw & ->).
    apply AfqmcpyFacts.for_walkers_Return in Hw as ((_ & F2 & _) & _).
    cbn. rewrite F2. exact Eh. }
  pose proof (Z.mod_pos_bound (step - 1) (Afqmcpy.nprop_tot st) ltac:(lia)) as Hm.
  unfold Afqmcpy.back_propagation_phase.
  rewrite bind_assoc, bind_py_mod by lia. rewrite B, bind_when_true.
  unfold Afqmcpy.hist_write. rewrite !bind_assoc, bind_get, Eh1.
  assert (0 <= (step - 1) mod Afqmcpy.nprop_tot st + 1 < Z.of_nat (length h)) as Hslot by lia.
  rewrite !bind_assoc, (bind_eq _ _ _ _ _ (py_index_nonneg _ _ s1 Hslot)).
  rewrite bind_modify, bind_assoc, bind_py_mod by assumption.
  rewrite Hz. cbn [Z.eqb]. rewrite bind_when_true.
  unfold Afqmcpy.call_back_propagate. rewrite !bind_assoc, bind_get.
  cbn [Afqmcpy.psi_hist Afqmcpy.log Afqmcpy.set_psi_hist].
  destruct (Afqmcpy.back_propagate _ _) as [pl wd]. rewrite bind_modify.
  eexists. split; [exact E1|]. split; [reflexivity|].
  cbn. rewrite length_insert, <- app_assoc. reflexivity.
Qed.

(** With blocks of 3 and a depth of 2, at step 4 the start of the path is
    [s = -1]: the columns read at line 68 are then the slots 0 and 1, slot
    0 included, where the comment of lines 60-66 promises the slots
    [s+1, ..., e] after slot 0. *)
Lemma back_propagation_window_at_negative_start :
  py_slice 4 ((4 - 1) mod 3 - 2 + 1 + 1) ((4 - 1) mod 3 + 1 + 1) = [0; 1]%nat.
Proof. reflexivity. Qed.

(** C2: the code does not do what the claim says.  With back-propagation
    enabled [do_qmc] raises [UnboundLocalError] at line 25, where the
    local [psi_hist] is subscripted before it has a value: no step is
    entered and the store is as on entry.  And in no run of [do_qmc],
    with or without back-propagation, returning or raising, is a
    snapshot of the population written to the history buffer or the
    back-propagation called on its slots. *)
Theorem history_buffer_is_never_used `{EA : Afqmcpy.Env} (st : Afqmcpy.State)
    (s : Afqmcpy.store) :
  (Afqmcpy.back_propagation st = true ->
     Afqmcpy.do_qmc st s = Raise UnboundLocalError s) /\
  (exists evs, Afqmcpy.trace (final (Afqmcpy.do_qmc st s)) = Afqmcpy.trace s ++ evs /\
     (forall k snap, ~ In (Afqmcpy.HistWrite k snap) evs) /\
     (forall slots, ~ In (Afqmcpy.BackPropagate slots) evs)).
Proof.
  split.
  - intros B. unfold Afqmcpy.do_qmc, Afqmcpy.prologue. rewrite B. reflexivity.
  - destruct (AfqmcpyFacts.do_qmc_no_history_events st s) as (evs & T & A).
    exists evs. split; [exact T|]. rewrite List.Forall_forall in A.
    split; intros; intros Hin; apply A in Hin; discriminate.
Qed.

Lemma history_buffer_is_never_used_witness :
  @Afqmcpy.do_qmc Examples.afqmcpy_env Examples.state_bp_4_2 Examples.afqmcpy_store
  = Raise UnboundLocalError Examples.afqmcpy_store.
Proof.
  exact (proj1 (@history_buffer_is_never_used Examples.afqmcpy_env Examples.state_bp_4_2
                  Examples.afqmcpy_store) eq_refl).
Defined.

(** ** C10: [find_uhf_wfn] and [system.U] *)

(** A run of the search that succeeds: with energies that are all [0],
    the first SCF cycle of the first attempt converges at once. *)
Lemma self_consistant_example :
  @TrialWavefunction.self_consistant Examples.uhf_env 0 0 tt tt tt tt 1e-8 = true.
Proof.
  unfold TrialWavefunction.self_consistant.
  cbn [TrialWavefunction.mean_abs_diff Examples.uhf_env].
  assert (0 < sqrt 1e-8)%R as Hs by (apply sqrt_lt_R0; lra).
  rewrite Rminus_diag, Rabs_R0.
  assert (TrialWavefunction.Rltb 0 1e-8 = true) as ->
    by (apply TrialWavefunctionFacts.Rltb_true; lra).
  assert (TrialWavefunction.Rltb 0 (sqrt 1e-8) = true) as ->
    by (now apply TrialWavefunctionFacts.Rltb_true).
  reflexivity.
Qed.

Lemma find_uhf_wfn_example :
  exists r, @TrialWavefunction.find_uhf_wfn Examples.uhf_env tt false 0.4 1 1 0.5 1e-8
              Examples.uhf_store = Return r Examples.uhf_store.
Proof.
  unfold TrialWavefunction.find_uhf_wfn, mbind, M_bind, Py.bind, Py.gets, Py.modify.
  change (py_range 0 1) with [0]. cbn [TrialWavefunction.attempts].
  unfold TrialWavefunction.attempt_body, mbind, M_bind, Py.bind, Py.get, Py.modify.
  cbn [TrialWavefunction.initialise Examples.uhf_env TrialWavefunction.rng Examples.uhf_store
       TrialWavefunction.set_system_U TrialWavefunction.set_rng].
  change (py_range 0 1) with [0].
  cbn [TrialWavefunction.scf_cycle TrialWavefunction.diagonalise_mean_field Examples.uhf_env].
  unfold mbind, M_bind, Py.bind, Py.gets.
  cbn [TrialWavefunction.energy Examples.uhf_env TrialWavefunction.eold TrialWavefunction.niup
       TrialWavefunction.nidown TrialWavefunction.niup_old TrialWavefunction.nidown_old
       TrialWavefunction.density_up TrialWavefunction.density_down].
  rewrite self_consistant_example.
  unfold TrialWavefunction.accept.
  cbn [Z.eqb orb TrialWavefunction.minima TrialWavefunction.psi_accept
       TrialWavefunction.e_accept TrialWavefunction.it TrialWavefunction.enew
       TrialWavefunction.nav TrialWavefunction.e_up_down].
  unfold mret, M_ret, Py.ret.
  cbn [TrialWavefunction.it TrialWavefunction.minima TrialWavefunction.psi_accept
       TrialWavefunction.e_accept TrialWavefunction.nav TrialWavefunction.py_min app].
  unfold mret, M_ret, Py.ret. cbn [TrialWavefunction.system_U]. eexists. reflexivity.
Qed.

(** C10: [find_uhf_wfn] sets [system.U] back to its value on entry before
    it returns, and also before it raises for want of a minimum (the
    no-wavefunction-found path): the search leaves the interaction
    strength of the system as it found it. *)
Theorem find_uhf_wfn_restores_U `{EU : TrialWavefunction.Env}
    sys cplx ueff ninit nit_max alpha deps (s : TrialWavefunction.store) :
  (forall r s', TrialWavefunction.find_uhf_wfn sys cplx ueff ninit nit_max alpha deps s
                = Return r s' ->
                TrialWavefunction.system_U s' = TrialWavefunction.system_U s) /\
  (forall s', TrialWavefunction.find_uhf_wfn sys cplx ueff ninit nit_max alpha deps s
              = Raise ValueError s' ->
              TrialWavefunction.system_U s' = TrialWavefunction.system_U s).
Proof.
  pose proof (TrialWavefunctionFacts.find_uhf_wfn_outcome sys cplx ueff ninit nit_max alpha deps s)
    as (_ & Ho & _). cbn zeta in Ho.
  split.
  - intros r s' E. rewrite E in Ho. apply Ho.
  - intros s' E. rewrite E in Ho. exact Ho.
Qed.

Lemma find_uhf_wfn_restores_U_witness :
  exists r s', @TrialWavefunction.find_uhf_wfn Examples.uhf_env tt false 0.4 1 1 0.5 1e-8
                 Examples.uhf_store = Return r s' /\
               TrialWavefunction.system_U s' = 4%R.
Proof.
  destruct find_uhf_wfn_example as (r & E).
  exists r, Examples.uhf_store. split; [exact E|].
  exact (proj1 (@find_uhf_wfn_restores_U Examples.uhf_env tt false 0.4 1 1 0.5 1e-8
                  Examples.uhf_store)%R r _ E).
Defined.

(** ** C8: a failed UHF search *)

(** X18: the search never returns with its error flag set and never
    issues its warning: the [except] branch of [find_uhf_wfn] is dead. *)
Lemma error_flag_never_set `{EU : TrialWavefunction.Env}
    sys cplx ueff ninit nit_max alpha deps (s : TrialWavefunction.store) :
  let o := TrialWavefunction.find_uhf_wfn sys cplx ueff ninit nit_max alpha deps s in
  TrialWavefunction.trace (final o) = TrialWavefunction.trace s /\
  forall r s', o = Return r s' -> TrialWavefunction.r_error r = false.
Proof.
  pose proof (TrialWavefunctionFacts.find_uhf_wfn_outcome sys cplx ueff ninit nit_max alpha deps s)
    as (T & Ho & _). cbn zeta in *. split; [exact T|].
  intros r s' E. rewrite E in Ho. apply Ho.
Qed.

(** X19: [UHF.__init__] therefore never issues its own warning and never
    calls [sys.exit()], whatever the options and whether or not the run
    is parallel. *)
Lemma UHF_init_never_exits `{EU : TrialWavefunction.Env}
    sys cplx opts parallel (s : TrialWavefunction.store) :
  let o := TrialWavefunction.UHF_init sys cplx opts parallel s in
  TrialWavefunction.trace (final o) = TrialWavefunction.trace s /\
  raised o <> Some SystemExit.
Proof.
  cbn zeta. unfold TrialWavefunction.UHF_init. cbn zeta.
  match goal with |- context [TrialWavefunction.find_uhf_wfn ?a ?b ?c ?d ?nit ?f ?g] =>
    pose proof (TrialWavefunctionFacts.find_uhf_wfn_outcome a b c d nit f g s) as (T & Ho & _);
    cbn zeta in T, Ho;
    destruct (TrialWavefunction.find_uhf_wfn a b c d nit f g s) as [r s1|e s1] eqn:E
  end.
  - rewrite (bind_eq _ _ _ _ _ E). destruct Ho as (_ & ->). cbn [andb].
    rewrite bind_gets. cbn. split; [exact T|discriminate].
  - rewrite (bind_raise _ _ _ _ _ E). cbn. split; [exact T|].
    destruct e; try contradiction; discriminate.
Qed.

(** C8 at the failing input: when the options ask for [deps <= 0] no SCF
    cycle can pass the convergence test, so the search finds no
    wavefunction; [UHF.__init__] then raises the [ValueError] of
    [min(minima)] at line 247, whether the run is parallel or not, and no
    warning is issued. *)
Theorem uhf_search_failure_raises_ValueError `{EU : TrialWavefunction.Env}
    sys cplx opts parallel (s : TrialWavefunction.store) (d : R) :
  TrialWavefunction.opt_deps opts = Some d ->
  (d <= 0)%R ->
  0 < default 5000 (TrialWavefunction.opt_nconv opts) ->
  exists s', TrialWavefunction.UHF_init sys cplx opts parallel s = Raise ValueError s' /\
             TrialWavefunction.trace s' = TrialWavefunction.trace s /\
             TrialWavefunction.system_U s' = TrialWavefunction.system_U s.
Proof.
  intros Hd Hle Hn. unfold TrialWavefunction.UHF_init. cbn zeta. rewrite Hd. cbn [default].
  match goal with |- context [TrialWavefunction.find_uhf_wfn ?a ?b ?c ?n ?nit ?f ?g] =>
    pose proof (TrialWavefunctionFacts.find_uhf_wfn_outcome a b c n nit f g s) as (T & Ho & Hf)
  end.
  cbn zeta in *. destruct (Hf Hle Hn) as (s' & E). rewrite E in T, Ho.
  exists s'. rewrite (bind_raise _ _ _ _ _ E). auto.
Qed.

Lemma uhf_search_failure_raises_ValueError_witness :
  exists s', @TrialWavefunction.UHF_init Examples.uhf_env tt false Examples.uhf_opts_deps0 true
               Examples.uhf_store = Raise ValueError s' /\
             TrialWavefunction.trace s' = [].
Proof.
  destruct (@uhf_search_failure_raises_ValueError Examples.uhf_env tt false
              Examples.uhf_opts_deps0 true Examples.uhf_store 0%R eq_refl
              (Rle_refl 0) eq_refl) as (s' & E & T & _).
  exists s'. split; [exact E|exact T].
Defined.

(** ** C9: [determine_dtype] *)

(** C9, as stated, fails.  Without a twist the system holds
    [ktwist = numpy.array(None)], an array of dtype [object]; its [all()]
    is [None], the test [is not None] is false, and with the default
    discrete Hubbard-Stratonovich transformation [determine_dtype]
    returns [False]. *)
Lemma determine_dtype_no_twist_discrete :
  Pauxy.determine_dtype ∅ (Pauxy.mkSystem (Pauxy.ObjectArray [Pauxy.PyNone])) = false.
Proof. reflexivity. Qed.

(** C9, amended: for every propagator options dictionary and every system
    whose [ktwist] is an array of floats, [determine_dtype] returns
    [True], whatever the entries of the array and whether or not the
    options ask for a continuous transformation; in general it returns
    [True] exactly when the options name a continuous transformation or
    [ktwist.all()] is not [None]. *)
Theorem determine_dtype_float_ktwist (propagator : gmap string string) (l : list R) :
  Pauxy.determine_dtype propagator (Pauxy.mkSystem (Pauxy.FloatArray l)) = true /\
  forall system,
    Pauxy.determine_dtype propagator system =
    Pauxy.contains "continuous"
      (default "discrete"%string (propagator !! "hubbard_stratonovich"%string))
    || Pauxy.is_not_None (Pauxy.ndarray_all (Pauxy.ktwist system)).
Proof.
  split; [|reflexivity]. unfold Pauxy.determine_dtype. cbn. apply orb_true_r.
Qed.

(** * Further properties of the embedded code *)

(** ** [AFQMC.run]: loop bounds and error behaviour *)

Lemma run_enters_steps_1_to_nsteps_witness :
  exists s', @Pauxy.run Examples.pauxy_env Examples.afqmc None true Examples.pauxy_store
             = Return tt s' /\
             Pauxy.steps s' = [1; 2; 3; 4; 5; 6; 7; 8; 9; 10].
Proof.
  destruct (@run_enters_steps_1_to_nsteps Examples.pauxy_env Examples.afqmc None true
              Examples.pauxy_store) as (s' & E & St);
    try discriminate; try (cbn; lia).
  exists s'. split; [exact E|exact St].
Defined.

Lemma bind_py_mod_zero {S B} (a : Z) (k : Z -> M S B) (s : S) :
  (py_mod a 0 ≫= k) s = Raise ZeroDivisionError s.
Proof. reflexivity. Qed.

Lemma py_range_cons lo hi : lo < hi -> py_range lo hi = lo :: py_range (lo + 1) hi.
Proof.
  intros Hlt. unfold py_range.
  replace (Z.to_nat (hi - lo)) with (S (Z.to_nat (hi - (lo + 1)))) by lia.
  cbn [seq map]. f_equal; [lia|].
  rewrite <- seq_shift, map_map. apply map_ext. intros k. lia.
Qed.

(** A step of [AFQMC.run] one of whose cadences is zero raises
    [ZeroDivisionError], after the pass over the walkers. *)
Lemma run_step_zero_cadence `{EP : Pauxy.Env} (self : Pauxy.AFQMC) step (s : Pauxy.store) :
  Pauxy.nstblz (Pauxy.qmc self) = 0 \/ Pauxy.nupdate_shift (Pauxy.qmc self) = 0 \/
  Pauxy.nmeasure (Pauxy.qmc self) = 0 \/ Pauxy.npop_control (Pauxy.qmc self) = 0 ->
  exists s', Pauxy.run_step self step s = Raise ZeroDivisionError s' /\
             Pauxy.steps s' = Pauxy.steps s ++ [step].
Proof.
  intros Hz. unfold Pauxy.run_step. rewrite bind_modify.
  destruct (PauxyFacts.run_walkers_phase_total self (Pauxy.enter_step step s))
    as (s1 & E1 & (_ & _ & F3) & _).
  cbn [Pauxy.steps Pauxy.enter_step] in F3.
  rewrite (bind_eq _ _ _ _ _ E1). unfold Pauxy.call. rewrite bind_modify.
  destruct (Z.eq_dec (Pauxy.nstblz (Pauxy.qmc self)) 0) as [Z1|N1].
  { rewrite Z1, bind_py_mod_zero. eexists. split; [reflexivity|exact F3]. }
  rewrite bind_py_mod by assumption.
  destruct (step mod Pauxy.nstblz (Pauxy.qmc self) =? 0);
    rewrite ?bind_when_true, ?bind_when_false, ?bind_modify.
  all: destruct (Z.eq_dec (Pauxy.nupdate_shift (Pauxy.qmc self)) 0) as [Z2|N2];
    [rewrite Z2, bind_py_mod_zero; eexists; split; [reflexivity|exact F3]|].
  all: rewrite bind_py_mod by assumption.
  all: destruct (step mod Pauxy.nupdate_shift (Pauxy.qmc self) =? 0);
    rewrite ?bind_when_true, ?bind_when_false, ?bind_modify.
  all: destruct (Z.eq_dec (Pauxy.nmeasure (Pauxy.qmc self)) 0) as [Z3|N3];
    [rewrite Z3, bind_py_mod_zero; eexists; split; [reflexivity|exact F3]|].
  all: rewrite bind_py_mod by assumption.
  all: destruct (step mod Pauxy.nmeasure (Pauxy.qmc self) =? 0);
    rewrite ?bind_when_true, ?bind_when_false, ?bind_modify.
  all: destruct (step <? Pauxy.nequilibrate (Pauxy.qmc self));
    rewrite ?bind_when_true, ?bind_when_false, ?bind_modify.
  all: assert (Pauxy.npop_control (Pauxy.qmc self) = 0) as Z4 by tauto.
  all: rewrite Z4; unfold py_mod; cbn [Z.eqb].
  all: eexists; split; [reflexivity|exact F3].
Qed.

(** X2: [AFQMC.run] on an empty population raises the [IndexError] of
    [self.psi.walkers[0]] before any estimator is touched and before the
    first step, and so does [do_qmc] with its [psi[0]]. *)
Theorem empty_population_raises_IndexError `{EP : Pauxy.Env} `{EA : Afqmcpy.Env}
    (self : Pauxy.AFQMC) psi verbose (sP : Pauxy.store)
    (st : Afqmcpy.State) (sA : Afqmcpy.store) :
  default (Pauxy.walkers sP) psi = [] ->
  Afqmcpy.psi sA = [] ->
  Afqmcpy.back_propagation st = false ->
  (exists sP', Pauxy.run self psi verbose sP = Raise IndexError sP' /\
               Pauxy.trace sP' = Pauxy.trace sP /\ Pauxy.steps sP' = Pauxy.steps sP) /\
  (exists sA', Afqmcpy.do_qmc st sA = Raise IndexError sA' /\
               Afqmcpy.trace sA' = Afqmcpy.trace sA /\ Afqmcpy.steps sA' = Afqmcpy.steps sA).
Proof.
  intros HP HA Hb. split.
  - unfold Pauxy.run. destruct psi as [l|]; cbn in HP.
    + subst l. rewrite bind_modify, bind_gets. cbn. eauto.
    + rewrite bind_mret, bind_gets, HP. cbn. eauto.
  - unfold Afqmcpy.do_qmc, Afqmcpy.prologue. rewrite Hb.
    rewrite !bind_assoc, bind_modify, bind_assoc, bind_gets.
    cbn [Afqmcpy.psi Afqmcpy.set_psi_hist]. rewrite HA. cbn. eauto.
Qed.

Lemma empty_population_raises_IndexError_witness :
  exists sP', @Pauxy.run Examples.pauxy_env Examples.afqmc (Some []) true Examples.pauxy_store
              = Raise IndexError sP'.
Proof.
  destruct (@empty_population_raises_IndexError Examples.pauxy_env Examples.afqmcpy_env
              Examples.afqmc (Some []) true Examples.pauxy_store Examples.state_plain
              (@Afqmcpy.entry Examples.afqmcpy_env [] tt) eq_refl eq_refl eq_refl)
    as ((sP' & E & _) & _).
  exists sP'. exact E.
Defined.

(** X3: a cadence of [AFQMC.run] set to zero does not switch the
    corresponding action off: as soon as there is a step to run and a
    walker, [run] raises [ZeroDivisionError] in step 1 and enters no other
    step. *)
Theorem zero_cadence_aborts_run `{EP : Pauxy.Env}
    (self : Pauxy.AFQMC) psi verbose (s : Pauxy.store) :
  default (Pauxy.walkers s) psi <> [] ->
  1 <= Pauxy.nsteps (Pauxy.qmc self) ->
  Pauxy.nstblz (Pauxy.qmc self) = 0 \/ Pauxy.nupdate_shift (Pauxy.qmc self) = 0 \/
  Pauxy.nmeasure (Pauxy.qmc self) = 0 \/ Pauxy.npop_control (Pauxy.qmc self) = 0 ->
  exists s', Pauxy.run self psi verbose s = Raise ZeroDivisionError s' /\
             Pauxy.steps s' = Pauxy.steps s ++ [1].
Proof.
  intros Hne Hn Hz. unfold Pauxy.run.
  assert (exists s0, (match psi with
                      | Some l => Py.modify (Pauxy.set_walkers l)
                      | None => mret tt
                      end : M Pauxy.store unit) s = Return tt s0 /\
                     Pauxy.walkers s0 = default (Pauxy.walkers s) psi /\
                     Pauxy.steps s0 = Pauxy.steps s) as (s0 & E0 & W0 & S0).
  { destruct psi; eexists; split; try reflexivity; split; reflexivity. }
  rewrite (bind_eq _ _ _ _ _ E0), bind_gets, W0.
  destruct (default (Pauxy.walkers s) psi) as [|w0 l]; [contradiction|].
  rewrite bind_modify. unfold Pauxy.call. rewrite bind_modify.
  rewrite py_range_cons by lia. cbn [for_each].
  change (Py.bind ?m ?k) with (m ≫= k).
  destruct (verbose && Pauxy.root self);
    rewrite ?bind_when_true, ?bind_when_false, ?bind_modify.
  all: match goal with |- context [(Pauxy.run_step ?sf 1 ≫= _) ?s1] =>
         destruct (run_step_zero_cadence sf 1 s1 Hz) as (s' & E & St);
         rewrite (bind_raise _ _ _ _ _ E); exists s'; split; [reflexivity|];
         rewrite St; cbn; now rewrite S0
       end.
Qed.

Lemma zero_cadence_aborts_run_witness :
  exists s', @Pauxy.run Examples.pauxy_env
               (Pauxy.mkAFQMC (Pauxy.mkQMCOpts 10 0.01 0 5 5 10 5) false true)
               None true Examples.pauxy_store = Raise ZeroDivisionError s' /\
             Pauxy.steps s' = [1].
Proof.
  apply (@zero_cadence_aborts_run Examples.pauxy_env
           (Pauxy.mkAFQMC (Pauxy.mkQMCOpts 10 0.01 0 5 5 10 5) false true)
           None true Examples.pauxy_store).
  - discriminate.
  - cbn. lia.
  - left. reflexivity.
Defined.

(** ** The weight of a walker that is not propagated *)






(** ** [do_qmc]: ITCF without back-propagation *)

Lemma py_range_app lo mid hi :
  lo <= mid <= hi -> py_range lo hi = py_range lo mid ++ py_range mid hi.
Proof.
  intros H. unfold py_range.
  replace (Z.to_nat (hi - lo)) with (Z.to_nat (mid - lo) + Z.to_nat (hi - mid))%nat by lia.
  rewrite seq_app, map_app. f_equal. cbn [Nat.add].
  generalize (Z.to_nat (hi - mid)). intros n.
  assert (G : forall a, map (fun k => lo + Z.of_nat k) (seq (Z.to_nat (mid - lo) + a) n) =
                        map (fun k => mid + Z.of_nat k) (seq a n)).
  { induction n as [|n IH]; intros a; cbn [seq map]; [reflexivity|].
    f_equal; [lia|]. rewrite <- IH. f_equal. f_equal. lia. }
  specialize (G 0%nat). rewrite Nat.add_0_r in G. exact G.
Qed.

Module AfqmcpyMore.
Import Afqmcpy.

Section Facts.
Context `{Env}.

(** A step in which neither the back-propagation nor the ITCF path is
    taken returns. *)
Lemma do_qmc_step_plain (st : State) step s :
  back_propagation st = false -> itcf_fires st step = false ->
  nstblz st <> 0 -> nprop_tot st <> 0 -> nmeasure st <> 0 -> npop_control st <> 0 ->
  exists s', do_qmc_step st step s = Return tt s' /\ steps s' = steps s ++ [step].
Proof.
  intros B I N1 N2 N3 N4. unfold do_qmc_step. rewrite bind_modify.
  destruct (AfqmcpyFacts.walkers_phase_total st step (enter_step step s)) as (s1 & E1);
    [now left|].
  rewrite (bind_eq _ _ _ _ _ E1).
  assert (steps s1 = steps s ++ [step]) as S1.
  { apply AfqmcpyFacts.walkers_phase_Return in E1 as (l1 & s1' & Hw & ->).
    apply AfqmcpyFacts.for_walkers_Return in Hw as ((_ & _ & _ & _ & _ & _ & F7) & _).
    exact F7. }
  unfold back_propagation_phase. rewrite bind_assoc, bind_py_mod by assumption.
  rewrite B, bind_when_false.
  unfold itcf_phase. unfold itcf_fires in I.
  assert (exists fire, (if calc_itcf st
                        then r ← py_mod step (nprop_tot st); mret (r =? 0)
                        else mret false) s1 = Return fire s1 /\ fire = false) as (fire & E & ->).
  { destruct (calc_itcf st); cbn [andb] in I.
    - rewrite bind_py_mod by assumption. rewrite I. eexists. split; reflexivity.
    - eexists. split; reflexivity. }
  rewrite bind_assoc, (bind_eq _ _ _ _ _ E), bind_when_false.
  unfold measure_phase. rewrite bind_assoc, bind_py_mod by assumption.
  assert (exists s2, when (step mod nmeasure st =? 0)
            (E ← Py.gets (fun s => eproj (world s));
             Py.modify (fun s => log (Eproj E) (set_E_T E s));;
             call (PrintStep step)) s1 = Return tt s2 /\
            steps s2 = steps s1) as (s2 & E2 & S2).
  { destruct (step mod nmeasure st =? 0); eexists; split; reflexivity. }
  rewrite (bind_eq _ _ _ _ _ E2).
  rewrite (bind_eq _ _ _ _ _ (AfqmcpyFacts.equilibration_phase_eq st step s2)).
  unfold pop_control_phase. rewrite bind_py_mod by assumption.
  destruct (step mod npop_control st =? 0), (step <? nequilibrate st); unfold when.
  all: eexists; split; [reflexivity|].
  all: try destruct (comb _ _ _ _) as [[l h] wd].
  all: cbn; congruence.
Qed.

(** The step in which the ITCF path fires raises [NameError], after the
    pass over the walkers and before anything else is called. *)
Lemma do_qmc_step_itcf_NameError (st : State) step s :
  back_propagation st = false -> itcf_fires st step = true ->
  nstblz st <> 0 -> nprop_tot st <> 0 ->
  exists s', do_qmc_step st step s = Raise NameError s' /\
    steps s' = steps s ++ [step] /\
    exists evs, trace s' = trace s ++ evs /\ Forall (fun ev => walker_event ev = true) evs.
Proof.
  intros B I N1 N2. unfold do_qmc_step. rewrite bind_modify.
  destruct (AfqmcpyFacts.walkers_phase_total st step (enter_step step s)) as (s1 & E1);
    [now left|].
  rewrite (bind_eq _ _ _ _ _ E1).
  apply AfqmcpyFacts.walkers_phase_Return in E1 as (l1 & s1' & Hw & ->).
  apply AfqmcpyFacts.for_walkers_Return in Hw
    as ((_ & _ & _ & _ & _ & _ & F7) & _ & evs & T & A & _).
  cbn [trace steps enter_step] in T, F7.
  unfold back_propagation_phase. rewrite bind_assoc, bind_py_mod by assumption.
  rewrite B, bind_when_false.
  unfold itcf_phase. unfold itcf_fires in I.
  apply andb_true_iff in I as [Ic Im]. rewrite Ic.
  rewrite !bind_assoc, bind_py_mod by assumption. rewrite bind_mret, Im.
  rewrite bind_when_true.
  eexists. split; [reflexivity|]. split; [exact F7|]. exists evs. split; [exact T|exact A].
Qed.

Lemma for_each_until_itcf (st : State) (l : list Z) :
  back_propagation st = false ->
  nstblz st <> 0 -> nprop_tot st <> 0 -> nmeasure st <> 0 -> npop_control st <> 0 ->
  forall K rest s,
  (forall k, In k l -> itcf_fires st k = false) -> itcf_fires st K = true ->
  exists s', for_each (l ++ K :: rest) (do_qmc_step st) s = Raise NameError s' /\
    steps s' = steps s ++ l ++ [K].
Proof.
  intros B N1 N2 N3 N4. induction l as [|k l IH]; intros K rest s Hl HK; cbn [app for_each].
  - destruct (do_qmc_step_itcf_NameError st K s B HK N1 N2) as (s' & E & St & _).
    exists s'. change (Py.bind ?m ?k) with (m ≫= k).
    now rewrite (bind_raise _ _ _ _ _ E).
  - destruct (do_qmc_step_plain st k s B (Hl k (or_introl eq_refl)) N1 N2 N3 N4)
      as (s1 & E1 & S1).
    destruct (IH K rest s1) as (s' & E' & S'); [intros; apply Hl; now right|assumption|].
    exists s'. change (Py.bind ?m ?k) with (m ≫= k).
    rewrite (bind_eq _ _ _ _ _ E1). split; [exact E'|].
    rewrite S', S1, <- app_assoc. reflexivity.
Qed.

(** X5: with ITCF enabled and back-propagation disabled [do_qmc] cannot
    get past the first block: the ITCF path that fires at step
    [nprop_tot] looks up [estimates], which is bound nowhere, and raises
    [NameError]; the steps entered are [1, ..., nprop_tot]. *)
Theorem itcf_without_back_propagation_fails (st : State) (s : store) :
  back_propagation st = false -> calc_itcf st = true ->
  0 < nprop_tot st < nsteps st ->
  nstblz st <> 0 -> nmeasure st <> 0 -> npop_control st <> 0 ->
  psi s <> [] ->
  exists s', do_qmc st s = Raise NameError s' /\
    steps s' = steps s ++ py_range 1 (nprop_tot st + 1).
Proof.
  intros B I Hn N1 N3 N4 Hne. unfold do_qmc, prologue. rewrite B.
  rewrite !bind_assoc, bind_modify, bind_assoc, bind_gets. cbn [psi set_psi_hist].
  destruct (psi s) as [|w0 l] eqn:Ep; [contradiction|].
  rewrite !bind_assoc, bind_modify, bind_assoc.
  match goal with |- context [(for_each ?l0 ?f ≫= _) ?s0] =>
    destruct (AfqmcpyFacts.for_each_call_steps l0 (fun iw => EstimatorsUpdate iw.1 iw.2) s0)
      as (s2 & E & S2 & _)
  end.
  rewrite (bind_eq _ _ _ _ _ E). unfold call. rewrite bind_modify.
  rewrite (py_range_app 1 (nprop_tot st) (nsteps st)) by lia.
  rewrite (py_range_cons (nprop_tot st) (nsteps st)) by lia.
  match goal with |- context [for_each _ _ ?s3] =>
    destruct (for_each_until_itcf st (py_range 1 (nprop_tot st)) B N1 ltac:(lia) N3 N4
                (nprop_tot st) (py_range (nprop_tot st + 1) (nsteps st)) s3)
      as (s' & E' & S')
  end.
  - intros k Hk. apply py_range_In in Hk. unfold itcf_fires. rewrite I. cbn [andb].
    apply Z.eqb_neq. rewrite Z.mod_small by lia. lia.
  - unfold itcf_fires. rewrite I. cbn [andb]. apply Z.eqb_eq. apply Z_mod_same_full.
  - exists s'. split; [exact E'|]. rewrite S'. cbn [steps log set_world].
    rewrite S2. cbn [steps set_qmc_mean_local_energy set_E_T set_psi_hist]. f_equal.
    rewrite (py_range_app 1 (nprop_tot st) (nprop_tot st + 1)) by lia.
    rewrite (py_range_cons (nprop_tot st) (nprop_tot st + 1)) by lia.
    replace (py_range (nprop_tot st + 1) (nprop_tot st + 1)) with (@nil Z)
      by (unfold py_range; now rewrite Z.sub_diag).
    reflexivity.
Qed.

End Facts.
End AfqmcpyMore.

Lemma itcf_without_back_propagation_fails_witness :
  exists s', Afqmcpy.do_qmc Examples.state_itcf_only Examples.afqmcpy_store =
             Raise NameError s' /\
    Afqmcpy.steps s' = [1; 2; 3; 4].
Proof.
  destruct (AfqmcpyMore.itcf_without_back_propagation_fails
              Examples.state_itcf_only Examples.afqmcpy_store)
    as (s' & E & S); try reflexivity; try (cbn; lia); try discriminate.
  exists s'. split; [exact E|exact S].
Defined.

(** ** [MultiDeterminant.__init__]: the blocks read from the orbital file *)

Module MultiDeterminantFacts.
Import MultiDeterminant.

Section Facts.
Context {S A : Type}.

(** The [i]-th block of [skip] coefficients. *)
Lemma slice_block (orbitals : list A) (skip i : nat) :
  ((i + 1) * skip <= length orbitals)%nat ->
  slice orbitals (Z.of_nat i * Z.of_nat skip) ((Z.of_nat i + 1) * Z.of_nat skip) =
  take skip (drop (i * skip) orbitals).
Proof.
  intros Hle. unfold slice, slice_bound.
  destruct (Z.ltb_spec (Z.of_nat i * Z.of_nat skip) 0) as [|_]; [lia|].
  destruct (Z.ltb_spec ((Z.of_nat i + 1) * Z.of_nat skip) 0) as [|_]; [lia|].
  rewrite !Z.min_l by lia. f_equal; [lia|]. f_equal. lia.
Qed.

Lemma slice_short (orbitals : list A) (skip i : nat) :
  (length orbitals < (i + 1) * skip)%nat ->
  (length (slice orbitals (Z.of_nat i * Z.of_nat skip) ((Z.of_nat i + 1) * Z.of_nat skip))
   < skip)%nat.
Proof.
  intros Hlt. unfold slice, slice_bound.
  destruct (Z.ltb_spec (Z.of_nat i * Z.of_nat skip) 0) as [|_]; [lia|].
  destruct (Z.ltb_spec ((Z.of_nat i + 1) * Z.of_nat skip) 0) as [|_]; [lia|].
  rewrite length_take, length_drop. lia.
Qed.

Lemma fill_outcome (orbitals : list A) (nbasis ne : nat) (s : S) :
  forall n i psi, length psi = (i + n)%nat -> (i * (nbasis * ne) <= length orbitals)%nat ->
  fill orbitals nbasis ne (Z.of_nat nbasis * Z.of_nat ne) (seq i n)
    (Z.of_nat i * (Z.of_nat nbasis * Z.of_nat ne))
    ((Z.of_nat i + 1) * (Z.of_nat nbasis * Z.of_nat ne)) psi s =
  if ((i + n) * (nbasis * ne) <=? length orbitals)%nat
  then Return (take i psi ++
               map (fun j => take (nbasis * ne) (drop (j * (nbasis * ne)) orbitals)) (seq i n)) s
  else Raise ValueError s.
Proof.
  induction n as [|n IH]; intros i psi Hlen Hi; cbn [seq fill].
  - rewrite Nat.add_0_r in *. cbn [map]. rewrite app_nil_r, take_ge by lia.
    destruct (Nat.leb_spec (i * (nbasis * ne)) (length orbitals)) as [Hle|Hgt]; [reflexivity|lia].
  - rewrite <- !(Nat2Z.inj_mul nbasis ne).
    unfold reshape.
    destruct (Nat.leb_spec ((i + 1) * (nbasis * ne)) (length orbitals)) as [Hle|Hgt].
    + rewrite slice_block by assumption.
      rewrite length_take, length_drop.
      replace (_ =? _)%nat with true by (symmetry; apply Nat.eqb_eq; lia).
      change (mret ?a ≫= ?k) with (k a).
      cbv beta.
      replace ((Z.of_nat i + 1) * Z.of_nat (nbasis * ne)) with
        (Z.of_nat (Datatypes.S i) * (Z.of_nat nbasis * Z.of_nat ne)) by lia.
      replace (Z.of_nat (Datatypes.S i) * (Z.of_nat nbasis * Z.of_nat ne) + Z.of_nat (nbasis * ne))
        with ((Z.of_nat (Datatypes.S i) + 1) * (Z.of_nat nbasis * Z.of_nat ne)) by lia.
      rewrite (Nat2Z.inj_mul nbasis ne).
      rewrite IH by (try rewrite length_insert; lia).
      replace (Datatypes.S i + n)%nat with (i + Datatypes.S n)%nat by lia.
      destruct (_ <=? _)%nat; [|reflexivity].
      f_equal. cbn [map]. rewrite cons_middle, app_assoc. f_equal.
      rewrite (take_S_r _ _ (take (nbasis * ne) (drop (i * (nbasis * ne)) orbitals))).
      * f_equal. apply take_insert_ge. lia.
      * apply list_lookup_insert_eq. lia.
    + pose proof (slice_short orbitals (nbasis * ne) i Hgt) as Hs.
      destruct (Nat.eqb_spec (length (slice orbitals (Z.of_nat i * Z.of_nat (nbasis * ne))
                                        ((Z.of_nat i + 1) * Z.of_nat (nbasis * ne))))
                             (nbasis * ne)) as [He|_]; [lia|].
      replace (_ <=? _)%nat with false by (symmetry; apply Nat.leb_gt; nia).
      reflexivity.
Qed.

Lemma concat_blocks (orbitals : list A) (skip n : nat) :
  concat (map (fun j => take skip (drop (j * skip) orbitals)) (seq 0 n)) =
  take (n * skip) orbitals.
Proof.
  induction n as [|n IH]; [reflexivity|].
  rewrite seq_S, map_app, concat_app, IH. cbn [map concat Nat.add]. rewrite app_nil_r.
  rewrite take_take_drop. f_equal. lia.
Qed.

(** X6: the loop of [MultiDeterminant.__init__] over the determinants
    returns exactly when the orbital file holds at least
    [ndets * nbasis * ne] coefficients; it then fills every one of the
    [ndets] entries of [self.psi] (no zero of the initial array is left),
    entry [i] with the coefficients [i * skip, ..., (i+1) * skip - 1], so
    that the entries laid end to end are the first [ndets * skip]
    coefficients and any further ones are ignored.  With fewer
    coefficients the [reshape] of a short slice raises [ValueError]. *)
Theorem load_determinants_outcome (zero : A) (orbitals : list A) (ndets nbasis ne : nat)
    (s : S) :
  let skip := (nbasis * ne)%nat in
  let psi := map (fun i => take skip (drop (i * skip) orbitals)) (seq 0 ndets) in
  load_determinants zero orbitals ndets nbasis ne s =
    (if (ndets * skip <=? length orbitals)%nat then Return psi s else Raise ValueError s) /\
  length psi = ndets /\
  concat psi = take (ndets * skip) orbitals.
Proof.
  cbn zeta. split; [|split].
  - unfold load_determinants.
    pose proof (fill_outcome orbitals nbasis ne s ndets 0
                  (replicate ndets (replicate (nbasis * ne) zero))) as F.
    change (Z.of_nat 0) with 0 in F. cbn [Nat.add take app] in F.
    rewrite Z.mul_0_l, Z.add_0_l, Z.mul_1_l in F.
    rewrite F; [reflexivity| |cbn; lia].
    now rewrite length_replicate.
  - now rewrite length_map, length_seq.
  - apply concat_blocks.
Qed.

End Facts.
End MultiDeterminantFacts.

(** ** [reblock.py]: what [main] does with the parsed command line *)

Module ReblockFacts.
Import Reblock.

Section Facts.
Context `{Env}.

Lemma getattr_Some (options : gmap string value) name v t :
  options !! name = Some v -> getattr options name t = (t, inl v).
Proof. intros E. unfold getattr. now rewrite E. Qed.

Lemma getattr_None (options : gmap string value) name t :
  options !! name = None -> getattr options name t = (t, inr AttributeError).
Proof. intros E. unfold getattr. now rewrite E. Qed.

Lemma bind_inl {A B} (m : run A) (k : A -> run B) t t' a :
  m t = (t', inl a) -> (m ≫= k) t = k a t'.
Proof. intros E. unfold mbind, run_bind, bind. now rewrite E. Qed.

Lemma bind_inr {A B} (m : run A) (k : A -> run B) t t' e :
  m t = (t', inr e) -> (m ≫= k) t = (t', inr e).
Proof. intros E. unfold mbind, run_bind, bind. now rewrite E. Qed.

Lemma from_parser_flag (options : gmap string value) name :
  from_parser options ->
  In name ["verbose"; "loops"; "tail"; "input"; "estimates"; "plot"]%string ->
  exists b, options !! name = Some (VBool b).
Proof.
  intros (Hdom & Hflag & _) Hin.
  destruct (proj2 (Hdom name)) as [v Hv].
  { unfold dests. cbn in Hin |- *. intuition. }
  destruct (Hflag name v Hin Hv) as [b ->]. eauto.
Qed.

Lemma from_parser_start_time (options : gmap string value) :
  from_parser options -> exists v, options !! "start_time"%string = Some v.
Proof.
  intros (Hdom & _). destruct (proj2 (Hdom "start_time"%string)) as [v Hv]; [now left|]. eauto.
Qed.

Lemma from_parser_filenames (options : gmap string value) :
  from_parser options ->
  options !! "filenames"%string = Some VNone \/
  exists f l, options !! "filenames"%string = Some (VList (f :: l)).
Proof.
  intros (Hdom & _ & _ & Hf).
  destruct (proj2 (Hdom "filenames"%string)) as [v Hv]; [cbn; intuition|].
  destruct (Hf v Hv) as [->|(f & l & ->)]; eauto.
Qed.

Lemma from_parser_no_start_iteration (options : gmap string value) :
  from_parser options -> options !! "start_iteration"%string = None.
Proof.
  intros (Hdom & _). destruct (options !! "start_iteration"%string) eqn:E; [|reflexivity].
  assert (In "start_iteration"%string dests) as Hin by (apply Hdom; eauto).
  cbn in Hin. intuition discriminate.
Qed.

(** [parse_args] with a namespace that has file names returns it. *)
Lemma parse_args_filenames args options f l t :
  argparse args = inl options ->
  options !! "filenames"%string = Some (VList (f :: l)) ->
  parse_args args t = (t, inl options).
Proof.
  intros Ea Ef. unfold parse_args. rewrite Ea.
  rewrite (bind_inl _ _ _ _ _ (getattr_Some _ _ _ _ Ef)). reflexivity.
Qed.

Lemma parse_args_no_filenames args options t :
  argparse args = inl options -> options !! "filenames"%string = Some VNone ->
  parse_args args t = (t ++ [PrintHelp], inr (SystemExit 1)).
Proof.
  intros Ea Ef. unfold parse_args. rewrite Ea.
  rewrite (bind_inl _ _ _ _ _ (getattr_Some _ _ _ _ Ef)). reflexivity.
Qed.

Lemma main_no_filenames args options t :
  argparse args = inl options -> options !! "filenames"%string = Some VNone ->
  main args t = (t ++ [PrintHelp], inr (SystemExit 1)).
Proof.
  intros Ea Ef. unfold main.
  now rewrite (bind_inr _ _ _ _ _ (parse_args_no_filenames _ _ _ Ea Ef)).
Qed.

(** X7: without [-f] the help is printed and the program exits with
    status 1 before any analysis is called, whatever the other options
    are. *)
Theorem no_filenames_exits_with_status_1 (args : list string) (options : gmap string value)
    (t : list event) :
  argparse args = inl options ->
  options !! "filenames"%string = Some VNone ->
  parse_args args t = (t ++ [PrintHelp], inr (SystemExit 1)) /\
  main args t = (t ++ [PrintHelp], inr (SystemExit 1)).
Proof.
  intros Ea Ef.
  split; [now apply (parse_args_no_filenames args options)|
          now apply (main_no_filenames args options)].
Qed.

(** The three modes that do not need [start_iteration]. *)
Lemma main_estimates args options f l start loops p t :
  argparse args = inl options ->
  options !! "filenames"%string = Some (VList (f :: l)) ->
  options !! "estimates"%string = Some (VBool true) ->
  options !! "start_time"%string = Some start ->
  options !! "loops"%string = Some loops ->
  options !! "plot"%string = Some (VBool p) ->
  main args t =
  (t ++ (if has_star f then [Glob f] else []) ++
     [AnalyseEstimates (if has_star f then glob f else f :: l) start loops] ++
     (if p then [Subplots] else []),
   if p then inr UnboundLocalError else inl tt).
Proof.
  intros Ea Ef Ee Es El Epl. unfold main.
  rewrite (bind_inl _ _ _ _ _ (parse_args_filenames _ _ _ _ _ Ea Ef)).
  rewrite (bind_inl _ _ _ _ _ (getattr_Some _ _ _ _ Ee)). cbn [truthy].
  rewrite (bind_inl _ _ _ _ _ (getattr_Some _ _ _ _ Ef)).
  rewrite (bind_inl (first_filename (VList (f :: l))) _ t t (f, f :: l) eq_refl).
  unfold mbind, mret, run_bind, run_ret, bind, ret, emit, raise, getattr.
  rewrite Es, El, Epl.
  destruct (has_star f), p; cbn; rewrite <- ?app_assoc; reflexivity.
Qed.

Lemma main_loops args options f l tl t :
  argparse args = inl options ->
  options !! "filenames"%string = Some (VList (f :: l)) ->
  options !! "estimates"%string = Some (VBool false) ->
  options !! "loops"%string = Some (VBool true) ->
  options !! "tail"%string = Some (VBool tl) ->
  main args t =
  (t ++ [AverageTau (VList (f :: l)); if tl then PrintTail else PrintData], inl tt).
Proof.
  intros Ea Ef Ee El Et. unfold main.
  rewrite (bind_inl _ _ _ _ _ (parse_args_filenames _ _ _ _ _ Ea Ef)).
  rewrite (bind_inl _ _ _ _ _ (getattr_Some _ _ _ _ Ee)). cbn [truthy].
  rewrite (bind_inl _ _ _ _ _ (getattr_Some _ _ _ _ El)). cbn [truthy].
  unfold mbind, mret, run_bind, run_ret, bind, ret, emit, raise, getattr.
  rewrite Ef, Et.
  destruct tl; cbn; rewrite <- ?app_assoc; reflexivity.
Qed.

Lemma main_input args options f l t :
  argparse args = inl options ->
  options !! "filenames"%string = Some (VList (f :: l)) ->
  options !! "estimates"%string = Some (VBool false) ->
  options !! "loops"%string = Some (VBool false) ->
  options !! "input"%string = Some (VBool true) ->
  main args t = (t ++ [ExtractDataSets (VList (f :: l)); PrintMetadata], inl tt).
Proof.
  intros Ea Ef Ee El Ei. unfold main.
  rewrite (bind_inl _ _ _ _ _ (parse_args_filenames _ _ _ _ _ Ea Ef)).
  rewrite (bind_inl _ _ _ _ _ (getattr_Some _ _ _ _ Ee)). cbn [truthy].
  rewrite (bind_inl _ _ _ _ _ (getattr_Some _ _ _ _ El)). cbn [truthy].
  rewrite (bind_inl _ _ _ _ _ (getattr_Some _ _ _ _ Ei)). cbn [truthy].
  unfold mbind, mret, run_bind, run_ret, bind, ret, emit, raise, getattr.
  rewrite Ef. cbn. rewrite <- ?app_assoc. reflexivity.
Qed.

Lemma main_default args options f l t :
  argparse args = inl options ->
  options !! "filenames"%string = Some (VList (f :: l)) ->
  options !! "estimates"%string = Some (VBool false) ->
  options !! "loops"%string = Some (VBool false) ->
  options !! "input"%string = Some (VBool false) ->
  options !! "start_iteration"%string = None ->
  main args t = (t, inr AttributeError).
Proof.
  intros Ea Ef Ee El Ei Hsi. unfold main.
  rewrite (bind_inl _ _ _ _ _ (parse_args_filenames _ _ _ _ _ Ea Ef)).
  rewrite (bind_inl _ _ _ _ _ (getattr_Some _ _ _ _ Ee)). cbn [truthy].
  rewrite (bind_inl _ _ _ _ _ (getattr_Some _ _ _ _ El)). cbn [truthy].
  rewrite (bind_inl _ _ _ _ _ (getattr_Some _ _ _ _ Ei)). cbn [truthy].
  rewrite (bind_inl _ _ _ _ _ (getattr_Some _ _ _ _ Ef)).
  now rewrite (bind_inr _ _ _ _ _ (getattr_None _ _ _ Hsi)).
Qed.

(** X8: the default mode cannot work.  A namespace of this parser has no
    attribute [start_iteration] (the option is stored as [start_time]),
    so with none of [-e], [-l], [-i] the program raises [AttributeError]
    before calling the blocking analysis; and in no mode is the blocking
    analysis called or its result printed. *)
Theorem blocking_analysis_is_never_run (args : list string) (options : gmap string value)
    (t : list event) :
  argparse args = inl options -> from_parser options ->
  (forall ev, In ev (main args t).1 ->
     In ev t \/
     ((forall fs st, ev <> RunBlockingAnalysis fs st) /\ ev <> PrintReblock /\ ev <> PrintSummary)) /\
  (options !! "estimates"%string = Some (VBool false) ->
   options !! "loops"%string = Some (VBool false) ->
   options !! "input"%string = Some (VBool false) ->
   options !! "filenames"%string <> Some VNone ->
   main args t = (t, inr AttributeError)).
Proof.
  intros Ea Hp.
  pose proof (from_parser_no_start_iteration _ Hp) as Hsi.
  destruct (from_parser_flag _ "estimates"%string Hp) as [be Ee]; [cbn; intuition|].
  destruct (from_parser_flag _ "loops"%string Hp) as [bl El]; [cbn; intuition|].
  destruct (from_parser_flag _ "input"%string Hp) as [bi Ei]; [cbn; intuition|].
  destruct (from_parser_flag _ "plot"%string Hp) as [bp Epl]; [cbn; intuition|].
  destruct (from_parser_flag _ "tail"%string Hp) as [bt Et]; [cbn; intuition|].
  destruct (from_parser_start_time _ Hp) as [st Es].
  split.
  - destruct (from_parser_filenames _ Hp) as [Ef|(f & l & Ef)].
    + rewrite (main_no_filenames args options t Ea Ef). cbn [fst].
      intros ev Hin. apply in_app_or in Hin as [Hin|[<-|[]]]; [now left|].
      right. repeat split; intros; discriminate.
    + assert (exists evs, (main args t).1 = t ++ evs /\
                Forall (fun ev => match ev with
                                  | RunBlockingAnalysis _ _ | PrintReblock | PrintSummary => False
                                  | _ => True
                                  end) evs) as (evs & -> & Hall).
      { destruct be; [|destruct bl; [|destruct bi]].
        - rewrite (main_estimates _ _ _ _ _ _ _ _ Ea Ef Ee Es El Epl). eexists. split; [reflexivity|].
          destruct (has_star f), bp; cbn; repeat constructor.
        - rewrite (main_loops _ _ _ _ _ _ Ea Ef Ee El Et). eexists. split; [reflexivity|].
          destruct bt; repeat constructor.
        - rewrite (main_input _ _ _ _ _ Ea Ef Ee El Ei). eexists. split; [reflexivity|].
          repeat constructor.
        - rewrite (main_default _ _ _ _ _ Ea Ef Ee El Ei Hsi). exists []. cbn.
          rewrite app_nil_r. split; [reflexivity|constructor]. }
      intros ev Hin. apply in_app_or in Hin as [Hin|Hin]; [now left|]. right.
      rewrite List.Forall_forall in Hall. specialize (Hall ev Hin).
      repeat split; intros; intros ->; exact Hall.
  - intros Ee' El' Ei' Hf.
    destruct (from_parser_filenames _ Hp) as [Ef|(f & l & Ef)]; [contradiction|].
    now apply (main_default args options f l).
Qed.

(** X9: the estimates mode.  With [-e] and file names the modes [-l] and
    [-i] are not entered whatever their switches say; only the first
    file name is tested for a [*], and when it has one the files analysed
    are those the pattern matches, every further file name being dropped;
    with [-p] moreover the program stops with [UnboundLocalError] at the
    first use of [data], after the analysis and the creation of the
    figure, and otherwise it returns. *)
Theorem estimates_mode (args : list string) (options : gmap string value)
    (f : string) (l : list string) (t : list event) :
  argparse args = inl options -> from_parser options ->
  options !! "estimates"%string = Some (VBool true) ->
  options !! "filenames"%string = Some (VList (f :: l)) ->
  exists start loops p evs,
    options !! "start_time"%string = Some start /\
    options !! "loops"%string = Some (VBool loops) /\
    options !! "plot"%string = Some (VBool p) /\
    main args t =
      (t ++ evs ++ [AnalyseEstimates (if has_star f then glob f else f :: l) start (VBool loops)]
         ++ (if p then [Subplots] else []),
       if p then inr UnboundLocalError else inl tt) /\
    evs = (if has_star f then [Glob f] else []).
Proof.
  intros Ea Hp Ee Ef.
  destruct (from_parser_flag _ "loops"%string Hp) as [bl El]; [cbn; intuition|].
  destruct (from_parser_flag _ "plot"%string Hp) as [bp Epl]; [cbn; intuition|].
  destruct (from_parser_start_time _ Hp) as [st Es].
  exists st, bl, bp. eexists. split; [assumption|]. split; [assumption|]. split; [assumption|].
  split; [|reflexivity].
  apply (main_estimates args options f l st (VBool bl) bp t); assumption.
Qed.

End Facts.
End ReblockFacts.

Lemma reblock_namespace_from_parser (e p : bool) (fs : Reblock.value) :
  fs = Reblock.VNone \/ (exists f l, fs = Reblock.VList (f :: l)) ->
  @Reblock.from_parser (Examples.reblock_namespace e p fs).
Proof.
  intros Hfs. unfold Reblock.from_parser, Examples.reblock_namespace. split; [|split; [|split]].
  - intros name. rewrite !lookup_insert_is_Some', lookup_empty.
    unfold Reblock.dests. cbn [In]. split.
    + intros Hs. repeat (destruct Hs as [Hs|Hs]; [tauto|]). now destruct Hs.
    + tauto.
  - intros name v Hin Hv. cbn [In] in Hin.
    repeat (destruct Hin as [<-|Hin]; [vm_compute in Hv; injection Hv as <-; eexists; reflexivity|]).
    destruct Hin.
  - intros v Hv. vm_compute in Hv. injection Hv as <-. now left.
  - intros v Hv. rewrite !(lookup_insert_ne _ _ "filenames"%string) in Hv by discriminate.
    rewrite lookup_insert_eq in Hv. injection Hv as <-. exact Hfs.
Qed.

Lemma no_filenames_exits_with_status_1_witness :
  @Reblock.main Examples.reblock_env ["-e"%string] [] =
    ([Reblock.PrintHelp], inr (Reblock.SystemExit 1)).
Proof.
  apply (@ReblockFacts.no_filenames_exits_with_status_1 Examples.reblock_env
           ["-e"%string] (Examples.reblock_namespace true false Reblock.VNone) []);
    reflexivity.
Defined.

Lemma blocking_analysis_is_never_run_witness :
  @Reblock.main Examples.reblock_env ["run.h5"%string] [] = ([], inr Reblock.AttributeError).
Proof.
  apply (@ReblockFacts.blocking_analysis_is_never_run Examples.reblock_env ["run.h5"%string]
           (Examples.reblock_namespace false false (Reblock.VList ["run.h5"%string])) []).
  - reflexivity.
  - apply reblock_namespace_from_parser. right. eexists _, _. reflexivity.
  - reflexivity.
  - reflexivity.
  - reflexivity.
  - discriminate.
Defined.

Lemma estimates_mode_witness :
  @Reblock.main Examples.reblock_env ["-e"; "-p"; "*.h5"; "c.h5"]%string [] =
    ([Reblock.Glob "*.h5"; Reblock.AnalyseEstimates ["a.h5"; "b.h5"]%string Reblock.VNone
        (Reblock.VBool false); Reblock.Subplots],
     inr Reblock.UnboundLocalError).
Proof.
  destruct (@ReblockFacts.estimates_mode Examples.reblock_env ["-e"; "-p"; "*.h5"; "c.h5"]%string
              (Examples.reblock_namespace true true (Reblock.VList ["*.h5"; "c.h5"]%string))
              "*.h5"%string ["c.h5"%string] [])
    as (start & loops & p & evs & Es & El & Ep & Em & ->).
  - reflexivity.
  - apply reblock_namespace_from_parser. right. eexists _, _. reflexivity.
  - reflexivity.
  - reflexivity.
  - rewrite Em. vm_compute in Es, El, Ep.
    injection Es as <-. injection El as <-. injection Ep as <-. reflexivity.
Defined.

(** ** The UHF search: degenerate bounds, and the wavefunction returned *)

Module UHFMore.
Import TrialWavefunction.

Section Facts.
Context `{Env}.

(** With no attempt to make, or no SCF iteration allowed, the search raises. *)
Lemma find_uhf_wfn_degenerate sys cplx ueff ninit nit_max alpha deps (s : store) :
  ninit <= 0 \/ nit_max <= 0 ->
  exists e s', find_uhf_wfn sys cplx ueff ninit nit_max alpha deps s = Raise e s' /\
    trace s' = trace s /\
    (ninit <= 0 -> e = ValueError /\ system_U s' = system_U s /\ rng s' = rng s) /\
    (0 < ninit -> e = UnboundLocalError /\ system_U s' = ueff).
Proof.
  intros Hdeg. unfold find_uhf_wfn. cbn zeta. rewrite bind_gets, bind_modify.
  destruct (Z.leb_spec ninit 0) as [Hn|Hn].
  - replace (py_range 0 ninit) with (@nil Z)
      by (unfold py_range; now replace (Z.to_nat (ninit - 0)) with 0%nat by lia).
    cbn [attempts]. eexists _, _. split; [reflexivity|]. cbn.
    split; [reflexivity|]. split; [auto|]. lia.
  - assert (nit_max <= 0) as Hm by lia.
    rewrite (py_range_cons 0 ninit) by lia. cbn [attempts].
    match goal with |- context [attempt_body ?a ?b ?c ?d ?e ?f 0 ?l] =>
      assert (exists s1, attempt_body a b c d e f 0 l (set_system_U ueff s)
                         = Raise UnboundLocalError s1 /\
                         system_U s1 = ueff /\ trace s1 = trace s) as (s1 & E1 & U1 & T1)
    end.
    { unfold attempt_body. rewrite bind_get.
      destruct (initialise sys cplx _) as [[t e0] g]. rewrite bind_modify.
      replace (py_range 0 nit_max) with (@nil Z)
        by (unfold py_range; now replace (Z.to_nat (nit_max - 0)) with 0%nat by lia).
      cbn [scf_cycle]. eexists. split; [reflexivity|]. cbn. auto. }
    exists UnboundLocalError, s1.
    rewrite (bind_raise _ _ _ _ _ (bind_raise _ _ _ _ _ E1)).
    split; [reflexivity|]. split; [assumption|]. split; [lia|]. auto.
Qed.

(** [min] of a list whose last entry lies below all the others. *)
Lemma fold_left_Rmin_last (l : list R) (e : R) :
  forall x, (e <= x)%R -> Forall (fun m => (e < m)%R) l -> fold_left Rmin (l ++ [e]) x = e.
Proof.
  induction l as [|a l IH]; intros x Hx Hall; cbn [app fold_left].
  - now apply Rmin_right.
  - inversion Hall as [|? ? Ha Hl]; subst. apply IH; [|assumption].
    apply Rmin_glb; lra.
Qed.

Lemma py_min_last (l : list R) (e : R) (s : store) :
  Forall (fun m => (e < m)%R) l -> py_min (l ++ [e]) s = Return e s.
Proof.
  intros Hall. destruct l as [|a l]; cbn [app py_min].
  - reflexivity.
  - inversion Hall as [|? ? Ha Hl]; subst.
    rewrite fold_left_Rmin_last; [reflexivity|lra|assumption].
Qed.

Lemma self_consistant_pos_deps enew eold a b c d deps :
  self_consistant enew eold a b c d deps = true -> (0 < deps)%R.
Proof.
  intros E. destruct (Rlt_dec 0 deps) as [|Hn]; [assumption|].
  rewrite TrialWavefunctionFacts.self_consistant_nonpos_deps in E by lra. discriminate.
Qed.

Lemma accept_lowest sys ueff attempt deps e_up e_down t loc :
  (0 < deps)%R -> (attempt = 0 -> minima loc = []) ->
  lowest_accepted sys ueff loc ->
  lowest_accepted sys ueff (accept attempt deps (energy sys ueff t) e_up e_down t loc).
Proof.
  intros Hd H0 Hl. unfold accept.
  destruct (Z.eqb_spec attempt 0) as [Ha|Ha]; cbn [orb].
  - right. exists t, []. rewrite (H0 Ha). cbn. auto.
  - destruct (forallb _ _) eqn:Hall; [|assumption].
    right. exists t, (minima loc). cbn. split; [reflexivity|]. split; [reflexivity|].
    rewrite forallb_forall in Hall. apply List.Forall_forall. intros m Hm.
    specialize (Hall m Hm). apply TrialWavefunctionFacts.Rltb_true in Hall. lra.
Qed.

(** An SCF cycle keeps the accepted wavefunction the lowest one. *)
Lemma scf_cycle_lowest sys ueff alpha deps attempt (its : list Z) :
  forall v loc s v' loc' s',
  system_U s = ueff -> (attempt = 0 -> minima loc = []) ->
  lowest_accepted sys ueff loc ->
  scf_cycle sys ueff alpha deps attempt its v loc s = Return (v', loc') s' ->
  lowest_accepted sys ueff loc'.
Proof.
  induction its as [|i its IH]; intros v loc s v' loc' s' HU H0 Hl; cbn [scf_cycle].
  - now intros [= <- <- <-].
  - destruct (diagonalise_mean_field _ _ _ _ _) as [[[[up down] e_up] e_down] t].
    rewrite bind_gets, HU.
    destruct (self_consistant _ _ _ _ _ _ _) eqn:Esc.
    + intros [= <- <- <-].
      apply accept_lowest; [now apply self_consistant_pos_deps in Esc|exact H0|exact Hl].
    + intros Hrun. apply (IH _ _ _ _ _ _ HU) in Hrun; [assumption|exact H0|exact Hl].
Qed.

Lemma attempt_body_lowest sys cplx ueff alpha deps nit_max attempt loc s loc' s' :
  system_U s = ueff -> (attempt = 0 -> minima loc = []) ->
  lowest_accepted sys ueff loc ->
  attempt_body sys cplx ueff alpha deps nit_max attempt loc s = Return loc' s' ->
  lowest_accepted sys ueff loc' /\ system_U s' = ueff.
Proof.
  intros HU H0 Hl. unfold attempt_body. rewrite bind_get.
  destruct (initialise sys cplx (rng s)) as [[t e0] g]. rewrite bind_modify.
  intros Hrun. apply bind_Return in Hrun as ([v1 loc1] & s1 & E1 & Hrun).
  pose proof E1 as E1'.
  apply scf_cycle_lowest in E1 as Hl1; [|assumption|exact H0|exact Hl].
  match type of E1' with scf_cycle _ _ _ _ _ ?its ?v ?l _ = _ =>
    destruct (TrialWavefunctionFacts.scf_cycle_Return sys ueff alpha deps attempt its v l
                (set_rng g s)) as (v2 & loc2 & E2 & _)
  end.
  rewrite E2 in E1'. injection E1' as -> -> <-.
  destruct (it loc1); [|discriminate]. injection Hrun as <- <-. auto.
Qed.

Lemma attempts_lowest sys cplx ueff alpha deps nit_max (l : list Z) :
  forall loc s loc' s',
  system_U s = ueff -> (forall a, In a l -> a <> 0) ->
  lowest_accepted sys ueff loc ->
  attempts (attempt_body sys cplx ueff alpha deps nit_max) l loc s = Return loc' s' ->
  lowest_accepted sys ueff loc'.
Proof.
  induction l as [|a l IH]; intros loc s loc' s' HU Hnz Hl; cbn [attempts].
  - now intros [= <- <-].
  - intros Hrun. apply bind_Return in Hrun as (loc1 & s1 & E1 & Hrun).
    apply attempt_body_lowest in E1 as [Hl1 HU1]; [|assumption| |assumption].
    + apply (IH _ _ _ _ HU1) in Hrun; [assumption| |assumption].
      intros a' Hin. apply Hnz. now right.
    + intros Ha. exfalso. now apply (Hnz a (or_introl eq_refl)).
Qed.

(** When the search returns, the wavefunction returned is the lowest one
    found and [emin] is its energy at [U = ueff]. *)
Lemma find_uhf_wfn_Return_lowest sys cplx ueff ninit nit_max alpha deps (s : store) r s' :
  find_uhf_wfn sys cplx ueff ninit nit_max alpha deps s = Return r s' ->
  r_emin r = Some (energy sys ueff (r_psi r)).
Proof.
  unfold find_uhf_wfn. cbn zeta. rewrite bind_gets, bind_modify. intros Hrun.
  apply bind_Return in Hrun as (loc & s1 & E1 & Hrun). rewrite bind_modify in Hrun.
  assert (lowest_accepted sys ueff loc) as Hl.
  { destruct (Z.leb_spec ninit 0) as [Hn|Hn].
    - replace (py_range 0 ninit) with (@nil Z) in E1
        by (unfold py_range; now replace (Z.to_nat (ninit - 0)) with 0%nat by lia).
      injection E1 as <- <-. now left.
    - rewrite (py_range_cons 0 ninit) in E1 by lia. cbn [attempts] in E1.
      apply bind_Return in E1 as (loc0 & s0 & E0 & E1).
      apply attempt_body_lowest in E0 as [Hl0 HU0]; [|reflexivity|reflexivity|now left].
      apply (attempts_lowest _ _ _ _ _ _ _ _ _ _ _ HU0) in E1; [assumption| |assumption].
      intros a Hin. apply py_range_In in Hin. lia. }
  destruct Hl as [Hnil|(p & l & Ep & Em & Hall)].
  - rewrite Hnil in Hrun. discriminate.
  - rewrite Em, Ep in Hrun. rewrite (bind_eq _ _ _ _ _ (py_min_last _ _ _ Hall)) in Hrun.
    destruct (e_accept loc), (nav loc); try (destruct (enew loc); discriminate).
    rewrite (bind_eq _ _ _ _ _ (py_min_last _ _ _ Hall)) in Hrun.
    injection Hrun as <- <-. reflexivity.
Qed.

(** X10: with no attempt to make, or no SCF iteration allowed, the search
    cannot return.  For [ninit <= 0] the [min] of the empty list of
    minima raises [ValueError], and the store is as it was.  For
    [0 < ninit] and [nit_max <= 0] the first attempt ends at the [print]
    that reads the loop variable [it], which is unbound: the search
    raises [UnboundLocalError] and leaves [system.U] at [ueff]. *)
Theorem find_uhf_wfn_degenerate_bounds sys cplx ueff ninit nit_max alpha deps (s : store) :
  ninit <= 0 \/ nit_max <= 0 ->
  exists e s', find_uhf_wfn sys cplx ueff ninit nit_max alpha deps s = Raise e s' /\
    trace s' = trace s /\
    (ninit <= 0 -> e = ValueError /\ system_U s' = system_U s /\ rng s' = rng s) /\
    (0 < ninit -> e = UnboundLocalError /\ system_U s' = ueff).
Proof. apply find_uhf_wfn_degenerate. Qed.

(** X11: when the search returns, the wavefunction it returns is the one
    of lowest energy among the converged ones, [emin] is the energy of
    that wavefunction at [U = ueff], and the error flag is not set.  It
    can only return with at least one attempt, at least one SCF
    iteration, and a positive tolerance [deps]. *)
Theorem find_uhf_wfn_returns_lowest sys cplx ueff ninit nit_max alpha deps (s : store) r s' :
  find_uhf_wfn sys cplx ueff ninit nit_max alpha deps s = Return r s' ->
  r_emin r = Some (energy sys ueff (r_psi r)) /\ r_error r = false /\
  0 < ninit /\ 0 < nit_max /\ (0 < deps)%R.
Proof.
  intros E. split; [exact (find_uhf_wfn_Return_lowest _ _ _ _ _ _ _ _ _ _ E)|].
  pose proof (TrialWavefunctionFacts.find_uhf_wfn_outcome sys cplx ueff ninit nit_max alpha deps s)
    as (_ & Ho & Hf). cbn zeta in Ho, Hf. rewrite E in Ho, Hf.
  split; [apply Ho|].
  assert (0 < ninit /\ 0 < nit_max) as [Hn Hm].
  { destruct (Z.leb_spec ninit 0) as [Hn|Hn]; [|destruct (Z.leb_spec nit_max 0) as [Hm|Hm]];
      [| |auto].
    - destruct (find_uhf_wfn_degenerate sys cplx ueff ninit nit_max alpha deps s (or_introl Hn))
        as (e & s1 & E1 & _). congruence.
    - destruct (find_uhf_wfn_degenerate sys cplx ueff ninit nit_max alpha deps s (or_intror Hm))
        as (e & s1 & E1 & _). congruence. }
  split; [assumption|]. split; [assumption|].
  destruct (Rlt_dec 0 deps) as [|Hd]; [assumption|].
  destruct (Hf ltac:(lra) Hm) as (s1 & [=]).
Qed.

(** X12: the object that [UHF.__init__] constructs.  [emin] is the energy
    of [psi] at the effective interaction [ueff] of the search (the
    option [ueff], 0.4 by default), whereas [etrial] is the energy of the
    same [psi] at the interaction strength of the system, which the
    search has put back; the error flag is not set. *)
Theorem UHF_init_energies sys cplx opts parallel (s : store) u s' :
  UHF_init sys cplx opts parallel s = Return u s' ->
  emin u = Some (energy sys (default 0.4%R (opt_ueff opts)) (psi u)) /\
  etrial u = energy sys (system_U s) (psi u) /\
  error u = false /\ system_U s' = system_U s /\ trace s' = trace s.
Proof.
  unfold UHF_init. cbn zeta. intros Hrun.
  apply bind_Return in Hrun as (r & s1 & E & Hrun).
  pose proof (find_uhf_wfn_Return_lowest _ _ _ _ _ _ _ _ _ _ E) as Hmin.
  match type of E with find_uhf_wfn ?a ?b ?c ?d ?nit ?f ?g _ = _ =>
    pose proof (TrialWavefunctionFacts.find_uhf_wfn_outcome a b c d nit f g s) as (T & Ho & _)
  end.
  cbn zeta in T, Ho. rewrite E in T, Ho. destruct Ho as [HU Herr]. cbn [final] in T.
  rewrite Herr in Hrun. cbn [andb] in Hrun. rewrite bind_gets in Hrun.
  injection Hrun as <- <-. cbn. rewrite HU. auto.
Qed.

End Facts.
End UHFMore.

Lemma find_uhf_wfn_degenerate_bounds_witness :
  exists s', @TrialWavefunction.find_uhf_wfn Examples.uhf_env tt false 0.4 1 0 0.5 1e-8
               Examples.uhf_store = Raise UnboundLocalError s' /\
             TrialWavefunction.system_U s' = 0.4%R.
Proof.
  destruct (@UHFMore.find_uhf_wfn_degenerate_bounds Examples.uhf_env tt false 0.4%R 1 0 0.5%R
              1e-8%R Examples.uhf_store) as (e & s' & E & _ & _ & Hpos); [right; lia|].
  destruct (Hpos ltac:(lia)) as [-> HU]. exists s'. split; [exact E|exact HU].
Defined.

Lemma find_uhf_wfn_returns_lowest_witness :
  exists r, @TrialWavefunction.find_uhf_wfn Examples.uhf_env tt false 0.4 1 1 0.5 1e-8
              Examples.uhf_store = Return r Examples.uhf_store /\
            TrialWavefunction.r_emin r = Some 0%R.
Proof.
  destruct find_uhf_wfn_example as (r & E). exists r. split; [exact E|].
  exact (proj1 (@UHFMore.find_uhf_wfn_returns_lowest Examples.uhf_env tt false 0.4%R 1 1 0.5%R
                  1e-8%R Examples.uhf_store r _ E)).
Defined.

Lemma UHF_init_example :
  exists u, @TrialWavefunction.UHF_init Examples.uhf_env tt false Examples.uhf_opts_one false
              Examples.uhf_store = Return u Examples.uhf_store.
Proof.
  destruct find_uhf_wfn_example as (r & E).
  pose proof (@TrialWavefunctionFacts.find_uhf_wfn_outcome Examples.uhf_env tt false 0.4%R 1 1
                0.5%R 1e-8%R Examples.uhf_store) as (_ & Ho & _).
  cbn zeta in Ho. rewrite E in Ho. destruct Ho as [_ Herr].
  unfold TrialWavefunction.UHF_init. cbn zeta.
  change (default 10 (TrialWavefunction.opt_ninitial Examples.uhf_opts_one)) with 1.
  change (default 5000 (TrialWavefunction.opt_nconv Examples.uhf_opts_one)) with 1.
  change (default 0.4%R (TrialWavefunction.opt_ueff Examples.uhf_opts_one)) with 0.4%R.
  change (default 1e-8%R (TrialWavefunction.opt_deps Examples.uhf_opts_one)) with 1e-8%R.
  change (default 0.5%R (TrialWavefunction.opt_alpha Examples.uhf_opts_one)) with 0.5%R.
  rewrite (bind_eq _ _ _ _ _ E), Herr. cbn [andb]. rewrite bind_gets.
  eexists. reflexivity.
Qed.

Lemma UHF_init_energies_witness :
  exists u, @TrialWavefunction.UHF_init Examples.uhf_env tt false Examples.uhf_opts_one false
              Examples.uhf_store = Return u Examples.uhf_store /\
            TrialWavefunction.emin u = Some 0%R /\ TrialWavefunction.etrial u = 0%R.
Proof.
  destruct UHF_init_example as (u & E). exists u. split; [exact E|].
  destruct (@UHFMore.UHF_init_energies Examples.uhf_env tt false Examples.uhf_opts_one false
              Examples.uhf_store u _ E) as (Hmin & Htrial & _).
  split; [exact Hmin|exact Htrial].
Defined.


(** ** [determine_dtype] on a twist vector of dtype [object] *)

Lemma split_at_None (o : Pauxy.pyobj) (l : list Pauxy.pyobj) :
  (exists pre post, o :: l = pre ++ Pauxy.PyNone :: post /\ forallb Pauxy.truthy pre = true) <->
  o = Pauxy.PyNone \/
  (Pauxy.truthy o = true /\
   exists pre post, l = pre ++ Pauxy.PyNone :: post /\ forallb Pauxy.truthy pre = true).
Proof.
  split.
  - intros (pre & post & E & Hall). destruct pre as [|a pre]; cbn in E; injection E as -> ->.
    + now left.
    + cbn in Hall. apply andb_true_iff in Hall as [Ha Hall]. right. eauto.
  - intros [->|(Ho & pre & post & -> & Hall)].
    + exists [], l. auto.
    + exists (o :: pre), post. cbn. rewrite Ho, Hall. auto.
Qed.

Lemma fold_py_and_None (l : list Pauxy.pyobj) :
  forall o, fold_left Pauxy.py_and l o = Pauxy.PyNone <->
  exists pre post, o :: l = pre ++ Pauxy.PyNone :: post /\ forallb Pauxy.truthy pre = true.
Proof.
  induction l as [|a l IH]; intros o; rewrite split_at_None; cbn [fold_left].
  - split; [now left|]. intros [->|(_ & pre & post & E & _)]; [reflexivity|].
    now destruct pre.
  - rewrite IH, split_at_None. unfold Pauxy.py_and.
    destruct (Pauxy.truthy o) eqn:Ho.
    + rewrite (split_at_None a l). split.
      * intros Ha. right. split; [reflexivity|exact Ha].
      * intros [->|[_ Ha]]; [discriminate|exact Ha].
    + rewrite Ho. split.
      * intros [->|[[=] _]]. now left.
      * intros [->|[[=] _]]. now left.
Qed.

(** X14: for a twist vector stored with dtype [object] and the discrete
    transformation, [determine_dtype] returns [False] exactly when the
    first entry of the vector that is not truthy is [None]: entries in
    front of it must all be non-zero, entries behind it are not looked
    at.  So [[None]] and [[0.5, None]] are no twist, and [[0.0, None]]
    and the empty vector are one. *)
Theorem determine_dtype_object_ktwist (propagator : gmap string string) (l : list Pauxy.pyobj) :
  Pauxy.determine_dtype propagator (Pauxy.mkSystem (Pauxy.ObjectArray l)) = false <->
  Pauxy.contains "continuous"
    (default "discrete"%string (propagator !! "hubbard_stratonovich"%string)) = false /\
  exists pre post, l = pre ++ Pauxy.PyNone :: post /\ forallb Pauxy.truthy pre = true.
Proof.
  unfold Pauxy.determine_dtype. cbn [Pauxy.ktwist]. rewrite orb_false_iff.
  apply and_iff_compat_l.
  destruct l as [|o l]; cbn [Pauxy.ndarray_all].
  - cbn. split; [discriminate|]. intros (pre & post & E & _). now destruct pre.
  - rewrite <- fold_py_and_None.
    destruct (fold_left Pauxy.py_and l o); cbn; split; congruence.
Qed.

(** ** [AFQMC.run]: how often the periodic calls are made *)

(** The multiples of [c] among [1, ..., n]. *)
Lemma multiples_in_range (c : Z) (n : nat) :
  0 < c ->
  length (List.filter (fun k => k mod c =? 0) (map Z.of_nat (seq 1 n))) = Z.to_nat (Z.of_nat n / c).
Proof.
  intros Hc. induction n as [|n IH]; [cbn; now rewrite Z.div_0_l by lia|].
  rewrite seq_S, map_app, List.filter_app, length_app, IH. cbn [map List.filter Nat.add].
  replace (Z.of_nat (1 + n)) with (Z.of_nat n + 1) by lia.
  replace (Z.of_nat (S n)) with (Z.of_nat n + 1) by lia.
  pose proof (Z.div_mod (Z.of_nat n) c ltac:(lia)) as Hdm.
  pose proof (Z.mod_pos_bound (Z.of_nat n) c Hc) as Hb.
  pose proof (Z.div_pos (Z.of_nat n) c ltac:(lia) Hc) as Hq.
  destruct (Z.eqb_spec ((Z.of_nat n + 1) mod c) 0) as [Hz|Hz]; cbn [length].
  - apply Z.mod_divide in Hz as [q Hq']; [|lia].
    assert (q = Z.of_nat n / c + 1) as -> by nia.
    rewrite Hq', Z.div_mul by lia. lia.
  - assert ((Z.of_nat n + 1) / c = Z.of_nat n / c) as ->; [|lia].
    symmetry. apply (Z.div_unique _ _ _ (Z.of_nat n mod c + 1)); [|lia].
    left. split; [lia|].
    destruct (Z.eq_dec (Z.of_nat n mod c + 1) c) as [E|]; [|lia].
    exfalso. apply Hz. replace (Z.of_nat n + 1) with ((Z.of_nat n / c + 1) * c) by lia.
    apply Z.mod_mul. lia.
Qed.

Module PauxyCounts.
Import Pauxy.

Section Facts.
Context `{Env}.

Lemma calls_app kind (t1 t2 : list event) : calls kind (t1 ++ t2) = (calls kind t1 + calls kind t2)%nat.
Proof. unfold calls. now rewrite List.filter_app, length_app. Qed.

Lemma calls_propagations kind i (l : list (Walker Phi)) :
  (forall k, kind (Propagate k) = false) -> calls kind (propagations i l) = 0%nat.
Proof.
  intros Hk. revert i. induction l as [|w l IH]; intros i; [reflexivity|].
  cbn [propagations]. rewrite calls_app, IH.
  destruct (guard w); cbn; [now rewrite Hk|reflexivity].
Qed.

Lemma for_each_run_step_calls (self : AFQMC) kind c (l : list Z) :
  periodic self kind c ->
  forall s s', for_each l (run_step self) s = Return tt s' ->
  exists evs, trace s' = trace s ++ evs /\
    calls kind evs = length (List.filter (fun k => k mod c =? 0) l).
Proof.
  intros (Kp & _ & _ & Ks). induction l as [|k l IH]; intros s s' Hrun; cbn [for_each] in Hrun.
  - injection Hrun as <-. exists []. now rewrite app_nil_r.
  - change (Py.bind ?m ?k) with (m ≫= k) in Hrun.
    apply bind_Return in Hrun as ([] & s1 & H1 & Hrun).
    apply PauxyFacts.run_step_Return in H1 as (_ & _ & _ & _ & T1).
    destruct (IH _ _ Hrun) as (evs & T & Hc).
    eexists. split; [rewrite T, T1, <- !app_assoc; reflexivity|].
    rewrite !calls_app, calls_propagations, Ks, Hc by assumption.
    cbn [List.filter]. destruct (k mod c =? 0); reflexivity.
Qed.

Lemma run_calls (self : AFQMC) kind c psi verbose s s' :
  periodic self kind c ->
  run self psi verbose s = Return tt s' ->
  exists evs, trace s' = trace s ++ evs /\
    (0 < c -> calls kind evs = Z.to_nat (nsteps (qmc self) / c)).
Proof.
  intros Hper Hrun. pose proof Hper as (Kp & Km & Kmp & _). unfold run in Hrun.
  apply bind_Return in Hrun as ([] & s0 & H0 & Hrun).
  assert (trace s0 = trace s) as T0.
  { destruct psi; [unfold Py.modify in H0|unfold mret, M_ret, Py.ret in H0];
      injection H0 as <-; reflexivity. }
  rewrite bind_gets in Hrun. destruct (walkers s0) as [|w0 l]; [discriminate|].
  rewrite bind_modify in Hrun. unfold call in Hrun. rewrite bind_modify in Hrun.
  assert (exists s1 pre, for_each (py_range 1 (nsteps (qmc self) + 1)) (run_step self) s1
                         = Return tt s' /\ trace s1 = trace s ++ pre /\ calls kind pre = 0%nat)
    as (s1 & pre & Hfor & T1 & Cpre).
  { destruct (verbose && root self);
      rewrite ?bind_when_true, ?bind_when_false, ?bind_modify in Hrun.
    - eexists _, [MixedUpdate 0; MixedPrintStep 0]. split; [exact Hrun|].
      split; [cbn; rewrite T0, <- app_assoc; reflexivity|].
      unfold calls. cbn. now rewrite Km, Kmp.
    - eexists _, [MixedUpdate 0]. split; [exact Hrun|].
      split; [cbn; rewrite T0; reflexivity|].
      unfold calls. cbn. now rewrite Km. }
  destruct (for_each_run_step_calls self kind c _ Hper _ _ Hfor) as (evs & T & Hcount).
  exists (pre ++ evs). split; [rewrite T, T1, <- app_assoc; reflexivity|]. intros Hc.
  rewrite calls_app, Cpre, Hcount, py_range_from_1. cbn [Nat.add].
  rewrite multiples_in_range by assumption.
  destruct (Z.leb_spec 0 (nsteps (qmc self))) as [Hn|Hn].
  - now rewrite Z2Nat.id by assumption.
  - replace (Z.to_nat (nsteps (qmc self))) with 0%nat by lia. cbn [Z.of_nat].
    rewrite Z.div_0_l by lia.
    pose proof (Z.div_lt_upper_bound (nsteps (qmc self)) c 0 Hc ltac:(lia)). lia.
Qed.

Lemma periodic_orthogonalise (self : AFQMC) :
  periodic self is_orthogonalise (nstblz (qmc self)).
Proof.
  repeat split. intros step E. unfold step_calls, calls.
  destruct (_ =? 0), (_ =? 0), (_ =? 0), (_ =? 0); reflexivity.
Qed.

Lemma periodic_projected_energy (self : AFQMC) :
  periodic self is_projected_energy (nupdate_shift (qmc self)).
Proof.
  repeat split. intros step E. unfold step_calls, calls.
  destruct (_ =? 0), (_ =? 0), (_ =? 0), (_ =? 0); reflexivity.
Qed.

Lemma periodic_print_step (self : AFQMC) :
  periodic self is_print_step (nmeasure (qmc self)).
Proof.
  repeat split. intros step E. unfold step_calls, calls.
  destruct (_ =? 0), (_ =? 0), (_ =? 0), (_ =? 0); reflexivity.
Qed.

Lemma periodic_pop_control (self : AFQMC) :
  periodic self is_pop_control (npop_control (qmc self)).
Proof.
  repeat split. intros step E. unfold step_calls, calls.
  destruct (_ =? 0), (_ =? 0), (_ =? 0), (_ =? 0); reflexivity.
Qed.

(** X15: over a whole run of [AFQMC.run] that returns, each periodic
    action with a positive cadence [c] is performed exactly
    [floor(nsteps / c)] times: the orthogonalisation of the walkers
    ([nstblz]), the update of the energy shift ([nupdate_shift]), the
    printing of a step ([nmeasure], the printing of step 0 apart) and the
    population control ([npop_control]). *)
Theorem periodic_calls_over_a_run (self : AFQMC) psi verbose (s s' : store) :
  run self psi verbose s = Return tt s' ->
  exists evs, trace s' = trace s ++ evs /\
    (0 < nstblz (qmc self) ->
       calls is_orthogonalise evs = Z.to_nat (nsteps (qmc self) / nstblz (qmc self))) /\
    (0 < nupdate_shift (qmc self) ->
       calls is_projected_energy evs = Z.to_nat (nsteps (qmc self) / nupdate_shift (qmc self))) /\
    (0 < nmeasure (qmc self) ->
       calls is_print_step evs = Z.to_nat (nsteps (qmc self) / nmeasure (qmc self))) /\
    (0 < npop_control (qmc self) ->
       calls is_pop_control evs = Z.to_nat (nsteps (qmc self) / npop_control (qmc self))).
Proof.
  intros Hrun.
  assert (exists evs, trace s' = trace s ++ evs) as (evs & T).
  { destruct (run_calls self _ _ psi verbose s s' (periodic_pop_control self) Hrun)
      as (evs & T & _). eauto. }
  exists evs. split; [exact T|].
  assert (forall kind c, periodic self kind c -> 0 < c ->
            calls kind evs = Z.to_nat (nsteps (qmc self) / c)) as Hall.
  { intros kind c Hper Hc.
    destruct (run_calls self kind c psi verbose s s' Hper Hrun) as (evs' & T' & Hcount).
    rewrite T in T'. apply app_inv_head in T'. subst evs'. now apply Hcount. }
  split; [|split; [|split]]; intros Hc.
  - apply Hall; [apply periodic_orthogonalise|assumption].
  - apply Hall; [apply periodic_projected_energy|assumption].
  - apply Hall; [apply periodic_print_step|assumption].
  - apply Hall; [apply periodic_pop_control|assumption].
Qed.

End Facts.
End PauxyCounts.

Lemma periodic_calls_over_a_run_witness :
  exists s' evs,
    @Pauxy.run Examples.pauxy_env Examples.afqmc None true Examples.pauxy_store = Return tt s' /\
    Pauxy.trace s' = evs /\
    Pauxy.calls Pauxy.is_pop_control evs = 2%nat /\
    Pauxy.calls Pauxy.is_orthogonalise evs = 2%nat.
Proof.
  destruct (@PauxyFacts.run_total Examples.pauxy_env Examples.afqmc None true Examples.pauxy_store)
    as (s' & E); try discriminate; try (cbn; lia).
  destruct (@PauxyCounts.periodic_calls_over_a_run Examples.pauxy_env Examples.afqmc None true
              Examples.pauxy_store s' E) as (evs & T & Ho & _ & _ & Hp).
  exists s', evs. split; [exact E|]. split; [exact T|].
  split; [apply Hp; cbn; lia|apply Ho; cbn; lia].
Defined.

(** ** [do_qmc]: the attribute [state.qmc.mean_local_energy] *)

(** X16: in a run without back-propagation [do_qmc] writes the attribute
    [state.qmc.mean_local_energy] once, at line 30 before the first
    step, and never again: whatever the run does afterwards, and whether
    it returns or raises, the attribute holds the real part of the local
    energy of the first walker of the initial population.  (The update
    during equilibration goes to another attribute,
    [state.mean_local_energy].)  With back-propagation enabled the run
    ends before line 30 and the attribute is as it was. *)
Theorem energy_bound_is_set_once `{EA : Afqmcpy.Env} (st : Afqmcpy.State)
    (s : Afqmcpy.store) w0 l :
  Afqmcpy.psi s = w0 :: l ->
  Afqmcpy.qmc_mean_local_energy (final (Afqmcpy.do_qmc st s)) =
    if Afqmcpy.back_propagation st then Afqmcpy.qmc_mean_local_energy s
    else Some (re (Afqmcpy.local_energy w0)).
Proof.
  intros Ep. destruct (Afqmcpy.back_propagation st) eqn:B.
  - unfold Afqmcpy.do_qmc, Afqmcpy.prologue. rewrite B. reflexivity.
  - destruct (AfqmcpyFacts.do_qmc_after_line_30 st s w0 l B Ep) as (Q & _). exact Q.
Qed.

Lemma energy_bound_is_set_once_witness :
  Afqmcpy.qmc_mean_local_energy
    (final (@Afqmcpy.do_qmc Examples.afqmcpy_env Examples.state_itcf_only
              Examples.afqmcpy_store)) = Some 1%R.
Proof.
  exact (@energy_bound_is_set_once Examples.afqmcpy_env Examples.state_itcf_only
           Examples.afqmcpy_store (Examples.walker 1) [Examples.walker 1e-9] eq_refl).
Defined.

(** ** [AFQMC.run]: the local energy bound of the propagator *)

Lemma for_each_snoc_Return {S A} (body : A -> M S unit) (l : list A) (a : A) :
  forall s s', for_each (l ++ [a]) body s = Return tt s' ->
  exists s1, for_each l body s = Return tt s1 /\ body a s1 = Return tt s'.
Proof.
  induction l as [|x l IH]; intros s s' Hrun; cbn [app for_each] in *.
  - change (Py.bind ?m ?k) with (m ≫= k) in Hrun.
    apply bind_Return in Hrun as ([] & s1 & H1 & Hrun). injection Hrun as <-.
    exists s. split; [reflexivity|assumption].
  - change (Py.bind ?m ?k) with (m ≫= k) in *.
    apply bind_Return in Hrun as ([] & s1 & H1 & Hrun).
    destruct (IH _ _ Hrun) as (s2 & E2 & E3). exists s2.
    rewrite (bind_eq _ _ _ _ _ H1). auto.
Qed.

Module PauxyBound.
Import Pauxy.

Section Facts.
Context `{Env}.

Lemma for_each_run_step_bound (self : AFQMC) (l : list Z) :
  (forall k, In k l -> nequilibrate (qmc self) <= k) ->
  forall s s', for_each l (run_step self) s = Return tt s' ->
  mean_local_energy s' = mean_local_energy s.
Proof.
  induction l as [|k l IH]; intros Hl s s' Hrun; cbn [for_each] in Hrun.
  - now injection Hrun as <-.
  - change (Py.bind ?m ?k) with (m ≫= k) in Hrun.
    apply bind_Return in Hrun as ([] & s1 & H1 & Hrun).
    apply PauxyFacts.run_step_Return in H1 as (_ & _ & _ & M1 & _).
    rewrite (IH (fun k' Hk => Hl k' (or_intror Hk)) _ _ Hrun), M1.
    destruct (Z.ltb_spec k (nequilibrate (qmc self))) as [Hlt|]; [|reflexivity].
    specialize (Hl k (or_introl eq_refl)). lia.
Qed.

(** X17: the bound [propagators.mean_local_energy] at the end of a run of
    [AFQMC.run] that returns.  It starts as the real part of the local
    energy of the first walker.  With [nequilibrate <= 1] no step updates
    it and it still has this value at the end; with
    [1 <= nsteps < nequilibrate] every step updates it and at the end it
    is the energy shift [E_T] itself, imaginary part included. *)
Theorem local_energy_bound_after_run (self : AFQMC) psi verbose (s s' : store) w0 l :
  default (walkers s) psi = w0 :: l ->
  run self psi verbose s = Return tt s' ->
  (nequilibrate (qmc self) <= 1 ->
     mean_local_energy s' = Some (of_real (re (local_energy w0)))) /\
  (1 <= nsteps (qmc self) < nequilibrate (qmc self) ->
     mean_local_energy s' = Some (E_T s')).
Proof.
  intros Hw Hrun. unfold run in Hrun.
  apply bind_Return in Hrun as ([] & s0 & H0 & Hrun).
  assert (walkers s0 = w0 :: l) as W0.
  { destruct psi; [unfold Py.modify in H0|unfold mret, M_ret, Py.ret in H0];
      injection H0 as <-; exact Hw. }
  rewrite bind_gets, W0 in Hrun.
  rewrite bind_modify in Hrun. unfold call in Hrun. rewrite bind_modify in Hrun.
  assert (exists s1, for_each (py_range 1 (nsteps (qmc self) + 1)) (run_step self) s1
                     = Return tt s' /\
                     mean_local_energy s1 = Some (of_real (re (local_energy w0))))
    as (s1 & Hfor & M1).
  { destruct (verbose && root self);
      rewrite ?bind_when_true, ?bind_when_false, ?bind_modify in Hrun;
      eexists; (split; [exact Hrun|reflexivity]). }
  split.
  - intros Hq. rewrite <- M1. apply (for_each_run_step_bound self _) in Hfor; [assumption|].
    intros k Hk. apply py_range_In in Hk. lia.
  - intros Hn.
    rewrite (py_range_app 1 (nsteps (qmc self)) (nsteps (qmc self) + 1)) in Hfor by lia.
    rewrite (py_range_cons (nsteps (qmc self)) (nsteps (qmc self) + 1)) in Hfor by lia.
    replace (py_range (nsteps (qmc self) + 1) (nsteps (qmc self) + 1)) with (@nil Z) in Hfor
      by (unfold py_range; now rewrite Z.sub_diag).
    apply for_each_snoc_Return in Hfor as (s2 & _ & Hlast).
    apply PauxyFacts.run_step_Return in Hlast as (_ & _ & _ & M & _).
    rewrite M. destruct (Z.ltb_spec (nsteps (qmc self)) (nequilibrate (qmc self))); [reflexivity|lia].
Qed.

End Facts.
End PauxyBound.

Lemma local_energy_bound_after_run_witness :
  exists s',
    @Pauxy.run Examples.pauxy_env Examples.afqmc_short None true Examples.pauxy_store
      = Return tt s' /\
    Pauxy.mean_local_energy s' = Some (Pauxy.E_T s').
Proof.
  destruct (@PauxyFacts.run_total Examples.pauxy_env Examples.afqmc_short None true
              Examples.pauxy_store) as (s' & E); try discriminate; try (cbn; lia).
  exists s'. split; [exact E|].
  destruct (@PauxyBound.local_energy_bound_after_run Examples.pauxy_env Examples.afqmc_short
              None true Examples.pauxy_store s' (Examples.walker 1) [Examples.walker 1e-9]
              eq_refl E) as [_ Hb].
  apply Hb. cbn. lia.
Defined.
